(** * KXN: an 8-bit stack virtual machine, its host I/O and its assembler

    A shallow embedding of the C sources of the KXN tool chain:

    - [vm.c] / [vm.h]: the execution engine ([vm_push], [vm_pop],
      [vm_read16], [init_vm], [load_program], [run_vm], [main]);
    - [platforms/sdl2/platform_io.c] / [platform_io.h]: the host I/O
      dispatcher ([handle_platform_io], [platform_io_process_events],
      [platform_io_is_waiting_for_input]);
    - the source of [kxasm], the two-pass assembler ([emit_byte],
      [find_label], [patch_labels], [assemble_file], [main]).

    Modelling conventions.
    - [uint8_t] and [uint16_t] values are integers of [Z]; every place
      where C converts to one of these types is written out with [u8] or
      [u16].
    - [vm->memory] is a finite map from addresses to bytes; a missing key
      reads as 0, so the empty map is the image after [memset (.., 0, ..)].
    - A C function that mutates [*vm] or [*ctx] returns the new record,
      next to its C return value when it has one.
    - Where C leaves a result undefined and the program goes on with what
      the platform produced (a shift by the width of [int] or more, a
      [strcpy] within one buffer), that behaviour is a parameter of the
      model ([host_t], [libc_t]).  Where a store runs past a C array, the
      model raises a flag ([overrun]) and says nothing about the program
      from there on. *)

From Stdlib Require Import ZArith List String Ascii Bool Lia.
From stdpp Require Import base option list gmap.
Import ListNotations.

Local Open Scope Z_scope.

(** ** Machine integers *)

Definition u8 (x : Z) : Z := x mod 256.
Definition u16 (x : Z) : Z := x mod 65536.

(** ** vm.h *)

Definition VM_MEMORY_SIZE : Z := 65536.
Definition VM_STACK_TOP : Z := 0xFFFF.
Definition VM_DISPLAY_WIDTH : Z := 320.
Definition VM_DISPLAY_HEIGHT : Z := 240.

Definition OP_NOP : Z := 0x00.
Definition OP_HALT : Z := 0x01.
Definition OP_PUSH : Z := 0x02.
Definition OP_POP : Z := 0x03.
Definition OP_DUP : Z := 0x04.
Definition OP_SWAP : Z := 0x05.
Definition OP_ADD : Z := 0x06.
Definition OP_SUB : Z := 0x07.
Definition OP_MUL : Z := 0x08.
Definition OP_DIV : Z := 0x09.
Definition OP_MOD : Z := 0x0A.
Definition OP_NEG : Z := 0x0B.
Definition OP_AND : Z := 0x0C.
Definition OP_OR : Z := 0x0D.
Definition OP_XOR : Z := 0x0E.
Definition OP_NOT : Z := 0x0F.
Definition OP_SHL : Z := 0x10.
Definition OP_SHR : Z := 0x11.
Definition OP_EQ : Z := 0x12.
Definition OP_NEQ : Z := 0x13.
Definition OP_GT : Z := 0x14.
Definition OP_LT : Z := 0x15.
Definition OP_GTE : Z := 0x16.
Definition OP_LTE : Z := 0x17.
Definition OP_LOAD : Z := 0x18.
Definition OP_STORE : Z := 0x19.
Definition OP_LOAD_IND : Z := 0x1A.
Definition OP_STORE_IND : Z := 0x1B.
Definition OP_JMP : Z := 0x1C.
Definition OP_JZ : Z := 0x1D.
Definition OP_JNZ : Z := 0x1E.
Definition OP_CALL : Z := 0x1F.
Definition OP_RET : Z := 0x20.
Definition OP_IO : Z := 0x21.

Inductive vm_error_t : Type :=
  | VM_OK
  | VM_ERROR_STACK_OVERFLOW
  | VM_ERROR_STACK_UNDERFLOW
  | VM_ERROR_INVALID_OPCODE
  | VM_ERROR_DIVISION_BY_ZERO
  | VM_ERROR_INVALID_ADDRESS
  | VM_ERROR_HALT
  | VM_ERROR_PLATFORM_IO.

Definition vm_error_eqb (e1 e2 : vm_error_t) : bool :=
  match e1, e2 with
  | VM_OK, VM_OK
  | VM_ERROR_STACK_OVERFLOW, VM_ERROR_STACK_OVERFLOW
  | VM_ERROR_STACK_UNDERFLOW, VM_ERROR_STACK_UNDERFLOW
  | VM_ERROR_INVALID_OPCODE, VM_ERROR_INVALID_OPCODE
  | VM_ERROR_DIVISION_BY_ZERO, VM_ERROR_DIVISION_BY_ZERO
  | VM_ERROR_INVALID_ADDRESS, VM_ERROR_INVALID_ADDRESS
  | VM_ERROR_HALT, VM_ERROR_HALT
  | VM_ERROR_PLATFORM_IO, VM_ERROR_PLATFORM_IO => true
  | _, _ => false
  end.

Record vm_t : Type := mk_vm {
  memory : gmap Z Z;
  pc : Z;
  sp : Z;
  bp : Z;
  running : bool;
  error : vm_error_t
}.

(** [vm->memory[a]] as an rvalue; the cell is a [uint8_t]. *)
Definition mem_read (m : gmap Z Z) (a : Z) : Z := u8 (default 0 (m !! a)).

Definition set_memory (vm : vm_t) (m : gmap Z Z) : vm_t :=
  mk_vm m (pc vm) (sp vm) (bp vm) (running vm) (error vm).
Definition set_pc (vm : vm_t) (p : Z) : vm_t :=
  mk_vm (memory vm) p (sp vm) (bp vm) (running vm) (error vm).
Definition set_sp (vm : vm_t) (s : Z) : vm_t :=
  mk_vm (memory vm) (pc vm) s (bp vm) (running vm) (error vm).
Definition set_running (vm : vm_t) (r : bool) : vm_t :=
  mk_vm (memory vm) (pc vm) (sp vm) (bp vm) r (error vm).
Definition set_error (vm : vm_t) (e : vm_error_t) : vm_t :=
  mk_vm (memory vm) (pc vm) (sp vm) (bp vm) (running vm) e.

(** ** vm.c: stack and memory helpers *)

(** [vm->memory[vm->sp--] = value]: the byte goes to the cell [sp] names,
    then [sp] moves down. *)
Definition vm_push (vm : vm_t) (value : Z) : vm_t :=
  if sp vm =? 0 then set_error vm VM_ERROR_STACK_OVERFLOW
  else set_sp (set_memory vm (<[sp vm := u8 value]> (memory vm)))
              (u16 (sp vm - 1)).

(** [return vm->memory[++vm->sp]]: [sp] moves up, then its cell is read. *)
Definition vm_pop (vm : vm_t) : Z * vm_t :=
  if sp vm >=? VM_STACK_TOP then (0, set_error vm VM_ERROR_STACK_UNDERFLOW)
  else let s := u16 (sp vm + 1) in (mem_read (memory vm) s, set_sp vm s).

Definition vm_read16 (vm : vm_t) (addr : Z) : Z * vm_t :=
  if addr >=? VM_MEMORY_SIZE - 1
  then (0, set_error vm VM_ERROR_INVALID_ADDRESS)
  else (u16 (Z.lor (mem_read (memory vm) addr)
                   (Z.shiftl (mem_read (memory vm) (addr + 1)) 8)), vm).

Definition vm_write16 (vm : vm_t) (addr value : Z) : vm_t :=
  if addr >=? VM_MEMORY_SIZE - 1 then set_error vm VM_ERROR_INVALID_ADDRESS
  else set_memory vm
         (<[addr + 1 := Z.land (Z.shiftr value 8) 0xFF]>
            (<[addr := Z.land value 0xFF]> (memory vm))).

(** [init_vm] overwrites every field of [*vm], so the model is the record it
    leaves behind together with the status it returns. *)
Definition init_vm : vm_error_t * vm_t :=
  (VM_OK, mk_vm ∅ 0 VM_STACK_TOP VM_STACK_TOP true VM_OK).

(** The bytes [fread] stores at [vm->memory], from offset 0 on. *)
Fixpoint store_bytes (m : gmap Z Z) (a : Z) (bytes : list Z) : gmap Z Z :=
  match bytes with
  | [] => m
  | b :: rest => store_bytes (<[a := u8 b]> m) (a + 1) rest
  end.

(** The bytes [fread (.., 1, count, file)] reads: the first [count] of the
    file, or all of them when there are fewer. *)
Fixpoint fread (count : Z) (bytes : list Z) : list Z :=
  match bytes with
  | [] => []
  | b :: rest => if count <=? 0 then [] else b :: fread (count - 1) rest
  end.

(** [load_program]: [file] is [None] when [fopen] fails, otherwise the
    bytes of the file. *)
Definition load_program (vm : vm_t) (file : option (list Z))
  : vm_error_t * vm_t :=
  match file with
  | None => (VM_ERROR_INVALID_ADDRESS, vm)
  | Some bytes =>
      let got := fread VM_MEMORY_SIZE bytes in
      let vm' := set_memory vm (store_bytes (memory vm) 0 got) in
      if (Z.of_nat (length got) =? 0) then (VM_ERROR_INVALID_ADDRESS, vm')
      else (VM_OK, vm')
  end.

(** A run of pushes with nothing popped in between. *)
Definition push_all (values : list Z) (vm : vm_t) : vm_t :=
  fold_left vm_push values vm.

(** ** platform_io.h *)

Definition IO_EXIT : Z := 0x00.
Definition IO_PRINT_CHAR : Z := 0x01.
Definition IO_READ_CHAR : Z := 0x02.
Definition IO_DRAW_PIXEL : Z := 0x10.
Definition IO_DRAW_LINE : Z := 0x11.
Definition IO_FILL_RECT : Z := 0x12.
Definition IO_REFRESH : Z := 0x13.
Definition IO_POLL_KEY : Z := 0x20.
Definition IO_GET_KEY : Z := 0x21.
Definition IO_POLL_MOUSE : Z := 0x22.
Definition IO_GET_MOUSE_X : Z := 0x23.
Definition IO_GET_MOUSE_Y : Z := 0x24.
Definition IO_GET_MOUSE_B : Z := 0x25.

Inductive platform_io_error_t : Type :=
  | PLATFORM_IO_OK
  | PLATFORM_IO_ERROR_INIT_FAILED
  | PLATFORM_IO_ERROR_INVALID_OPERATION
  | PLATFORM_IO_ERROR_DEVICE_NOT_READY
  | PLATFORM_IO_ERROR_OUT_OF_BOUNDS
  | PLATFORM_IO_ERROR_UNKNOWN.

(** ** platforms/sdl2/platform_io.c *)

(** The SDL window, renderer and texture are represented by [screen], the
    pixel array last presented; [stdout] collects what [printf ("%c")]
    wrote. *)
Record platform_io_context_t : Type := mk_ctx {
  pixels : gmap Z Z;
  screen : gmap Z Z;
  last_key : Z;
  key_available : bool;
  mouse_x : Z;
  mouse_y : Z;
  mouse_buttons : Z;
  mouse_event : bool;
  waiting_for_input : bool;
  stdout : list Z
}.

Definition set_pixels (c : platform_io_context_t) (p : gmap Z Z) :=
  mk_ctx p (screen c) (last_key c) (key_available c) (mouse_x c) (mouse_y c)
         (mouse_buttons c) (mouse_event c) (waiting_for_input c) (stdout c).
Definition set_screen (c : platform_io_context_t) (p : gmap Z Z) :=
  mk_ctx (pixels c) p (last_key c) (key_available c) (mouse_x c) (mouse_y c)
         (mouse_buttons c) (mouse_event c) (waiting_for_input c) (stdout c).
Definition set_key (c : platform_io_context_t) (k : Z) (avail : bool) :=
  mk_ctx (pixels c) (screen c) k avail (mouse_x c) (mouse_y c)
         (mouse_buttons c) (mouse_event c) (waiting_for_input c) (stdout c).
Definition set_key_available (c : platform_io_context_t) (avail : bool) :=
  set_key c (last_key c) avail.
Definition set_mouse (c : platform_io_context_t) (x y b : Z) (ev : bool) :=
  mk_ctx (pixels c) (screen c) (last_key c) (key_available c) x y b ev
         (waiting_for_input c) (stdout c).
Definition set_mouse_event (c : platform_io_context_t) (ev : bool) :=
  set_mouse c (mouse_x c) (mouse_y c) (mouse_buttons c) ev.
Definition set_waiting (c : platform_io_context_t) (w : bool) :=
  mk_ctx (pixels c) (screen c) (last_key c) (key_available c) (mouse_x c)
         (mouse_y c) (mouse_buttons c) (mouse_event c) w (stdout c).
Definition put_char (c : platform_io_context_t) (ch : Z) :=
  mk_ctx (pixels c) (screen c) (last_key c) (key_available c) (mouse_x c)
         (mouse_y c) (mouse_buttons c) (mouse_event c) (waiting_for_input c)
         (stdout c ++ [ch]).

(** The context after a successful [platform_io_init]: [memset] to zero
    and a cleared pixel buffer. *)
Definition platform_io_init : platform_io_context_t :=
  mk_ctx ∅ ∅ 0 false 0 0 0 false false [].

(** [0xFF000000 | (color << 16) | (color << 8) | color] *)
Definition grey_argb (color : Z) : Z :=
  Z.lor (Z.lor (Z.lor 0xFF000000 (Z.shiftl color 16)) (Z.shiftl color 8))
        color.

Definition in_display (x y : Z) : bool :=
  (0 <=? x) && (x <? VM_DISPLAY_WIDTH) && (0 <=? y) && (y <? VM_DISPLAY_HEIGHT).

(** The [while (true)] of [draw_line]; [fuel] bounds the iterations. *)
Fixpoint draw_line_loop (fuel : nat) (px : gmap Z Z)
    (x0 y0 x1 y1 dx dy sx sy err color : Z) : gmap Z Z :=
  match fuel with
  | O => px
  | S fuel' =>
      let px1 := if in_display x0 y0
                 then <[y0 * VM_DISPLAY_WIDTH + x0 := color]> px else px in
      if (x0 =? x1) && (y0 =? y1) then px1
      else
        let e2 := 2 * err in
        let '(err1, x0') :=
          if e2 >? - dy then (err - dy, x0 + sx) else (err, x0) in
        let '(err2, y0') :=
          if e2 <? dx then (err1 + dx, y0 + sy) else (err1, y0) in
        draw_line_loop fuel' px1 x0' y0' x1 y1 dx dy sx sy err2 color
  end.

(** Whether the [while (true)] of [draw_line] reaches its [break] within
    [fuel] iterations. *)
Fixpoint draw_line_breaks (fuel : nat)
    (x0 y0 x1 y1 dx dy sx sy err : Z) : bool :=
  match fuel with
  | O => false
  | S fuel' =>
      if (x0 =? x1) && (y0 =? y1) then true
      else
        let e2 := 2 * err in
        let '(err1, x0') :=
          if e2 >? - dy then (err - dy, x0 + sx) else (err, x0) in
        let '(err2, y0') :=
          if e2 <? dx then (err1 + dx, y0 + sy) else (err1, y0) in
        draw_line_breaks fuel' x0' y0' x1 y1 dx dy sx sy err2
  end.

(** Bresenham's line; every iteration but the last moves one of the two
    coordinates towards its target, so [dx + dy + 1] iterations are enough. *)
Definition draw_line (px : gmap Z Z) (x0 y0 x1 y1 color : Z) : gmap Z Z :=
  let dx := Z.abs (x1 - x0) in
  let dy := Z.abs (y1 - y0) in
  let sx := if x0 <? x1 then 1 else -1 in
  let sy := if y0 <? y1 then 1 else -1 in
  draw_line_loop (Z.to_nat (dx + dy + 1)) px x0 y0 x1 y1 dx dy sx sy
                 (dx - dy) color.

(** The two nested [for] loops of [IO_FILL_RECT]. *)
Definition fill_rect (px : gmap Z Z) (x y w h color : Z) : gmap Z Z :=
  fold_left
    (fun acc py =>
       fold_left
         (fun acc' pxl =>
            if (pxl >=? 0) && (py >=? 0)
            then <[py * VM_DISPLAY_WIDTH + pxl := color]> acc' else acc')
         (seqZ x (Z.min (x + w) VM_DISPLAY_WIDTH - x)) acc)
    (seqZ y (Z.min (y + h) VM_DISPLAY_HEIGHT - y)) px.

Definition b2z (b : bool) : Z := if b then 1 else 0.

Definition handle_platform_io (vm : vm_t) (ctx : platform_io_context_t)
    (io_id : Z) : platform_io_error_t * vm_t * platform_io_context_t :=
  if io_id =? IO_EXIT then
    (PLATFORM_IO_OK, set_running vm false, ctx)
  else if io_id =? IO_PRINT_CHAR then
    let '(ch, vm1) := vm_pop vm in
    (PLATFORM_IO_OK, vm1, put_char ctx ch)
  else if io_id =? IO_READ_CHAR then
    if negb (waiting_for_input ctx) then
      (PLATFORM_IO_OK, set_pc vm (u16 (pc vm - 1)), set_waiting ctx true)
    else if key_available ctx then
      (PLATFORM_IO_OK, vm_push vm (last_key ctx),
       set_key_available (set_waiting ctx false) false)
    else (PLATFORM_IO_OK, vm, ctx)
  else if io_id =? IO_DRAW_PIXEL then
    let '(color, vm1) := vm_pop vm in
    let '(y, vm2) := vm_pop vm1 in
    let '(x, vm3) := vm_pop vm2 in
    (PLATFORM_IO_OK, vm3,
     if (x <? VM_DISPLAY_WIDTH) && (y <? VM_DISPLAY_HEIGHT)
     then set_pixels ctx
            (<[y * VM_DISPLAY_WIDTH + x := grey_argb color]> (pixels ctx))
     else ctx)
  else if io_id =? IO_DRAW_LINE then
    let '(color, vm1) := vm_pop vm in
    let '(y2, vm2) := vm_pop vm1 in
    let '(x2, vm3) := vm_pop vm2 in
    let '(y1, vm4) := vm_pop vm3 in
    let '(x1, vm5) := vm_pop vm4 in
    (PLATFORM_IO_OK, vm5,
     set_pixels ctx (draw_line (pixels ctx) x1 y1 x2 y2 (grey_argb color)))
  else if io_id =? IO_FILL_RECT then
    let '(color, vm1) := vm_pop vm in
    let '(h, vm2) := vm_pop vm1 in
    let '(w, vm3) := vm_pop vm2 in
    let '(y, vm4) := vm_pop vm3 in
    let '(x, vm5) := vm_pop vm4 in
    (PLATFORM_IO_OK, vm5,
     set_pixels ctx (fill_rect (pixels ctx) x y w h (grey_argb color)))
  else if io_id =? IO_REFRESH then
    (PLATFORM_IO_OK, vm, set_screen ctx (pixels ctx))
  else if io_id =? IO_POLL_KEY then
    (PLATFORM_IO_OK, vm_push vm (b2z (key_available ctx)), ctx)
  else if io_id =? IO_GET_KEY then
    (PLATFORM_IO_OK, vm_push vm (last_key ctx), set_key_available ctx false)
  else if io_id =? IO_POLL_MOUSE then
    (PLATFORM_IO_OK, vm_push vm (b2z (mouse_event ctx)), ctx)
  else if io_id =? IO_GET_MOUSE_X then
    (PLATFORM_IO_OK,
     vm_push (vm_push vm (Z.land (mouse_x ctx) 0xFF))
             (Z.land (Z.shiftr (mouse_x ctx) 8) 0xFF), ctx)
  else if io_id =? IO_GET_MOUSE_Y then
    (PLATFORM_IO_OK,
     vm_push (vm_push vm (Z.land (mouse_y ctx) 0xFF))
             (Z.land (Z.shiftr (mouse_y ctx) 8) 0xFF), ctx)
  else if io_id =? IO_GET_MOUSE_B then
    (PLATFORM_IO_OK, vm_push vm (mouse_buttons ctx), set_mouse_event ctx false)
  else (PLATFORM_IO_ERROR_INVALID_OPERATION, vm, ctx).

(** What [SDL_PollEvent] can hand to [platform_io_process_events]: window
    close, a key press with its key symbol, a mouse event with the pointer
    position and the button state [SDL_GetMouseState] reports, or an event
    the [switch] ignores. *)
Inductive sdl_event : Type :=
  | SDL_QUIT
  | SDL_KEYDOWN (sym : Z)
  | SDL_MOUSE (x y state : Z)
  | SDL_OTHER.

(** The events pending at one call, in queue order. *)
Fixpoint platform_io_process_events (pending : list sdl_event)
    (ctx : platform_io_context_t) : bool * platform_io_context_t :=
  match pending with
  | [] => (true, ctx)
  | SDL_QUIT :: _ => (false, ctx)
  | SDL_KEYDOWN sym :: rest =>
      platform_io_process_events rest (set_key ctx (Z.land sym 0xFF) true)
  | SDL_MOUSE x y state :: rest =>
      platform_io_process_events rest
        (set_mouse ctx (Z.quot x 2) (Z.quot y 2) (u8 state) true)
  | SDL_OTHER :: rest => platform_io_process_events rest ctx
  end.

Definition platform_io_is_waiting_for_input (ctx : platform_io_context_t)
  : bool :=
  waiting_for_input ctx && negb (key_available ctx).

(** ** vm.c: the execution loop *)

(** [a << b] and [a >> b] are evaluated on [int] after integer promotion.
    C defines them only for counts below the width of [int] (32 on every
    platform the SDL2 build targets); for larger counts the result is
    whatever the compiled shift does.  [host_t] records that behaviour of
    the platform; the engine depends on it for counts of 32 and more only.
    For a count below 32 the value kept is the low byte of the
    mathematical shift, which is what the conversion to [uint8_t] in
    [vm_push] leaves of the [int] result. *)
Record host_t : Type := mk_host {
  shl_wide : Z -> Z -> Z;
  shr_wide : Z -> Z -> Z
}.

(** The x86 family masks a 32-bit shift count to its low five bits. *)
Definition x86_host : host_t :=
  mk_host (fun a b => Z.shiftl a (Z.land b 31))
          (fun a b => Z.shiftr a (Z.land b 31)).

Definition c_shl (hw : host_t) (a b : Z) : Z :=
  if b <? 32 then Z.shiftl a b else shl_wide hw a b.
Definition c_shr (hw : host_t) (a b : Z) : Z :=
  if b <? 32 then Z.shiftr a b else shr_wide hw a b.

(** The pattern shared by the binary instructions:
    [b = vm_pop (vm); a = vm_pop (vm); vm_push (vm, f a b)]. *)
Definition exec_binop (f : Z -> Z -> Z) (vm : vm_t) : vm_t :=
  let '(b, vm1) := vm_pop vm in
  let '(a, vm2) := vm_pop vm1 in
  vm_push vm2 (f a b).

(** [DIV] and [MOD]: the same pattern with the zero test before the push. *)
Definition exec_divop (f : Z -> Z -> Z) (vm : vm_t) : vm_t :=
  let '(b, vm1) := vm_pop vm in
  let '(a, vm2) := vm_pop vm1 in
  if b =? 0 then set_error vm2 VM_ERROR_DIVISION_BY_ZERO
  else vm_push vm2 (f a b).

Definition exec_unop (f : Z -> Z) (vm : vm_t) : vm_t :=
  let '(a, vm1) := vm_pop vm in
  vm_push vm1 (f a).

(** [uint16_t addr = vm_pop (vm) | (vm_pop (vm) << 8)]: the left operand is
    evaluated first, as clang does. *)
Definition pop_addr (vm : vm_t) : Z * vm_t :=
  let '(lo, vm1) := vm_pop vm in
  let '(hi, vm2) := vm_pop vm1 in
  (u16 (Z.lor lo (Z.shiftl hi 8)), vm2).

(** The machine after the fetch [opcode = vm->memory[vm->pc++]]. *)
Definition after_fetch (vm : vm_t) : vm_t := set_pc vm (u16 (pc vm + 1)).

(** The [switch (opcode)] of [run_vm]; [vm] is the machine after the
    fetch. *)
Definition dispatch (hw : host_t) (opcode : Z) (vm : vm_t)
    (ctx : platform_io_context_t) : vm_t * platform_io_context_t :=
  if opcode =? OP_NOP then (vm, ctx)
  else if opcode =? OP_HALT then
    (set_error (set_running vm false) VM_ERROR_HALT, ctx)
  else if opcode =? OP_PUSH then
    let value := mem_read (memory vm) (pc vm) in
    (vm_push (set_pc vm (u16 (pc vm + 1))) value, ctx)
  else if opcode =? OP_POP then (snd (vm_pop vm), ctx)
  else if opcode =? OP_DUP then
    let '(value, vm1) := vm_pop vm in
    (vm_push (vm_push vm1 value) value, ctx)
  else if opcode =? OP_SWAP then
    let '(a, vm1) := vm_pop vm in
    let '(b, vm2) := vm_pop vm1 in
    (vm_push (vm_push vm2 a) b, ctx)
  else if opcode =? OP_ADD then (exec_binop (fun a b => a + b) vm, ctx)
  else if opcode =? OP_SUB then (exec_binop (fun a b => a - b) vm, ctx)
  else if opcode =? OP_MUL then (exec_binop (fun a b => a * b) vm, ctx)
  else if opcode =? OP_DIV then (exec_divop Z.quot vm, ctx)
  else if opcode =? OP_MOD then (exec_divop Z.rem vm, ctx)
  else if opcode =? OP_NEG then (exec_unop (fun a => - a) vm, ctx)
  else if opcode =? OP_AND then (exec_binop Z.land vm, ctx)
  else if opcode =? OP_OR then (exec_binop Z.lor vm, ctx)
  else if opcode =? OP_XOR then (exec_binop Z.lxor vm, ctx)
  else if opcode =? OP_NOT then (exec_unop Z.lnot vm, ctx)
  else if opcode =? OP_SHL then (exec_binop (c_shl hw) vm, ctx)
  else if opcode =? OP_SHR then (exec_binop (c_shr hw) vm, ctx)
  else if opcode =? OP_EQ then
    (exec_binop (fun a b => b2z (a =? b)) vm, ctx)
  else if opcode =? OP_NEQ then
    (exec_binop (fun a b => b2z (negb (a =? b))) vm, ctx)
  else if opcode =? OP_GT then
    (exec_binop (fun a b => b2z (a >? b)) vm, ctx)
  else if opcode =? OP_LT then
    (exec_binop (fun a b => b2z (a <? b)) vm, ctx)
  else if opcode =? OP_GTE then
    (exec_binop (fun a b => b2z (a >=? b)) vm, ctx)
  else if opcode =? OP_LTE then
    (exec_binop (fun a b => b2z (a <=? b)) vm, ctx)
  else if opcode =? OP_LOAD then
    let '(addr, vm1) := vm_read16 vm (pc vm) in
    let vm2 := set_pc vm1 (u16 (pc vm1 + 2)) in
    if addr <? VM_MEMORY_SIZE
    then (vm_push vm2 (mem_read (memory vm2) addr), ctx)
    else (set_error vm2 VM_ERROR_INVALID_ADDRESS, ctx)
  else if opcode =? OP_STORE then
    let '(addr, vm1) := vm_read16 vm (pc vm) in
    let vm2 := set_pc vm1 (u16 (pc vm1 + 2)) in
    let '(value, vm3) := vm_pop vm2 in
    if addr <? VM_MEMORY_SIZE
    then (set_memory vm3 (<[addr := value]> (memory vm3)), ctx)
    else (set_error vm3 VM_ERROR_INVALID_ADDRESS, ctx)
  else if opcode =? OP_LOAD_IND then
    let '(addr, vm1) := pop_addr vm in
    if addr <? VM_MEMORY_SIZE
    then (vm_push vm1 (mem_read (memory vm1) addr), ctx)
    else (set_error vm1 VM_ERROR_INVALID_ADDRESS, ctx)
  else if opcode =? OP_STORE_IND then
    let '(addr, vm1) := pop_addr vm in
    let '(value, vm2) := vm_pop vm1 in
    if addr <? VM_MEMORY_SIZE
    then (set_memory vm2 (<[addr := value]> (memory vm2)), ctx)
    else (set_error vm2 VM_ERROR_INVALID_ADDRESS, ctx)
  else if opcode =? OP_JMP then
    let '(addr, vm1) := vm_read16 vm (pc vm) in
    (set_pc vm1 addr, ctx)
  else if opcode =? OP_JZ then
    let '(addr, vm1) := vm_read16 vm (pc vm) in
    let vm2 := set_pc vm1 (u16 (pc vm1 + 2)) in
    let '(value, vm3) := vm_pop vm2 in
    (if value =? 0 then set_pc vm3 addr else vm3, ctx)
  else if opcode =? OP_JNZ then
    let '(addr, vm1) := vm_read16 vm (pc vm) in
    let vm2 := set_pc vm1 (u16 (pc vm1 + 2)) in
    let '(value, vm3) := vm_pop vm2 in
    (if negb (value =? 0) then set_pc vm3 addr else vm3, ctx)
  else if opcode =? OP_CALL then
    let '(addr, vm1) := vm_read16 vm (pc vm) in
    let vm2 := set_pc vm1 (u16 (pc vm1 + 2)) in
    let vm3 := vm_push vm2 (Z.land (pc vm2) 0xFF) in
    let vm4 := vm_push vm3 (Z.land (Z.shiftr (pc vm3) 8) 0xFF) in
    (set_pc vm4 addr, ctx)
  else if opcode =? OP_RET then
    let '(hi, vm1) := vm_pop vm in
    let addr := u16 (Z.shiftl hi 8) in
    let '(lo, vm2) := vm_pop vm1 in
    (set_pc vm2 (u16 (Z.lor addr lo)), ctx)
  else if opcode =? OP_IO then
    let io_id := mem_read (memory vm) (pc vm) in
    let vm1 := set_pc vm (u16 (pc vm + 1)) in
    let '(io_error, vm2, ctx') := handle_platform_io vm1 ctx io_id in
    match io_error with
    | PLATFORM_IO_OK => (vm2, ctx')
    | _ => (set_error vm2 (if io_id =? IO_EXIT then VM_ERROR_HALT
                           else VM_ERROR_PLATFORM_IO), ctx')
    end
  else (set_error vm VM_ERROR_INVALID_OPCODE, ctx).

(** One pass through the body of the [while] loop of [run_vm], from the
    program-counter check to the end of the [switch]. *)
Definition exec_instr (hw : host_t) (vm : vm_t) (ctx : platform_io_context_t)
  : vm_t * platform_io_context_t :=
  if pc vm >=? VM_MEMORY_SIZE then (set_error vm VM_ERROR_INVALID_ADDRESS, ctx)
  else dispatch hw (mem_read (memory vm) (pc vm)) (after_fetch vm) ctx.

(** The test that ends an iteration:
    [vm->error != VM_OK && vm->error != VM_ERROR_HALT]. *)
Definition is_fault (e : vm_error_t) : bool :=
  negb (vm_error_eqb e VM_OK) && negb (vm_error_eqb e VM_ERROR_HALT).

(** [run_vm].  [events] holds, for each iteration of the loop, the events
    the host has pending when [platform_io_process_events] is called.  The
    result is [None] when the loop is still going after the last of them. *)
Fixpoint run_vm (hw : host_t) (events : list (list sdl_event)) (vm : vm_t)
    (ctx : platform_io_context_t)
  : option (vm_error_t * vm_t * platform_io_context_t) :=
  if running vm && vm_error_eqb (error vm) VM_OK then
    match events with
    | [] => None
    | pending :: later =>
        let '(go_on, ctx1) := platform_io_process_events pending ctx in
        if negb go_on then
          let vm1 := set_running vm false in Some (error vm1, vm1, ctx1)
        else if platform_io_is_waiting_for_input ctx1 then
          run_vm hw later vm ctx1
        else
          let '(vm1, ctx2) := exec_instr hw vm ctx1 in
          if is_fault (error vm1) then Some (error vm1, vm1, ctx2)
          else run_vm hw later vm1 ctx2
    end
  else Some (error vm, vm, ctx).

(** [main] of the engine ([kxn]): [argc], whether [platform_io_init]
    returned a context, the program file ([None] when it cannot be opened)
    and the host events.  The result is the exit status of the process. *)
Module Kxn.
Definition main (hw : host_t) (argc : Z) (platform_ok : bool)
    (file : option (list Z)) (events : list (list sdl_event)) : option Z :=
  if negb (argc =? 2) then Some 1
  else
    let '(err, vm) := init_vm in
    if negb (vm_error_eqb err VM_OK) then Some 1
    else if negb platform_ok then Some 1
    else
      let '(err1, vm1) := load_program vm file in
      if negb (vm_error_eqb err1 VM_OK) then Some 1
      else
        match run_vm hw events vm1 platform_io_init with
        | None => None
        | Some _ => Some 0
        end.
End Kxn.

(** ** The assembler [kxasm] *)

Definition MAX_LABELS : Z := 100.
Definition MAX_LINE_LEN : nat := 1024.

Definition code (c : ascii) : Z := Z.of_N (N_of_ascii c).

(** [<ctype.h>] in the C locale. *)
Definition isspace (c : ascii) : bool :=
  (code c =? 32) || ((9 <=? code c) && (code c <=? 13)).
Definition isalpha (c : ascii) : bool :=
  ((65 <=? code c) && (code c <=? 90)) || ((97 <=? code c) && (code c <=? 122)).
Definition toupper (c : ascii) : ascii :=
  if (97 <=? code c) && (code c <=? 122)
  then ascii_of_N (Z.to_N (code c - 32)) else c.

(** What was printed, one entry per [printf]. *)
Inductive message : Type :=
  | Usage
  | Cannot_open_file
  | Unknown_instruction (token : string) (line_num : Z)
  | Undefined_label (name : string)
  | Cannot_create_output_file
  | Assembly_complete (bytes_written : Z).

(** The file-scope variables of the assembler.  [labels] and [label_refs]
    list the used entries of the two arrays in index order ([label_count]
    and [label_ref_count] are their lengths).  [overrun] records that a
    store went past the end of a C array (a name of 64 characters or more
    copied into a [name[64]] field, or a patch at position [0xFFFF]); the
    source does not determine what the program does after that, and the
    other fields of a state with [overrun] set say nothing about it. *)
Record asm_t : Type := mk_asm {
  labels : list (string * Z);
  label_refs : list (string * Z);
  output : gmap Z Z;
  output_pos : Z;
  printed : list message;
  overrun : bool
}.

Definition asm_init : asm_t := mk_asm [] [] ∅ 0 [] false.

Definition name_overruns (name : string) : bool :=
  64 <=? Z.of_nat (String.length name).

Definition emit_byte (st : asm_t) (byte : Z) : asm_t :=
  if output_pos st <? VM_MEMORY_SIZE then
    mk_asm (labels st) (label_refs st)
           (<[output_pos st := u8 byte]> (output st))
           (u16 (output_pos st + 1)) (printed st) (overrun st)
  else st.

Definition emit_word (st : asm_t) (word : Z) : asm_t :=
  emit_byte (emit_byte st (Z.land (u16 word) 0xFF))
            (Z.land (Z.shiftr (u16 word) 8) 0xFF).

(** [find_label]: the entry with the lowest index wins; [None] is -1. *)
Fixpoint find_label (tbl : list (string * Z)) (name : string) : option Z :=
  match tbl with
  | [] => None
  | (n, address) :: rest =>
      if String.eqb n name then Some address else find_label rest name
  end.

Definition add_label (st : asm_t) (name : string) (address : Z) : asm_t :=
  if Z.of_nat (length (labels st)) <? MAX_LABELS then
    mk_asm (labels st ++ [(name, address)]) (label_refs st) (output st)
           (output_pos st) (printed st) (overrun st || name_overruns name)
  else st.

Definition add_label_ref (st : asm_t) (name : string) (patch_location : Z)
  : asm_t :=
  if Z.of_nat (length (label_refs st)) <? MAX_LABELS then
    mk_asm (labels st) (label_refs st ++ [(name, patch_location)])
           (output st) (output_pos st) (printed st)
           (overrun st || name_overruns name)
  else st.

Definition say (st : asm_t) (m : message) : asm_t :=
  mk_asm (labels st) (label_refs st) (output st) (output_pos st)
         (printed st ++ [m]) (overrun st).

(** One iteration of the loop of [patch_labels]. *)
Definition patch_label (st : asm_t) (ref : string * Z) : asm_t :=
  match find_label (labels st) (fst ref) with
  | Some addr =>
      let patch_pos := snd ref in
      mk_asm (labels st) (label_refs st)
             (<[patch_pos + 1 := Z.land (Z.shiftr addr 8) 0xFF]>
                (<[patch_pos := Z.land addr 0xFF]> (output st)))
             (output_pos st) (printed st)
             (overrun st || (VM_MEMORY_SIZE <=? patch_pos + 1))
  | None => say st (Undefined_label (fst ref))
  end.

Definition patch_labels (st : asm_t) : asm_t :=
  fold_left patch_label (label_refs st) st.

(** [strtol]: white space, an optional sign, for base 16 an optional
    [0x] prefix, then the digits of the base; the value saturates at the
    bounds of a 64-bit [long]. *)
Definition digit_of (base : Z) (c : ascii) : option Z :=
  let d := if (48 <=? code c) && (code c <=? 57) then code c - 48
           else if (97 <=? code c) && (code c <=? 122) then code c - 87
           else if (65 <=? code c) && (code c <=? 90) then code c - 55
           else 36 in
  if d <? base then Some d else None.

Fixpoint digits (base acc : Z) (s : string) : Z :=
  match s with
  | EmptyString => acc
  | String c rest =>
      match digit_of base c with
      | Some d => digits base (acc * base + d) rest
      | None => acc
      end
  end.

Fixpoint skip_space (s : string) : string :=
  match s with
  | String c rest => if isspace c then skip_space rest else s
  | EmptyString => s
  end.

Definition skip_hex_prefix (s : string) : string :=
  match s with
  | String c0 (String c1 (String c2 rest)) =>
      if (code c0 =? 48) && ((code c1 =? 120) || (code c1 =? 88))
         && bool_decide (is_Some (digit_of 16 c2))
      then String c2 rest else s
  | _ => s
  end.

Definition strtol (s : string) (base : Z) : Z :=
  let s1 := skip_space s in
  let '(negative, s2) :=
    match s1 with
    | String c rest =>
        if code c =? 45 then (true, rest)
        else if code c =? 43 then (false, rest) else (false, s1)
    | EmptyString => (false, s1)
    end in
  let s3 := if base =? 16 then skip_hex_prefix s2 else s2 in
  let magnitude := digits base 0 s3 in
  if negative then Z.max (- magnitude) (- 2 ^ 63)
  else Z.min magnitude (2 ^ 63 - 1).

(** [(int) strtol (..)]: the low 32 bits, read as a signed number. *)
Definition to_int (x : Z) : Z := (x + 2 ^ 31) mod 2 ^ 32 - 2 ^ 31.

Definition parse_number (str : string) : Z :=
  match str with
  | String c0 (String c1 _) =>
      if (code c0 =? 48) && (code c1 =? 120) then to_int (strtol str 16)
      else to_int (strtol str 10)
  | _ => to_int (strtol str 10)
  end.

(** [trim_whitespace]: [start] skips the leading white space; [end] walks
    back over the trailing white space and stops at [start], whose
    character is not white space unless the string is empty. *)
Fixpoint drop_trailing_space (s : string) : string :=
  match s with
  | EmptyString => EmptyString
  | String c rest =>
      match drop_trailing_space rest with
      | EmptyString => if isspace c then EmptyString else String c EmptyString
      | kept => String c kept
      end
  end.

Definition trim_whitespace (s : string) : string :=
  drop_trailing_space (skip_space s).

(** [strchr (line, ':')]: the text before the first colon and the text
    after it. *)
Fixpoint split_colon (s : string) : option (string * string) :=
  match s with
  | EmptyString => None
  | String c rest =>
      if code c =? 58 then Some (EmptyString, rest)
      else match split_colon rest with
           | Some (before, after) => Some (String c before, after)
           | None => None
           end
  end.

(** [strtok] with the delimiters space and tab: the next token and the
    text after the delimiter that ended it. *)
Definition is_delim (c : ascii) : bool := (code c =? 32) || (code c =? 9).

Fixpoint skip_delims (s : string) : string :=
  match s with
  | String c rest => if is_delim c then skip_delims rest else s
  | EmptyString => s
  end.

Fixpoint take_token (s : string) : string * string :=
  match s with
  | EmptyString => (EmptyString, EmptyString)
  | String c rest =>
      if is_delim c then (EmptyString, rest)
      else let '(tok, after) := take_token rest in (String c tok, after)
  end.

Definition strtok (s : string) : option (string * string) :=
  match skip_delims s with
  | EmptyString => None
  | s' => Some (take_token s')
  end.

Fixpoint upcase (s : string) : string :=
  match s with
  | EmptyString => EmptyString
  | String c rest => String (toupper c) (upcase rest)
  end.

(** The bytes the successive calls of [fgets (line, sizeof (line), file)]
    store in [line]: each call takes characters up to and including a
    newline, at most [MAX_LINE_LEN - 1] of them, a NUL byte of the file
    like any other.  [cur] holds the characters already taken for the
    current call, last one first, and [room] how many more fit. *)
Fixpoint fgets_all (room : nat) (cur : list ascii) (s : string)
  : list string :=
  match s with
  | EmptyString =>
      match cur with
      | [] => []
      | _ => [string_of_list_ascii (rev cur)]
      end
  | String c rest =>
      let cur' := c :: cur in
      if (code c =? 10) || Nat.eqb room 1
      then string_of_list_ascii (rev cur')
             :: fgets_all (MAX_LINE_LEN - 1) [] rest
      else fgets_all (room - 1) cur' rest
  end.

(** A buffer read as a C string: it ends at the first NUL byte. *)
Fixpoint c_str (s : string) : string :=
  match s with
  | EmptyString => EmptyString
  | String c rest => if code c =? 0 then EmptyString else String c (c_str rest)
  end.

(** What the body of the [while (fgets (..))] loop finds in [line], call
    after call: [trim_whitespace], [strchr] and [strtok] read the buffer as
    a C string, so what [fgets] stored after a NUL byte is not seen. *)
Definition source_lines (text : string) : list string :=
  map c_str (fgets_all (MAX_LINE_LEN - 1) [] text).

(** [strcpy (line, instruction)] copies within one buffer: [instruction]
    starts [gap] bytes into [line], after the label and its colon.  C
    defines the copy only when the two ranges are apart, that is when the
    instruction and its terminator fit in the gap.  Otherwise [line] holds
    whatever the [strcpy] of the C library leaves there; [libc_t] records
    that behaviour of the library, and the result is again read as a C
    string. *)
Record libc_t : Type := mk_libc {
  strcpy_overlapping : nat -> string -> string
}.

Definition strcpy_within (lc : libc_t) (gap : nat) (src : string) : string :=
  if (String.length src + 1 <=? gap)%nat then src
  else c_str (strcpy_overlapping lc gap src).

(** A library whose [strcpy] copies byte by byte from the front: the
    source lies ahead of the destination, so every byte is read before
    it is overwritten. *)
Definition bytewise_libc : libc_t := mk_libc (fun _ src => src).

(** The operand of [PUSH] and [SYS]. *)
Definition emit_imm8 (st : asm_t) (opcode : Z) (after : string) : asm_t :=
  let st1 := emit_byte st opcode in
  match strtok after with
  | Some (token, _) => emit_byte st1 (parse_number token)
  | None => st1
  end.

(** The operand of [LOAD], [STORE], [JMP], [JZ], [JNZ] and [CALL]. *)
Definition emit_addr16 (st : asm_t) (opcode : Z) (after : string) : asm_t :=
  let st1 := emit_byte st opcode in
  match strtok after with
  | Some (token, _) =>
      match token with
      | String c _ =>
          if isalpha c
          then emit_word (add_label_ref st1 token (output_pos st1)) 0
          else emit_word st1 (parse_number token)
      | EmptyString => emit_word st1 (parse_number token)
      end
  | None => st1
  end.

Definition plain_mnemonics : list (string * Z) :=
  [ ("NOP", OP_NOP); ("HALT", OP_HALT); ("POP", OP_POP); ("DUP", OP_DUP);
    ("SWAP", OP_SWAP); ("ADD", OP_ADD); ("SUB", OP_SUB); ("MUL", OP_MUL);
    ("DIV", OP_DIV); ("MOD", OP_MOD); ("NEG", OP_NEG); ("AND", OP_AND);
    ("OR", OP_OR); ("XOR", OP_XOR); ("NOT", OP_NOT); ("SHL", OP_SHL);
    ("SHR", OP_SHR); ("EQ", OP_EQ); ("NEQ", OP_NEQ); ("GT", OP_GT);
    ("LT", OP_LT); ("GTE", OP_GTE); ("LTE", OP_LTE);
    ("LOAD_IND", OP_LOAD_IND); ("STORE_IND", OP_STORE_IND);
    ("RET", OP_RET) ]%string.

Definition imm8_mnemonics : list (string * Z) :=
  [ ("PUSH", OP_PUSH); ("SYS", OP_IO) ]%string.

Definition addr16_mnemonics : list (string * Z) :=
  [ ("LOAD", OP_LOAD); ("STORE", OP_STORE); ("JMP", OP_JMP); ("JZ", OP_JZ);
    ("JNZ", OP_JNZ); ("CALL", OP_CALL) ]%string.

Fixpoint opcode_of (tbl : list (string * Z)) (token : string) : option Z :=
  match tbl with
  | [] => None
  | (mnemonic, opcode) :: rest =>
      if String.eqb token mnemonic then Some opcode else opcode_of rest token
  end.

(** The [if] / [else if] chain of [strcmp] tests over the mnemonics; the
    three tables share no name, so the order of the tests does not matter. *)
Definition assemble_instruction (st : asm_t) (line : string) (line_num : Z)
  : asm_t :=
  match strtok line with
  | None => st
  | Some (token, after) =>
      let token := upcase token in
      match opcode_of plain_mnemonics token with
      | Some opcode => emit_byte st opcode
      | None =>
          match opcode_of imm8_mnemonics token with
          | Some opcode => emit_imm8 st opcode after
          | None =>
              match opcode_of addr16_mnemonics token with
              | Some opcode => emit_addr16 st opcode after
              | None => say st (Unknown_instruction token line_num)
              end
          end
      end
  end.

Definition starts_comment_or_empty (s : string) : bool :=
  match s with
  | EmptyString => true
  | String c _ => code c =? 59
  end.

(** The body of the [while (fgets (..))] loop for one line; [raw] is
    [line] as [fgets] left it, read as a C string.  The colon is at
    offset [strlen (before)] of the trimmed line, so the instruction
    starts one byte further. *)
Definition assemble_line (lc : libc_t) (st : asm_t) (raw : string)
    (line_num : Z) : asm_t :=
  let line := trim_whitespace raw in
  if starts_comment_or_empty line then st
  else
    match split_colon line with
    | Some (before, after) =>
        let st1 := add_label st (trim_whitespace before) (output_pos st) in
        let instruction := trim_whitespace after in
        if starts_comment_or_empty instruction then st1
        else
          assemble_instruction st1
            (strcpy_within lc (String.length before + 1) instruction)
            line_num
    | None => assemble_instruction st line line_num
    end.

Fixpoint assemble_lines (lc : libc_t) (st : asm_t) (lines : list string)
    (line_num : Z) : asm_t :=
  match lines with
  | [] => st
  | raw :: rest =>
      assemble_lines lc (assemble_line lc st raw (line_num + 1)) rest
                     (line_num + 1)
  end.

(** [assemble_file]: [source] is [None] when the input cannot be opened. *)
Definition assemble_file (lc : libc_t) (source : option string)
  : Z * asm_t :=
  match source with
  | None => (1, say asm_init Cannot_open_file)
  | Some text =>
      (0, patch_labels (assemble_lines lc asm_init (source_lines text) 0))
  end.

(** The bytes [fwrite (output, 1, output_pos, output_file)] writes. *)
Definition output_image (st : asm_t) : list Z :=
  map (mem_read (output st)) (seqZ 0 (output_pos st)).

(** [main] of the assembler ([kxasm]): the C library, [argc], the source
    file and whether the output file can be created.  The result is the
    exit status, the bytes written to the output file if any, and the
    final state. *)
Module Kxasm.
Definition main (lc : libc_t) (argc : Z) (source : option string)
    (can_create : bool) : Z * option (list Z) * asm_t :=
  if negb (argc =? 3) then (1, None, say asm_init Usage)
  else
    let '(status, st) := assemble_file lc source in
    if negb (status =? 0) then (1, None, st)
    else if negb can_create then (1, None, say st Cannot_create_output_file)
    else (0, Some (output_image st),
          say st (Assembly_complete (output_pos st))).
End Kxasm.

(** ** Vocabulary of the statements *)

(** [n] instructions in a row: iterations of the loop of [run_vm] in which
    the host neither shuts down nor waits for input. *)
Fixpoint exec_n (hw : host_t) (n : nat) (vm : vm_t)
    (ctx : platform_io_context_t) : vm_t * platform_io_context_t :=
  match n with
  | O => (vm, ctx)
  | S n' => let '(vm1, ctx1) := exec_instr hw vm ctx in exec_n hw n' vm1 ctx1
  end.

(** The bytes [bytes] lie in memory from address [a] on. *)
Fixpoint code_at (m : gmap Z Z) (a : Z) (bytes : list Z) : Prop :=
  match bytes with
  | [] => True
  | b :: rest => mem_read m a = b /\ code_at m (a + 1) rest
  end.

(** The byte pushed last and not yet popped. *)
Definition top_of_stack (vm : vm_t) : Z := mem_read (memory vm) (sp vm + 1).

(** The number of bytes on the stack. *)
Definition depth (vm : vm_t) : Z := VM_STACK_TOP - sp vm.

(** The stack of [vm2] is the stack of [vm1]: same pointer, same bytes. *)
Definition same_stack (vm1 vm2 : vm_t) : Prop :=
  sp vm2 = sp vm1 /\
  forall a, sp vm1 < a <= VM_STACK_TOP ->
            mem_read (memory vm2) a = mem_read (memory vm1) a.

(** The machine after [init_vm] and [load_program] of the bytes [image]. *)
Definition loaded (image : list Z) : vm_t :=
  snd (load_program (snd init_vm) (Some image)).

(** The machine is about to run [prog]: the bytes lie at [pc], and they
    lie below the two stack cells the next pushes will use. *)
Definition program_ready (vm : vm_t) (prog : list Z) : Prop :=
  0 <= pc vm /\ pc vm + Z.of_nat (length prog) <= sp vm - 1 /\
  sp vm <= VM_STACK_TOP /\ code_at (memory vm) (pc vm) prog.

Definition newline : string := String (ascii_of_N 10) EmptyString.

(** What each two-operand instruction computes from [a] (pushed first) and
    [b] (pushed last), before the conversion to [uint8_t] in [vm_push]. *)
Definition binop_of (hw : host_t) (opcode : Z) : option (Z -> Z -> Z) :=
  if opcode =? OP_ADD then Some (fun a b => a + b)
  else if opcode =? OP_SUB then Some (fun a b => a - b)
  else if opcode =? OP_MUL then Some (fun a b => a * b)
  else if opcode =? OP_DIV then Some Z.quot
  else if opcode =? OP_MOD then Some Z.rem
  else if opcode =? OP_AND then Some Z.land
  else if opcode =? OP_OR then Some Z.lor
  else if opcode =? OP_XOR then Some Z.lxor
  else if opcode =? OP_SHL then Some (c_shl hw)
  else if opcode =? OP_SHR then Some (c_shr hw)
  else if opcode =? OP_EQ then Some (fun a b => b2z (a =? b))
  else if opcode =? OP_NEQ then Some (fun a b => b2z (negb (a =? b)))
  else if opcode =? OP_GT then Some (fun a b => b2z (a >? b))
  else if opcode =? OP_LT then Some (fun a b => b2z (a <? b))
  else if opcode =? OP_GTE then Some (fun a b => b2z (a >=? b))
  else if opcode =? OP_LTE then Some (fun a b => b2z (a <=? b))
  else None.

(** [DIV] and [MOD] test the divisor before they push. *)
Definition checks_divisor (opcode : Z) : bool :=
  (opcode =? OP_DIV) || (opcode =? OP_MOD).

(** How many bytes an instruction pops and how many it pushes afterwards,
    for the instructions that pop; [io_id] is the operand byte of [IO]. *)
Definition stack_use (opcode io_id : Z) : option (Z * Z) :=
  if opcode =? OP_POP then Some (1, 0)
  else if opcode =? OP_DUP then Some (1, 2)
  else if opcode =? OP_SWAP then Some (2, 2)
  else if existsb (Z.eqb opcode)
            [OP_ADD; OP_SUB; OP_MUL; OP_DIV; OP_MOD; OP_AND; OP_OR; OP_XOR;
             OP_SHL; OP_SHR; OP_EQ; OP_NEQ; OP_GT; OP_LT; OP_GTE; OP_LTE]
  then Some (2, 1)
  else if (opcode =? OP_NEG) || (opcode =? OP_NOT) then Some (1, 1)
  else if opcode =? OP_STORE then Some (1, 0)
  else if opcode =? OP_LOAD_IND then Some (2, 1)
  else if opcode =? OP_STORE_IND then Some (3, 0)
  else if (opcode =? OP_JZ) || (opcode =? OP_JNZ) then Some (1, 0)
  else if opcode =? OP_RET then Some (2, 0)
  else if opcode =? OP_IO then
    if io_id =? IO_PRINT_CHAR then Some (1, 0)
    else if io_id =? IO_DRAW_PIXEL then Some (3, 0)
    else if (io_id =? IO_DRAW_LINE) || (io_id =? IO_FILL_RECT)
    then Some (5, 0)
    else None
  else None.

(** The reference [ref] names a label of the symbol table of [st]. *)
Definition resolved (st : asm_t) (ref : string * Z) : bool :=
  match find_label (labels st) (fst ref) with
  | Some _ => true
  | None => false
  end.

(** The registers hold 16-bit values. *)
Definition regs_ok (vm : vm_t) : Prop :=
  0 <= pc vm < 65536 /\ 0 <= sp vm <= VM_STACK_TOP.

(** [vm'] has 16-bit registers and the base pointer of [vm]. *)
Definition frame_kept (vm vm' : vm_t) : Prop :=
  regs_ok vm' /\ bp vm' = bp vm.

(** The byte below the top of the stack. *)
Definition second_of_stack (vm : vm_t) : Z := mem_read (memory vm) (sp vm + 2).

(** An event that neither closes the window nor latches a key. *)
Definition quiet (ev : sdl_event) : bool :=
  match ev with
  | SDL_QUIT | SDL_KEYDOWN _ => false
  | SDL_MOUSE _ _ _ | SDL_OTHER => true
  end.

Definition is_quit (ev : sdl_event) : bool :=
  match ev with
  | SDL_QUIT => true
  | _ => false
  end.

(** Every pixel stored lies inside the [VM_DISPLAY_WIDTH] by
    [VM_DISPLAY_HEIGHT] array [ctx->pixels]. *)
Definition pixels_in_bounds (px : gmap Z Z) : Prop :=
  forall k v, px !! k = Some v ->
              0 <= k < VM_DISPLAY_WIDTH * VM_DISPLAY_HEIGHT.

(** The operation IDs of [platform_io.h]. *)
Definition known_io (io_id : Z) : bool :=
  existsb (Z.eqb io_id)
    [IO_EXIT; IO_PRINT_CHAR; IO_READ_CHAR; IO_DRAW_PIXEL; IO_DRAW_LINE;
     IO_FILL_RECT; IO_REFRESH; IO_POLL_KEY; IO_GET_KEY; IO_POLL_MOUSE;
     IO_GET_MOUSE_X; IO_GET_MOUSE_Y; IO_GET_MOUSE_B].

(** No two patch requests overlap: their positions are two or more
    apart. *)
Fixpoint separated (refs : list (string * Z)) : bool :=
  match refs with
  | [] => true
  | r :: rest =>
      forallb (fun r' => 2 <=? Z.abs (snd r - snd r')) rest && separated rest
  end.

(** The sizes the assembler's arrays and cursor allow. *)
Definition asm_ok (st : asm_t) : Prop :=
  Z.of_nat (length (labels st)) <= MAX_LABELS /\
  Z.of_nat (length (label_refs st)) <= MAX_LABELS /\
  0 <= output_pos st < VM_MEMORY_SIZE.



(** * Properties *)

(** ** Machine integers and memory cells *)

Lemma u8_range x : 0 <= u8 x < 256.
Proof. unfold u8. apply Z.mod_pos_bound. lia. Qed.

Lemma u8_small x : 0 <= x < 256 -> u8 x = x.
Proof. intros H. unfold u8. apply Z.mod_small. exact H. Qed.

Lemma u16_small x : 0 <= x < 65536 -> u16 x = x.
Proof. intros H. unfold u16. apply Z.mod_small. exact H. Qed.

Lemma u8_u8 x : u8 (u8 x) = u8 x.
Proof. apply u8_small, u8_range. Qed.

Lemma mem_read_range m a : 0 <= mem_read m a < 256.
Proof. apply u8_range. Qed.

Lemma mem_read_insert m a v : mem_read (<[a := v]> m) a = u8 v.
Proof. unfold mem_read. now rewrite lookup_insert_eq. Qed.

Lemma mem_read_insert_ne m a a' v :
  a <> a' -> mem_read (<[a := v]> m) a' = mem_read m a'.
Proof. intros H. unfold mem_read. now rewrite lookup_insert_ne. Qed.

(** ** [vm_push] and [vm_pop] *)

Lemma vm_push_ok vm v :
  0 < sp vm <= 0xFFFF ->
  vm_push vm v =
  mk_vm (<[sp vm := u8 v]> (memory vm)) (pc vm) (sp vm - 1) (bp vm)
        (running vm) (error vm).
Proof.
  intros H. unfold vm_push.
  destruct (Z.eqb_spec (sp vm) 0) as [E | _]; [lia |].
  unfold set_sp, set_memory. cbn [memory pc sp bp running error].
  rewrite u16_small by lia. reflexivity.
Qed.

Lemma vm_push_full vm v :
  sp vm = 0 -> vm_push vm v = set_error vm VM_ERROR_STACK_OVERFLOW.
Proof. intros H. unfold vm_push. now rewrite H. Qed.

Lemma vm_pop_ok vm :
  0 <= sp vm < 0xFFFF ->
  vm_pop vm = (mem_read (memory vm) (sp vm + 1), set_sp vm (sp vm + 1)).
Proof.
  intros H. unfold vm_pop, VM_STACK_TOP.
  destruct (Z.geb_spec (sp vm) 0xFFFF) as [E | _]; [lia |].
  cbv zeta. rewrite u16_small by lia. reflexivity.
Qed.

Lemma vm_pop_empty vm :
  0xFFFF <= sp vm ->
  vm_pop vm = (0, set_error vm VM_ERROR_STACK_UNDERFLOW).
Proof.
  intros H. unfold vm_pop, VM_STACK_TOP.
  destruct (Z.geb_spec (sp vm) 0xFFFF) as [_ | E]; [reflexivity | lia].
Qed.

Lemma push_all_ok values :
  forall vm,
    0 <= sp vm <= 0xFFFF ->
    Z.of_nat (length values) <= sp vm ->
    error (push_all values vm) = error vm /\
    sp (push_all values vm) = sp vm - Z.of_nat (length values).
Proof.
  induction values as [| v values IH]; intros vm Hsp Hlen.
  - cbn. split; [reflexivity | lia].
  - cbn [length] in Hlen. cbn [push_all fold_left].
    fold (push_all values (vm_push vm v)).
    rewrite vm_push_ok by lia.
    destruct (IH (mk_vm (<[sp vm := u8 v]> (memory vm)) (pc vm) (sp vm - 1)
                        (bp vm) (running vm) (error vm))) as [He Hs].
    + cbn. lia.
    + cbn. lia.
    + rewrite He, Hs. cbn [length sp error]. split; [reflexivity | lia].
Qed.

Lemma push_all_snoc values v vm :
  push_all (values ++ [v]) vm = vm_push (push_all values vm) v.
Proof. unfold push_all. now rewrite fold_left_app. Qed.

(** *** C3: the stack discipline *)

(** C3, as the code has it.  A successful push of the byte [v] with
    [sp = s] stores [v] in cell [s] and then lowers [sp] to [s - 1]: [sp]
    is the address of the next free cell, one below the byte pushed last,
    and it is [0xFFFF] on the empty stack.  A successful pop with [sp = s]
    reads cell [s + 1] and sets [sp] to [s + 1], so it returns the byte
    pushed last. *)
Theorem push_stores_then_decrements (vm : vm_t) (v s : Z) :
  sp vm = s -> 0 <= s <= 0xFFFF -> 0 <= v < 256 ->
  (s <> 0 ->
   let vm' := vm_push vm v in
   mem_read (memory vm') s = v /\
   sp vm' = s - 1 /\
   (forall a, a <> s -> mem_read (memory vm') a = mem_read (memory vm) a) /\
   error vm' = error vm /\
   top_of_stack vm' = v /\
   vm_pop vm' = (v, set_memory vm (memory vm'))) /\
  (s <> 0xFFFF ->
   vm_pop vm = (mem_read (memory vm) (s + 1), set_sp vm (s + 1))) /\
  sp (snd init_vm) = 0xFFFF.
Proof.
  intros Hs Hr Hv. split; [| split].
  - intros Hne vm'. subst vm'. rewrite vm_push_ok by lia.
    unfold top_of_stack. cbn [memory sp error].
    rewrite Hs. replace (s - 1 + 1) with s by lia.
    rewrite mem_read_insert, !(u8_small v Hv).
    split; [reflexivity | split; [reflexivity | split; [| split; [| split]]]].
    + intros a Ha. apply mem_read_insert_ne. congruence.
    + reflexivity.
    + reflexivity.
    + rewrite vm_pop_ok by (cbn; lia). cbn [memory sp].
      replace (s - 1 + 1) with s by lia.
      rewrite mem_read_insert, !(u8_small v Hv).
      unfold set_sp, set_memory. cbn. now rewrite <- Hs.
  - intros Hne. rewrite vm_pop_ok by lia. now rewrite Hs.
  - reflexivity.
Qed.

Lemma push_stores_then_decrements_witness :
  let vm := vm_push (snd init_vm) 7 in
  mem_read (memory vm) 0xFFFF = 7 /\ sp vm = 0xFFFE /\
  vm_pop vm = (7, set_memory (snd init_vm) (memory vm)).
Proof.
  destruct (push_stores_then_decrements (snd init_vm) 7 0xFFFF)
    as [Hpush _]; [reflexivity | lia | lia |].
  destruct (Hpush ltac:(lia)) as (Hm & Hsp & _ & _ & _ & Hpop).
  cbv zeta. split; [exact Hm | split; [exact Hsp | exact Hpop]].
Defined.

(** C3 as stated fails: after the first push on the empty stack [sp] is
    [0xFFFE], but the byte is in cell [0xFFFF], not in cell [sp]. *)
Lemma push_does_not_write_at_new_sp :
  let vm := vm_push (snd init_vm) 7 in
  sp vm = 0xFFFF - 1 /\
  mem_read (memory vm) (0xFFFF - 1) <> 7 /\
  mem_read (memory vm) (sp vm) <> 7 /\
  mem_read (memory vm) 0xFFFF = 7.
Proof. vm_compute. repeat split; congruence. Qed.

(** *** C4: stack overflow *)

(** C4, as the code has it.  From the initial state the first 65 535
    pushes succeed and leave [sp = 0xFFFF - n] after [n] of them; the
    65 536th push faults with [STACK_OVERFLOW]; and a push on a machine
    without error faults exactly when [sp = 0]. *)
Theorem overflow_on_push_65536 (values : list Z) (vm : vm_t) (v : Z) :
  (Z.of_nat (length values) <= 65535 ->
   error (push_all values (snd init_vm)) = VM_OK /\
   sp (push_all values (snd init_vm)) = 0xFFFF - Z.of_nat (length values)) /\
  (Z.of_nat (length values) = 65535 ->
   error (push_all (values ++ [v]) (snd init_vm))
   = VM_ERROR_STACK_OVERFLOW) /\
  (0 <= sp vm <= 0xFFFF -> error vm = VM_OK ->
   (error (vm_push vm v) = VM_ERROR_STACK_OVERFLOW <-> sp vm = 0)).
Proof.
  assert (Hall : Z.of_nat (length values) <= 65535 ->
                 error (push_all values (snd init_vm)) = VM_OK /\
                 sp (push_all values (snd init_vm))
                 = 0xFFFF - Z.of_nat (length values)).
  { intros H.
    apply (push_all_ok values (snd init_vm)); cbn; unfold VM_STACK_TOP; lia. }
  split; [exact Hall | split].
  - intros H. destruct Hall as [_ Hs]; [lia |].
    rewrite push_all_snoc, vm_push_full; [reflexivity | lia].
  - intros Hsp He. split.
    + intros H. destruct (Z.eq_dec (sp vm) 0) as [E | E]; [exact E |].
      rewrite vm_push_ok in H by lia. cbn in H. congruence.
    + intros H. now rewrite vm_push_full.
Qed.

Lemma overflow_on_push_65536_witness :
  error (push_all [1; 2; 3] (snd init_vm)) = VM_OK /\
  sp (push_all [1; 2; 3] (snd init_vm)) = 0xFFFF - 3.
Proof.
  destruct (overflow_on_push_65536 [1; 2; 3] (snd init_vm) 0) as [H _].
  apply H. cbn. lia.
Defined.

(** C4 as stated fails: 65 535 pushes exhaust the stack, and the 65 536th
    push, which the claim counts among the successful ones, faults. *)
Lemma push_65536_faults :
  error (push_all (replicate (Z.to_nat 65535) 0) (snd init_vm)) = VM_OK /\
  sp (push_all (replicate (Z.to_nat 65535) 0) (snd init_vm)) = 0 /\
  error (push_all (replicate (Z.to_nat 65535) 0 ++ [0]) (snd init_vm))
  = VM_ERROR_STACK_OVERFLOW.
Proof.
  assert (Hlen : Z.of_nat (length (replicate (Z.to_nat 65535) 0)) = 65535).
  { rewrite length_replicate. apply Z2Nat.id. lia. }
  destruct (push_all_ok (replicate (Z.to_nat 65535) 0) (snd init_vm))
    as [He Hs]; [cbn; unfold VM_STACK_TOP; lia .. |].
  rewrite Hlen in Hs. cbn [init_vm snd sp error] in He, Hs.
  unfold VM_STACK_TOP in Hs.
  split; [exact He | split; [exact Hs |]].
  rewrite push_all_snoc, vm_push_full; [reflexivity | exact Hs].
Qed.

(** The projections of an explicit machine record. *)
Ltac vm_simpl :=
  unfold after_fetch in *;
  cbn [memory pc sp bp running error set_pc set_sp set_memory set_error
       set_running fst snd] in *.

(** The same after the setters are replaced by the records they build. *)
Ltac vm_norm :=
  unfold after_fetch, set_pc, set_sp, set_memory, set_error, set_running;
  cbn [memory pc sp bp running error fst snd].

(** ** One instruction *)

Lemma split_return_address r :
  0 <= r < 65536 ->
  Z.lor (Z.shiftl (Z.land (Z.shiftr r 8) 0xFF) 8) (Z.land r 0xFF) = r.
Proof.
  intros Hr. apply Z.bits_inj'. intros n Hn.
  change 0xFF with (Z.ones 8).
  rewrite Z.lor_spec, Z.land_spec, Z.shiftl_spec by lia.
  destruct (Z.lt_ge_cases n 8) as [Hlt | Hge].
  - rewrite (Z.testbit_neg_r _ (n - 8)) by lia.
    rewrite Z.ones_spec_low by lia. cbn. now rewrite andb_true_r.
  - rewrite Z.ones_spec_high by lia. rewrite andb_false_r, orb_false_r.
    rewrite Z.land_spec, Z.shiftr_spec by lia.
    replace (n - 8 + 8) with n by lia.
    destruct (Z.lt_ge_cases n 16) as [Hlt | Hge16].
    + rewrite Z.ones_spec_low by lia. now rewrite andb_true_r.
    + rewrite Z.ones_spec_high by lia. rewrite andb_false_r.
      symmetry. destruct (Z.eq_dec r 0) as [-> | Hnz].
      * apply Z.bits_0.
      * apply Z.bits_above_log2; [lia |].
        apply Z.log2_lt_pow2; [lia |].
        apply Z.lt_le_trans with (2 ^ 16); [cbn; lia |].
        apply Z.pow_le_mono_r; lia.
Qed.

Lemma low_byte_range r : 0 <= Z.land r 0xFF < 256.
Proof.
  change 0xFF with (Z.ones 8). rewrite Z.land_ones by lia.
  apply Z.mod_pos_bound. lia.
Qed.

Lemma exec_instr_dispatch hw vm ctx :
  0 <= pc vm < 65536 ->
  exec_instr hw vm ctx =
  dispatch hw (mem_read (memory vm) (pc vm)) (after_fetch vm) ctx.
Proof.
  intros H. unfold exec_instr, VM_MEMORY_SIZE.
  destruct (Z.geb_spec (pc vm) 65536) as [? | _]; [lia | reflexivity].
Qed.

(** The branch of the [switch] that a given opcode selects. *)
Ltac pick_branch :=
  cbv beta iota zeta delta
      [dispatch Z.eqb Pos.eqb OP_NOP OP_HALT OP_PUSH OP_POP OP_DUP OP_SWAP
       OP_ADD OP_SUB OP_MUL OP_DIV OP_MOD OP_NEG OP_AND OP_OR OP_XOR OP_NOT
       OP_SHL OP_SHR OP_EQ OP_NEQ OP_GT OP_LT OP_GTE OP_LTE OP_LOAD OP_STORE
       OP_LOAD_IND OP_STORE_IND OP_JMP OP_JZ OP_JNZ OP_CALL OP_RET OP_IO].

Ltac fetch_opcode H :=
  rewrite exec_instr_dispatch by assumption; rewrite H; pick_branch;
  repeat match goal with
         | |- context [let '(_, _) := ?x in _] => destruct x
         end;
  reflexivity.

Section Instructions.
Variable hw : host_t.
Variable vm : vm_t.
Variable ctx : platform_io_context_t.
Hypothesis pc_range : 0 <= pc vm < 65536.

Lemma exec_PUSH :
  mem_read (memory vm) (pc vm) = OP_PUSH ->
  exec_instr hw vm ctx =
  (vm_push (set_pc (after_fetch vm) (u16 (pc (after_fetch vm) + 1)))
           (mem_read (memory vm) (pc (after_fetch vm))), ctx).
Proof. intros H. fetch_opcode H. Qed.

Lemma exec_DUP :
  mem_read (memory vm) (pc vm) = OP_DUP ->
  exec_instr hw vm ctx =
  (let '(value, vm1) := vm_pop (after_fetch vm) in
   vm_push (vm_push vm1 value) value, ctx).
Proof. intros H. fetch_opcode H. Qed.

Lemma exec_binary f :
  binop_of hw (mem_read (memory vm) (pc vm)) = Some f ->
  exec_instr hw vm ctx =
  (if checks_divisor (mem_read (memory vm) (pc vm))
   then exec_divop f (after_fetch vm) else exec_binop f (after_fetch vm), ctx).
Proof.
  unfold binop_of, checks_divisor. intros H.
  repeat match type of H with
         | (if ?o =? ?c then _ else _) = _ =>
             destruct (Z.eqb_spec o c) as [E | _];
             [injection H as <-; fetch_opcode E |]
         end.
  discriminate H.
Qed.

Lemma exec_CALL :
  mem_read (memory vm) (pc vm) = OP_CALL ->
  exec_instr hw vm ctx =
  (let '(addr, vm1) := vm_read16 (after_fetch vm) (pc (after_fetch vm)) in
   let vm2 := set_pc vm1 (u16 (pc vm1 + 2)) in
   let vm3 := vm_push vm2 (Z.land (pc vm2) 0xFF) in
   let vm4 := vm_push vm3 (Z.land (Z.shiftr (pc vm3) 8) 0xFF) in
   set_pc vm4 addr, ctx).
Proof. intros H. fetch_opcode H. Qed.

Lemma exec_RET :
  mem_read (memory vm) (pc vm) = OP_RET ->
  exec_instr hw vm ctx =
  (let '(hi, vm1) := vm_pop (after_fetch vm) in
   let '(lo, vm2) := vm_pop vm1 in
   set_pc vm2 (u16 (Z.lor (u16 (Z.shiftl hi 8)) lo)), ctx).
Proof. intros H. fetch_opcode H. Qed.

Lemma exec_IO :
  mem_read (memory vm) (pc vm) = OP_IO ->
  exec_instr hw vm ctx =
  (let io_id := mem_read (memory vm) (pc (after_fetch vm)) in
   let '(io_error, vm2, ctx') :=
     handle_platform_io
       (set_pc (after_fetch vm) (u16 (pc (after_fetch vm) + 1))) ctx io_id in
   match io_error with
   | PLATFORM_IO_OK => (vm2, ctx')
   | _ => (set_error vm2 (if io_id =? IO_EXIT then VM_ERROR_HALT
                          else VM_ERROR_PLATFORM_IO), ctx')
   end).
Proof.
  intros H. rewrite exec_instr_dispatch by assumption. rewrite H.
  reflexivity.
Qed.

End Instructions.

(** ** The loop of [run_vm] *)

(** An iteration in which the host keeps going and is not waiting for
    input executes one instruction and ends the run on a fault. *)
Lemma run_vm_iteration hw pending later vm ctx ctx1 :
  running vm = true -> error vm = VM_OK ->
  platform_io_process_events pending ctx = (true, ctx1) ->
  platform_io_is_waiting_for_input ctx1 = false ->
  run_vm hw (pending :: later) vm ctx =
  (let '(vm1, ctx2) := exec_instr hw vm ctx1 in
   if is_fault (error vm1) then Some (error vm1, vm1, ctx2)
   else run_vm hw later vm1 ctx2).
Proof.
  intros Hrun Herr Hev Hwait. cbn [run_vm].
  rewrite Hrun, Herr, Hev. cbn [vm_error_eqb andb negb]. now rewrite Hwait.
Qed.

Lemma run_vm_stopped hw events vm ctx :
  running vm && vm_error_eqb (error vm) VM_OK = false ->
  run_vm hw events vm ctx = Some (error vm, vm, ctx).
Proof. intros H. destruct events; cbn [run_vm]; now rewrite H. Qed.

(** *** C7: division by zero *)

(** C7.  When the divisor popped by [DIV] or [MOD] is 0, the instruction
    records [DIVISION_BY_ZERO], pushes nothing (memory is unchanged) and
    leaves [sp] where the two pops put it, two cells up when the stack
    holds two bytes; and the loop of [run_vm] returns at once with that
    error, whatever events the host still has. *)
Theorem division_by_zero_stops (hw : host_t) (vm : vm_t)
    (ctx : platform_io_context_t) :
  0 <= pc vm < 65536 ->
  mem_read (memory vm) (pc vm) = OP_DIV \/
  mem_read (memory vm) (pc vm) = OP_MOD ->
  fst (vm_pop (after_fetch vm)) = 0 ->
  let popped :=
    snd (vm_pop (snd (vm_pop (after_fetch vm)))) in
  let vm' := fst (exec_instr hw vm ctx) in
  error vm' = VM_ERROR_DIVISION_BY_ZERO /\
  memory vm' = memory vm /\
  sp vm' = sp popped /\
  (0 <= sp vm <= 0xFFFF - 2 -> sp vm' = sp vm + 2) /\
  snd (exec_instr hw vm ctx) = ctx /\
  forall pending later ctx0,
    running vm = true -> error vm = VM_OK ->
    platform_io_process_events pending ctx0 = (true, ctx) ->
    platform_io_is_waiting_for_input ctx = false ->
    run_vm hw (pending :: later) vm ctx0
    = Some (VM_ERROR_DIVISION_BY_ZERO, vm', ctx).
Proof.
  intros Hpc Hop Hzero popped vm'.
  assert (Hexec : exec_instr hw vm ctx =
                  (set_error popped VM_ERROR_DIVISION_BY_ZERO, ctx)).
  { assert (exists f, binop_of hw (mem_read (memory vm) (pc vm)) = Some f /\
                      checks_divisor (mem_read (memory vm) (pc vm)) = true)
      as (f & Hf & Hdiv).
    { destruct Hop as [-> | ->]; eexists; split; reflexivity. }
    rewrite (exec_binary hw vm ctx Hpc f Hf), Hdiv.
    unfold exec_divop. subst popped.
    destruct (vm_pop (after_fetch vm)) as [b vm1].
    cbn [fst snd] in *. subst b.
    destruct (vm_pop vm1) as [a vm2]. reflexivity. }
  assert (Hmem : memory popped = memory vm).
  { subst popped. unfold vm_pop.
    repeat match goal with
           | |- context [if ?c then _ else _] => destruct c
           end; reflexivity. }
  subst vm'. rewrite Hexec. cbn [fst snd set_error error memory sp].
  split; [reflexivity | split; [exact Hmem | split; [reflexivity |]]].
  split; [| split; [reflexivity |]].
  - intros Hsp. subst popped.
    unfold after_fetch.
    rewrite (vm_pop_ok (set_pc vm _)) by (cbn; lia). cbn [snd].
    rewrite vm_pop_ok by (cbn; lia). cbn. lia.
  - intros pending later ctx0 Hrun Herr Hev Hwait.
    rewrite (run_vm_iteration hw pending later vm ctx0 ctx Hrun Herr Hev Hwait).
    rewrite Hexec. reflexivity.
Qed.

Lemma division_by_zero_stops_witness :
  let vm := fst (exec_n x86_host 2 (loaded [2; 5; 2; 0; 9; 1])
                        platform_io_init) in
  let vm' := fst (exec_instr x86_host vm platform_io_init) in
  error vm' = VM_ERROR_DIVISION_BY_ZERO /\
  memory vm' = memory vm /\
  sp vm' = 0xFFFF /\
  run_vm x86_host [[]; []] vm platform_io_init
  = Some (VM_ERROR_DIVISION_BY_ZERO, vm', platform_io_init).
Proof.
  intros vm vm'.
  destruct (division_by_zero_stops x86_host vm platform_io_init)
    as (He & Hm & _ & Hsp & _ & Hrun).
  - vm_compute. split; [discriminate | reflexivity].
  - left. reflexivity.
  - reflexivity.
  - split; [exact He | split; [exact Hm | split]].
    + transitivity (sp vm + 2);
        [apply Hsp; vm_compute; split; discriminate | reflexivity].
    + apply Hrun; reflexivity.
Defined.

(** *** C8: quotient and remainder *)

Lemma exec_push_push hw vm ctx a b rest :
  0 <= a < 256 -> 0 <= b < 256 ->
  program_ready vm (OP_PUSH :: a :: OP_PUSH :: b :: rest) ->
  exec_n hw 2 vm ctx =
  (mk_vm (<[sp vm - 1 := b]> (<[sp vm := a]> (memory vm)))
         (pc vm + 4) (sp vm - 2) (bp vm) (running vm) (error vm), ctx).
Proof.
  intros Ha Hb (Hp & Hlen & Hs & H0 & H1 & H2 & H3 & _).
  destruct vm as [m p s bpv r e]. vm_simpl.
  cbn [length] in Hlen. unfold VM_STACK_TOP in Hs.
  replace (p + 1 + 1) with (p + 2) in * by lia.
  replace (p + 2 + 1) with (p + 3) in * by lia.
  cbn [exec_n].
  rewrite exec_PUSH by (vm_simpl; lia || assumption). cbv zeta. vm_simpl.
  rewrite !u16_small by (rewrite ?u16_small; lia).
  replace (p + 1 + 1) with (p + 2) by lia.
  rewrite H1, vm_push_ok by (vm_simpl; lia). vm_simpl.
  rewrite (u8_small a Ha).
  assert (H2' : mem_read (<[s := a]> m) (p + 2) = OP_PUSH)
    by (rewrite mem_read_insert_ne by lia; exact H2).
  rewrite exec_PUSH by (vm_simpl; lia || assumption). cbv zeta. vm_simpl.
  rewrite !u16_small by (rewrite ?u16_small; lia).
  rewrite mem_read_insert_ne by lia.
  replace (p + 2 + 1) with (p + 3) by lia. rewrite H3.
  rewrite vm_push_ok by (vm_simpl; lia). vm_simpl.
  rewrite (u8_small b Hb).
  replace (p + 3 + 1) with (p + 4) by lia.
  replace (s - 1 - 1) with (s - 2) by lia. reflexivity.
Qed.

Lemma exec_n_add hw n k vm ctx :
  exec_n hw (n + k) vm ctx =
  exec_n hw k (fst (exec_n hw n vm ctx)) (snd (exec_n hw n vm ctx)).
Proof.
  revert vm ctx. induction n as [| n IH]; intros vm ctx; [reflexivity |].
  cbn [exec_n Nat.add]. destruct (exec_instr hw vm ctx). apply IH.
Qed.

Lemma exec_push_push_divop hw vm ctx a b op f :
  0 <= a < 256 -> 0 < b < 256 ->
  binop_of hw op = Some f -> checks_divisor op = true ->
  program_ready vm [OP_PUSH; a; OP_PUSH; b; op] ->
  let vm' := fst (exec_n hw 3 vm ctx) in
  top_of_stack vm' = u8 (f a b) /\ sp vm' = sp vm - 1 /\
  error vm' = error vm /\ pc vm' = pc vm + 5.
Proof.
  intros Ha Hb Hf Hdiv Hready vm'. subst vm'.
  change 3%nat with (2 + 1)%nat.
  rewrite exec_n_add, (exec_push_push hw vm ctx a b [op])
    by (assumption || lia).
  destruct vm as [m p s bpv r e].
  destruct Hready as (Hp & Hlen & Hs & _ & _ & _ & _ & H4 & _).
  vm_simpl. cbn [exec_n]. cbn [length] in Hlen. unfold VM_STACK_TOP in Hs.
  replace (p + 1 + 1 + 1 + 1) with (p + 4) in H4 by lia.
  assert (H4' : mem_read (<[s - 1 := b]> (<[s := a]> m)) (p + 4) = op)
    by (rewrite !mem_read_insert_ne by lia; exact H4).
  rewrite (exec_binary hw _ ctx) with (f := f)
    by (vm_simpl; try lia; rewrite H4'; exact Hf).
  vm_simpl. rewrite H4', Hdiv. unfold exec_divop.
  rewrite vm_pop_ok by (vm_simpl; rewrite ?u16_small; lia). vm_simpl.
  replace (s - 2 + 1) with (s - 1) by lia.
  rewrite mem_read_insert, (u8_small b) by lia.
  rewrite vm_pop_ok by (vm_simpl; lia). vm_simpl.
  replace (s - 1 + 1) with s by lia.
  rewrite mem_read_insert_ne, mem_read_insert, (u8_small a) by lia.
  destruct (Z.eqb_spec b 0) as [E | _]; [lia |].
  rewrite vm_push_ok by (vm_simpl; lia).
  unfold top_of_stack. vm_simpl.
  replace (s - 1 + 1) with s by lia.
  rewrite mem_read_insert, u8_u8, u16_small by lia.
  repeat split; lia.
Qed.

(** C8.  For bytes [a] and [b] with [b <> 0], [PUSH a; PUSH b; DIV] leaves
    the quotient [q] on top of the stack and [PUSH a; PUSH b; MOD] the
    remainder [r], and [q * b + r] is congruent to [a] modulo 256 (it is
    [a]). *)
Theorem div_mod_identity (hw : host_t) (vmq vmr : vm_t)
    (ctxq ctxr : platform_io_context_t) (a b : Z) :
  0 <= a < 256 -> 0 <= b < 256 -> b <> 0 ->
  program_ready vmq [OP_PUSH; a; OP_PUSH; b; OP_DIV] ->
  program_ready vmr [OP_PUSH; a; OP_PUSH; b; OP_MOD] ->
  let q := top_of_stack (fst (exec_n hw 3 vmq ctxq)) in
  let r := top_of_stack (fst (exec_n hw 3 vmr ctxr)) in
  q = a / b /\ r = a mod b /\
  (q * b + r) mod 256 = a mod 256 /\
  q * b + r = a /\
  error (fst (exec_n hw 3 vmq ctxq)) = error vmq /\
  error (fst (exec_n hw 3 vmr ctxr)) = error vmr.
Proof.
  intros Ha Hb Hnz Hq Hr q r.
  destruct (exec_push_push_divop hw vmq ctxq a b OP_DIV Z.quot)
    as (Htq & _ & Heq & _); try (assumption || reflexivity || lia).
  destruct (exec_push_push_divop hw vmr ctxr a b OP_MOD Z.rem)
    as (Htr & _ & Her & _); try (assumption || reflexivity || lia).
  assert (Hquot : a ÷ b = a / b) by (apply Z.quot_div_nonneg; lia).
  assert (Hrem : Z.rem a b = a mod b) by (apply Z.rem_mod_nonneg; lia).
  assert (Hqr : 0 <= a / b < 256).
  { split; [apply Z.div_pos; lia |].
    apply Z.le_lt_trans with a; [| lia].
    apply Z.div_le_upper_bound; nia. }
  assert (Hrr : 0 <= a mod b < 256).
  { pose proof (Z.mod_pos_bound a b). lia. }
  assert (Eq : q = a / b).
  { subst q. rewrite Htq, Hquot. now apply u8_small. }
  assert (Er : r = a mod b).
  { subst r. rewrite Htr, Hrem. now apply u8_small. }
  assert (Hsum : q * b + r = a).
  { rewrite Eq, Er. pose proof (Z.div_mod a b Hnz). lia. }
  repeat split; try assumption. now rewrite Hsum.
Qed.

Lemma div_mod_identity_witness :
  let q := top_of_stack (fst (exec_n x86_host 3 (loaded [2; 200; 2; 7; 9])
                                     platform_io_init)) in
  let r := top_of_stack (fst (exec_n x86_host 3 (loaded [2; 200; 2; 7; 10])
                                     platform_io_init)) in
  q = 28 /\ r = 4 /\ (q * 7 + r) mod 256 = 200 mod 256.
Proof.
  intros q r.
  destruct (div_mod_identity x86_host (loaded [2; 200; 2; 7; 9])
              (loaded [2; 200; 2; 7; 10]) platform_io_init platform_io_init
              200 7) as (Hq & Hr & Hmod & _); try lia.
  - vm_compute. repeat split; discriminate.
  - vm_compute. repeat split; discriminate.
  - split; [exact Hq | split; [exact Hr | exact Hmod]].
Defined.

(** *** C9: shifts *)

Lemma exec_binop_two f vm :
  0 <= sp vm <= 0xFFFF - 2 ->
  exec_binop f vm =
  mk_vm (<[sp vm + 2 :=
             u8 (f (mem_read (memory vm) (sp vm + 2))
                   (mem_read (memory vm) (sp vm + 1)))]> (memory vm))
        (pc vm) (sp vm + 1) (bp vm) (running vm) (error vm).
Proof.
  intros Hs. destruct vm as [m p s bpv r e]. vm_simpl. unfold exec_binop.
  rewrite vm_pop_ok by (vm_simpl; lia). vm_simpl.
  rewrite vm_pop_ok by (vm_simpl; lia). vm_simpl.
  rewrite vm_push_ok by (vm_simpl; lia). vm_simpl.
  replace (s + 1 + 1) with (s + 2) by lia.
  replace (s + 2 - 1) with (s + 1) by lia. reflexivity.
Qed.

Lemma shl_low_byte a b : 8 <= b -> u8 (Z.shiftl a b) = 0.
Proof.
  intros Hb. unfold u8. rewrite Z.shiftl_mul_pow2 by lia.
  replace b with (b - 8 + 8) by lia.
  rewrite Z.pow_add_r by lia. change (2 ^ 8) with 256.
  rewrite Z.mul_assoc. apply Z.mod_mul. lia.
Qed.

Lemma shr_byte a b : 0 <= a < 256 -> 8 <= b -> u8 (Z.shiftr a b) = 0.
Proof.
  intros Ha Hb. rewrite Z.shiftr_div_pow2 by lia.
  rewrite Z.div_small; [reflexivity |].
  split; [lia |]. apply Z.lt_le_trans with (2 ^ 8); [cbn; lia |].
  apply Z.pow_le_mono_r; lia.
Qed.

(** C9, as the code has it.  With [a] below [b] on the stack and a count
    [b] from 8 to 31, the counts for which the C shift of the promoted
    operand does not depend on the platform, [SHL] and [SHR] replace the
    two bytes by 0. *)
Theorem shift_by_8_to_31_pushes_zero (hw : host_t) (vm : vm_t)
    (ctx : platform_io_context_t) :
  0 <= pc vm < 65536 -> 0 <= sp vm <= 0xFFFF - 2 ->
  mem_read (memory vm) (pc vm) = OP_SHL \/
  mem_read (memory vm) (pc vm) = OP_SHR ->
  8 <= mem_read (memory vm) (sp vm + 1) < 32 ->
  let vm' := fst (exec_instr hw vm ctx) in
  top_of_stack vm' = 0 /\ sp vm' = sp vm + 1 /\ error vm' = error vm.
Proof.
  intros Hpc Hsp Hop Hb vm'. subst vm'.
  pose proof (mem_read_range (memory vm) (sp vm + 2)) as Ha.
  assert (exists f,
             binop_of hw (mem_read (memory vm) (pc vm)) = Some f /\
             checks_divisor (mem_read (memory vm) (pc vm)) = false /\
             u8 (f (mem_read (memory vm) (sp vm + 2))
                   (mem_read (memory vm) (sp vm + 1))) = 0)
    as (f & Hf & Hdiv & Hzero).
  { destruct Hop as [E | E]; rewrite E.
    - exists (c_shl hw). split; [reflexivity | split; [reflexivity |]].
      unfold c_shl. destruct (Z.ltb_spec (mem_read (memory vm) (sp vm + 1)) 32);
        [| lia]. apply shl_low_byte. lia.
    - exists (c_shr hw). split; [reflexivity | split; [reflexivity |]].
      unfold c_shr. destruct (Z.ltb_spec (mem_read (memory vm) (sp vm + 1)) 32);
        [| lia]. apply shr_byte; lia. }
  rewrite (exec_binary hw vm ctx Hpc f Hf), Hdiv. cbv zeta.
  rewrite exec_binop_two by (vm_simpl; lia). vm_simpl.
  rewrite Hzero. unfold top_of_stack. vm_simpl.
  replace (sp vm + 1 + 1) with (sp vm + 2) by lia.
  rewrite mem_read_insert. repeat split; reflexivity.
Qed.

Lemma shift_by_8_to_31_pushes_zero_witness :
  let vm := fst (exec_n x86_host 2 (loaded [2; 255; 2; 9; 16])
                        platform_io_init) in
  top_of_stack (fst (exec_instr x86_host vm platform_io_init)) = 0.
Proof.
  intros vm.
  apply (shift_by_8_to_31_pushes_zero x86_host vm platform_io_init).
  - vm_compute. split; [discriminate | reflexivity].
  - vm_compute. split; discriminate.
  - left. reflexivity.
  - vm_compute. split; [discriminate | reflexivity].
Defined.

(** For counts of 32 and more the engine hands the count to the C shift
    as it is, and C does not define the result: the byte pushed is what
    the platform's shift produces.  On a platform that reduces the count
    modulo 32, as the x86 family does, [PUSH 1; PUSH 32; SHL] pushes 1,
    not 0, as does [PUSH 1; PUSH 32; SHR]. *)
Lemma shift_by_32_on_x86 :
  top_of_stack (fst (exec_n x86_host 3 (loaded [2; 1; 2; 32; 16])
                            platform_io_init)) = 1 /\
  top_of_stack (fst (exec_n x86_host 3 (loaded [2; 1; 2; 32; 17])
                            platform_io_init)) = 1.
Proof. split; vm_compute; reflexivity. Qed.

(** *** C10: instructions that underflow *)

Lemma u16_below x : (u16 x <? VM_MEMORY_SIZE) = true.
Proof.
  apply Z.ltb_lt. unfold u16, VM_MEMORY_SIZE. apply Z.mod_pos_bound. lia.
Qed.

(** Pops and pushes on a machine whose stack pointer is a numeral. *)
Ltac stack_step :=
  first
    [ rewrite (vm_pop_empty (mk_vm _ _ _ _ _ _)) by (vm_simpl; lia)
    | rewrite (vm_pop_ok (mk_vm _ _ _ _ _ _)) by (vm_simpl; lia)
    | rewrite (vm_push_ok (mk_vm _ _ _ _ _ _)) by (vm_simpl; lia)
    | rewrite u16_below
    | match goal with
      | |- context [vm_read16 ?v ?a] =>
          unfold vm_read16; destruct (a >=? VM_MEMORY_SIZE - 1)
      end ].

Ltac run_stack :=
  repeat (vm_norm;
          unfold exec_binop, exec_unop, exec_divop, pop_addr;
          try stack_step).

(** Every instruction that pops: the error and the pushes. *)
Lemma underflow_every_instruction hw vm ctx k m :
  0 <= pc vm < 65536 ->
  let opcode := mem_read (memory vm) (pc vm) in
  let io_id := mem_read (memory vm) (pc (after_fetch vm)) in
  let b := if sp vm =? 0xFFFF then 0 else mem_read (memory vm) 0xFFFF in
  stack_use opcode io_id = Some (k, m) ->
  0 <= depth vm < k ->
  (checks_divisor opcode = true -> b <> 0) ->
  let vm' := fst (exec_instr hw vm ctx) in
  error vm' = VM_ERROR_STACK_UNDERFLOW /\ sp vm' = 0xFFFF - m.
Proof.
  intros Hpc opcode io_id b Huse Hdepth Hdiv vm'. subst vm'.
  rewrite exec_instr_dispatch by assumption.
  unfold depth, VM_STACK_TOP in Hdepth.
  destruct vm as [m0 p s bpv r e]. vm_simpl. subst opcode io_id.
  unfold stack_use in Huse. cbn [existsb] in Huse.
  repeat match type of Huse with
         | (if (?o =? ?c) || _ then _ else _) = _ =>
             destruct (Z.eqb_spec o c) as [? | _]; cbn [orb] in Huse
         | (if (?o =? ?c) then _ else _) = _ =>
             destruct (Z.eqb_spec o c) as [? | _]
         | (if false then _ else _) = _ => cbv iota in Huse
         end; try discriminate Huse.
  all: injection Huse as <- <-.
  all: repeat match goal with
              | E : mem_read _ _ = _ |- _ => rewrite E in *; clear E
              end.
  all: pick_branch.
  all: vm_norm.
  all: try match goal with
           | E : mem_read _ _ = _ |- _ =>
               rewrite E; clear E;
               cbv beta iota zeta delta
                   [handle_platform_io Z.eqb Pos.eqb IO_EXIT IO_PRINT_CHAR
                    IO_READ_CHAR IO_DRAW_PIXEL IO_DRAW_LINE IO_FILL_RECT]
           end.
  all: assert (Hs : s = 65535 \/ s = 65534 \/ s = 65533 \/ s = 65532 \/
                    s = 65531) by lia;
    destruct Hs as [-> | [-> | [-> | [-> | ->]]]]; try lia.
  all: subst b; cbn [Z.eqb Pos.eqb] in Hdiv.
  all: run_stack.
  all: try (split; reflexivity).
  all: change (65534 + 1) with 65535 in *.
  all: repeat match goal with
              | |- context [if ?c =? 0 then _ else _] =>
                  destruct (Z.eqb_spec c 0)
              end.
  all: try solve [exfalso; apply Hdiv; reflexivity || assumption].
  all: try (split; reflexivity).
Qed.

(** C10, as the code has it.  An instruction that pops more bytes than
    the stack holds records [STACK_UNDERFLOW], takes 0 for each byte it
    could not pop (a failed [vm_pop] returns 0) and still performs its
    pushes, so that [sp] ends [m] cells below the top for an instruction
    with [m] pushes: [DUP] on the empty stack pushes 0 twice, a
    two-operand instruction on fewer than two bytes pushes its result on
    [a = 0] and the [b] it got.  [DIV] and [MOD] do so only when that [b]
    is not 0; otherwise they stop at the zero test with
    [DIVISION_BY_ZERO]. *)
Theorem underflow_still_pushes (hw : host_t) (vm : vm_t)
    (ctx : platform_io_context_t) (f : Z -> Z -> Z) (k m : Z) :
  0 <= pc vm < 65536 ->
  let opcode := mem_read (memory vm) (pc vm) in
  let io_id := mem_read (memory vm) (pc (after_fetch vm)) in
  let b := if sp vm =? 0xFFFF then 0 else mem_read (memory vm) 0xFFFF in
  let vm' := fst (exec_instr hw vm ctx) in
  (stack_use opcode io_id = Some (k, m) ->
   0 <= depth vm < k ->
   (checks_divisor opcode = true -> b <> 0) ->
   error vm' = VM_ERROR_STACK_UNDERFLOW /\ sp vm' = 0xFFFF - m) /\
  (sp vm = 0xFFFF ->
   vm_pop vm = (0, set_error vm VM_ERROR_STACK_UNDERFLOW)) /\
  (opcode = OP_DUP -> sp vm = 0xFFFF ->
   error vm' = VM_ERROR_STACK_UNDERFLOW /\
   sp vm' = 0xFFFF - 2 /\
   mem_read (memory vm') 0xFFFF = 0 /\
   mem_read (memory vm') (0xFFFF - 1) = 0) /\
  (binop_of hw opcode = Some f ->
   0 <= depth vm < 2 ->
   (checks_divisor opcode = true -> b <> 0) ->
   error vm' = VM_ERROR_STACK_UNDERFLOW /\
   sp vm' = 0xFFFF - 1 /\
   mem_read (memory vm') 0xFFFF = u8 (f 0 b)).
Proof.
  intros Hpc opcode io_id b vm'. split; [| split; [| split]].
  - intros Huse Hdepth Hdiv.
    now apply (underflow_every_instruction hw vm ctx k m).
  - intros Hsp. apply vm_pop_empty. lia.
  - subst opcode vm'. clear b io_id.
    intros Hop Hsp. rewrite (exec_DUP hw vm ctx Hpc Hop). cbv zeta.
    rewrite vm_pop_empty by (vm_simpl; lia).
    destruct vm as [m0 p s bpv r e]. vm_simpl. subst s. vm_norm.
    rewrite (vm_push_ok (mk_vm _ _ _ _ _ _)) by (vm_simpl; lia). vm_simpl.
    rewrite (vm_push_ok (mk_vm _ _ _ _ _ _)) by (vm_simpl; lia). vm_simpl.
    split; [reflexivity | split; [reflexivity |]].
    split.
    + rewrite mem_read_insert_ne, mem_read_insert by lia. reflexivity.
    + rewrite mem_read_insert. reflexivity.
  - subst opcode vm'. clear io_id.
    intros Hf Hdepth Hb. unfold depth, VM_STACK_TOP in Hdepth.
    rewrite (exec_binary hw vm ctx Hpc f Hf). unfold after_fetch.
    assert (Hcommon :
              exec_binop f (set_pc vm (u16 (pc vm + 1))) =
              mk_vm (<[0xFFFF := u8 (f 0 b)]> (memory vm))
                    (u16 (pc vm + 1)) (0xFFFF - 1) (bp vm) (running vm)
                    VM_ERROR_STACK_UNDERFLOW /\
              fst (vm_pop (set_pc vm (u16 (pc vm + 1)))) = b /\
              fst (vm_pop (snd (vm_pop (set_pc vm (u16 (pc vm + 1)))))) = 0 /\
              snd (vm_pop (snd (vm_pop (set_pc vm (u16 (pc vm + 1)))))) =
              mk_vm (memory vm) (u16 (pc vm + 1)) 0xFFFF (bp vm) (running vm)
                    VM_ERROR_STACK_UNDERFLOW).
    { unfold exec_binop. subst b.
      destruct vm as [m0 p s bpv r e]. vm_simpl. vm_norm.
      destruct (Z.eqb_spec s 0xFFFF) as [E | E].
      - subst s.
        rewrite !(vm_pop_empty (mk_vm _ _ _ _ _ _)) by (vm_simpl; lia).
        vm_norm.
        rewrite !(vm_pop_empty (mk_vm _ _ _ _ _ _)) by (vm_simpl; lia).
        vm_norm.
        rewrite (vm_push_ok (mk_vm _ _ _ _ _ _)) by (vm_simpl; lia).
        vm_simpl. repeat split; reflexivity.
      - assert (Es : s = 0xFFFF - 1) by lia. subst s.
        rewrite !(vm_pop_ok (mk_vm _ _ _ _ _ _)) by (vm_simpl; lia).
        vm_norm.
        rewrite !(vm_pop_empty (mk_vm _ _ _ _ _ _)) by (vm_simpl; lia).
        vm_norm.
        rewrite (vm_push_ok (mk_vm _ _ _ _ _ _)) by (vm_simpl; lia).
        vm_simpl. repeat split; reflexivity. }
    destruct Hcommon as (Hbin & Hb1 & Ha1 & Hst).
    destruct (checks_divisor (mem_read (memory vm) (pc vm))) eqn:Hdiv.
    + assert (Hdivop : exec_divop f (set_pc vm (u16 (pc vm + 1))) =
                       exec_binop f (set_pc vm (u16 (pc vm + 1)))).
      { unfold exec_divop, exec_binop.
        destruct (vm_pop (set_pc vm (u16 (pc vm + 1)))) as [b0 vm1].
        cbn [fst snd] in Hb1. subst b0.
        destruct (vm_pop vm1) as [a0 vm2].
        destruct (Z.eqb_spec b 0) as [E | _]; [| reflexivity].
        exfalso. now apply Hb. }
      rewrite Hdivop, Hbin. vm_simpl.
      rewrite mem_read_insert, u8_u8. repeat split; reflexivity.
    + rewrite Hbin. vm_simpl.
      rewrite mem_read_insert, u8_u8. repeat split; reflexivity.
Qed.

Lemma underflow_still_pushes_witness :
  let dup := fst (exec_instr x86_host (loaded [4]) platform_io_init) in
  let one := fst (exec_instr x86_host (loaded [2; 3; 7]) platform_io_init) in
  let sub := fst (exec_instr x86_host one platform_io_init) in
  (error dup = VM_ERROR_STACK_UNDERFLOW /\ sp dup = 0xFFFF - 2 /\
   mem_read (memory dup) 0xFFFF = 0 /\
   mem_read (memory dup) (0xFFFF - 1) = 0) /\
  (error sub = VM_ERROR_STACK_UNDERFLOW /\ sp sub = 0xFFFF - 1 /\
   mem_read (memory sub) 0xFFFF = u8 (0 - 3)).
Proof.
  intros dup one sub. split.
  - destruct (underflow_still_pushes x86_host (loaded [4]) platform_io_init
                (fun a b => a - b) 1 2) as (_ & _ & H & _).
    + vm_compute. split; [discriminate | reflexivity].
    + apply H; reflexivity.
  - destruct (underflow_still_pushes x86_host one platform_io_init
                (fun a b => a - b) 2 1) as (_ & _ & _ & H).
    + vm_compute. split; [discriminate | reflexivity].
    + apply H.
      * reflexivity.
      * vm_compute. split; [discriminate | reflexivity].
      * vm_compute. discriminate.
Defined.

(** C10 as stated fails for [DIV] and [MOD]: on the empty stack both
    failed pops yield 0, the zero divisor is found, the error recorded is
    [DIVISION_BY_ZERO], and nothing is pushed. *)
Lemma div_on_empty_stack :
  let vm := loaded [9] in
  let vm' := fst (exec_instr x86_host vm platform_io_init) in
  depth vm = 0 /\
  error vm' = VM_ERROR_DIVISION_BY_ZERO /\
  error vm' <> VM_ERROR_STACK_UNDERFLOW /\
  sp vm' = sp vm /\ memory vm' = memory vm.
Proof. vm_compute. repeat split; congruence. Qed.

(** *** C1: [CALL] and [RET] *)

(** C1.  [CALL] at address [p] pushes the low byte of the return address
    [p + 3] and then its high byte, and jumps to its operand.  When the
    subroutine reaches a [RET] after any number of instructions with the
    stack as it found it, [RET] pops the high byte, then the low byte,
    and continues at [p + 3], the instruction after the [CALL]. *)
Theorem call_ret_mirror (hw : host_t) (vm : vm_t)
    (ctx : platform_io_context_t) (n : nat) :
  let p := pc vm in
  let s := sp vm in
  let ret := u16 (p + 3) in
  let entry := fst (exec_instr hw vm ctx) in
  let exit := fst (exec_n hw n entry (snd (exec_instr hw vm ctx))) in
  let ctx_exit := snd (exec_n hw n entry (snd (exec_instr hw vm ctx))) in
  let fetched := after_fetch exit in
  let back := fst (exec_instr hw exit ctx_exit) in
  0 <= p < 0xFFFF - 1 -> 2 <= s <= 0xFFFF ->
  mem_read (memory vm) p = OP_CALL ->
  (pc entry = fst (vm_read16 vm (p + 1)) /\
   sp entry = s - 2 /\
   mem_read (memory entry) s = Z.land ret 0xFF /\
   mem_read (memory entry) (s - 1) = Z.land (Z.shiftr ret 8) 0xFF /\
   error entry = error vm) /\
  (same_stack entry exit ->
   0 <= pc exit < 65536 ->
   mem_read (memory exit) (pc exit) = OP_RET ->
   fst (vm_pop fetched) = Z.land (Z.shiftr ret 8) 0xFF /\
   fst (vm_pop (snd (vm_pop fetched))) = Z.land ret 0xFF /\
   pc back = ret /\ sp back = s /\ error back = error exit).
Proof.
  intros p s ret entry exit ctx_exit fetched back Hp Hs Hop.
  assert (Hret : 0 <= ret < 65536) by apply Z.mod_pos_bound, eq_refl.
  assert (Hentry :
            entry =
            mk_vm (<[s - 1 := u8 (Z.land (Z.shiftr ret 8) 0xFF)]>
                     (<[s := u8 (Z.land ret 0xFF)]> (memory vm)))
                  (fst (vm_read16 vm (p + 1))) (s - 2) (bp vm) (running vm)
                  (error vm)).
  { subst entry. rewrite (exec_CALL hw vm ctx) by (fold p; lia || exact Hop).
    cbv zeta. subst ret p s. destruct vm as [m p s bpv r e]. vm_simpl. vm_norm.
    rewrite (u16_small (p + 1)) by lia.
    unfold vm_read16, VM_MEMORY_SIZE.
    destruct (Z.geb_spec (p + 1) (65536 - 1)) as [? | _]; [lia |]. vm_norm.
    replace (u16 (p + 1 + 2)) with (u16 (p + 3)) by (f_equal; lia).
    rewrite (vm_push_ok (mk_vm _ _ _ _ _ _)) by (vm_simpl; lia). vm_simpl.
    rewrite (vm_push_ok (mk_vm _ _ _ _ _ _)) by (vm_simpl; lia). vm_simpl.
    replace (s - 1 - 1) with (s - 2) by lia. reflexivity. }
  assert (Hlo : 0 <= Z.land ret 0xFF < 256) by apply low_byte_range.
  assert (Hhi : 0 <= Z.land (Z.shiftr ret 8) 0xFF < 256)
    by apply low_byte_range.
  assert (Hcell_lo : mem_read (memory entry) s = Z.land ret 0xFF).
  { rewrite Hentry. vm_simpl.
    rewrite mem_read_insert_ne, mem_read_insert, u8_u8 by lia.
    now apply u8_small. }
  assert (Hcell_hi : mem_read (memory entry) (s - 1)
                     = Z.land (Z.shiftr ret 8) 0xFF).
  { rewrite Hentry. vm_simpl. rewrite mem_read_insert, u8_u8.
    now apply u8_small. }
  assert (Hsp : sp entry = s - 2) by (rewrite Hentry; reflexivity).
  split.
  - repeat split; try assumption; rewrite Hentry; reflexivity.
  - intros [Hsame_sp Hsame] Hpc Hopr.
    unfold VM_STACK_TOP in Hsame. rewrite Hsp in Hsame, Hsame_sp.
    assert (E1 : mem_read (memory exit) (s - 1)
                 = Z.land (Z.shiftr ret 8) 0xFF)
      by (rewrite Hsame by lia; exact Hcell_hi).
    assert (E0 : mem_read (memory exit) s = Z.land ret 0xFF)
      by (rewrite Hsame by lia; exact Hcell_lo).
    subst back. rewrite (exec_RET hw exit ctx_exit Hpc Hopr). cbv zeta.
    fold fetched.
    assert (Hf : fetched = mk_vm (memory exit) (u16 (pc exit + 1)) (s - 2)
                                 (bp exit) (running exit) (error exit)).
    { subst fetched. unfold after_fetch, set_pc. now rewrite Hsame_sp. }
    rewrite Hf.
    rewrite (vm_pop_ok (mk_vm _ _ _ _ _ _)) by (vm_simpl; lia). vm_norm.
    rewrite (vm_pop_ok (mk_vm _ _ _ _ _ _)) by (vm_simpl; lia). vm_norm.
    replace (s - 2 + 1) with (s - 1) by lia.
    replace (s - 1 + 1) with s by lia.
    rewrite E1, E0.
    split; [reflexivity | split; [reflexivity |]].
    split; [| split; reflexivity].
    assert (Hsh : 0 <= Z.shiftl (Z.land (Z.shiftr ret 8) 0xFF) 8 < 65536).
    { rewrite Z.shiftl_mul_pow2 by lia. change (2 ^ 8) with 256. lia. }
    rewrite (u16_small _ Hsh), split_return_address by exact Hret.
    now apply u16_small.
Qed.

Lemma call_ret_mirror_witness :
  let vm :=
    mk_vm (store_bytes (store_bytes ∅ 0x1234 [31; 0; 0x20; 1])
                       0x2000 [2; 7; 3; 32])
          0x1234 0xFFFF 0xFFFF true VM_OK in
  let entry := fst (exec_instr x86_host vm platform_io_init) in
  let exit := fst (exec_n x86_host 2 entry platform_io_init) in
  let back := fst (exec_instr x86_host exit platform_io_init) in
  (pc entry = 0x2000 /\ sp entry = 0xFFFF - 2 /\
   mem_read (memory entry) 0xFFFF = 0x37 /\
   mem_read (memory entry) (0xFFFF - 1) = 0x12) /\
  pc back = 0x1237 /\ sp back = 0xFFFF.
Proof.
  intros vm entry exit back.
  destruct (call_ret_mirror x86_host vm platform_io_init 2)
    as [(Hpc & Hsp & Hlo & Hhi & _) Hret].
  - vm_compute. split; [discriminate | reflexivity].
  - vm_compute. split; discriminate.
  - reflexivity.
  - split; [split; [exact Hpc | split; [exact Hsp | split]] |].
    + exact Hlo.
    + exact Hhi.
    + destruct Hret as (_ & _ & Hback & Hs & _).
      * split; [reflexivity |]. intros a Ha.
        assert (Hentry : sp (fst (exec_instr x86_host vm platform_io_init))
                         = 0xFFFF - 2) by (vm_compute; reflexivity).
        unfold VM_STACK_TOP in Ha. rewrite Hentry in Ha.
        assert (Hcases : a = 0xFFFF - 1 \/ a = 0xFFFF) by lia.
        destruct Hcases as [-> | ->]; reflexivity.
      * vm_compute. split; [discriminate | reflexivity].
      * reflexivity.
      * split; [exact Hback | exact Hs].
Defined.

(** *** C2: the blocking read *)

(** What the code does for C2.  [IO 0x02] with its opcode at [p],
    dispatched by the loop (the host is not waiting for input) when no
    key is available, sets the waiting flag and steps [pc] back once from
    [p + 2]: [pc] is [p + 1], the address of the operand byte, not [p],
    the address of the instruction the comment in [handle_platform_io]
    means to retry. *)
Theorem read_char_rewinds_to_operand (hw : host_t) (vm : vm_t)
    (ctx : platform_io_context_t) :
  0 <= pc vm < 0xFFFF - 1 ->
  mem_read (memory vm) (pc vm) = OP_IO ->
  mem_read (memory vm) (pc vm + 1) = IO_READ_CHAR ->
  key_available ctx = false ->
  platform_io_is_waiting_for_input ctx = false ->
  exec_instr hw vm ctx = (set_pc vm (pc vm + 1), set_waiting ctx true) /\
  waiting_for_input (snd (exec_instr hw vm ctx)) = true /\
  pc (fst (exec_instr hw vm ctx)) = pc vm + 1 /\
  pc (fst (exec_instr hw vm ctx)) <> pc vm.
Proof.
  intros Hpc Hop Hid Hkey Hwait.
  unfold platform_io_is_waiting_for_input in Hwait.
  rewrite Hkey, andb_true_r in Hwait.
  assert (Hexec : exec_instr hw vm ctx
                  = (set_pc vm (pc vm + 1), set_waiting ctx true)).
  { rewrite exec_IO by (lia || exact Hop). cbv zeta.
    destruct vm as [m p s bpv r e]. vm_simpl. vm_norm.
    rewrite (u16_small (p + 1)) by lia. rewrite Hid.
    unfold handle_platform_io.
    change (IO_READ_CHAR =? IO_EXIT) with false.
    change (IO_READ_CHAR =? IO_PRINT_CHAR) with false.
    change (IO_READ_CHAR =? IO_READ_CHAR) with true.
    cbv iota. rewrite Hwait. cbn [negb]. vm_norm.
    rewrite (u16_small (p + 1 + 1)) by lia.
    replace (p + 1 + 1 - 1) with (p + 1) by lia.
    rewrite (u16_small (p + 1)) by lia. reflexivity. }
  rewrite Hexec. vm_simpl.
  split; [reflexivity | split; [reflexivity | split; [reflexivity | lia]]].
Qed.

Lemma read_char_rewinds_to_operand_witness :
  exec_instr x86_host (loaded [33; 2; 0; 1]) platform_io_init
  = (set_pc (loaded [33; 2; 0; 1]) 1, set_waiting platform_io_init true).
Proof.
  apply (read_char_rewinds_to_operand x86_host (loaded [33; 2; 0; 1])
           platform_io_init); try reflexivity.
  vm_compute. split; [discriminate | reflexivity].
Defined.

(** The run of [IO 0x02; NOP; HALT] in which the key [A] arrives in the
    third iteration: the engine resumes at the operand byte [0x02], which
    it executes as [PUSH] with the [NOP] byte as operand, and halts with 0
    on the stack; the key is never read and the host is still waiting. *)
Lemma read_char_never_reads_the_key :
  exists vm' ctx',
    run_vm x86_host [[]; []; [SDL_KEYDOWN 65]; []] (loaded [33; 2; 0; 1])
           platform_io_init
    = Some (VM_ERROR_HALT, vm', ctx') /\
    depth vm' = 1 /\ top_of_stack vm' = 0 /\
    last_key ctx' = 65 /\ key_available ctx' = true /\
    waiting_for_input ctx' = true.
Proof.
  eexists _, _. split; [vm_compute; reflexivity |].
  vm_compute. repeat split; reflexivity.
Qed.

(** *** C6: the exit status of the engine *)

Lemma load_program_ok bytes :
  bytes <> [] -> fst (load_program (snd init_vm) (Some bytes)) = VM_OK.
Proof.
  intros H. unfold load_program.
  destruct bytes as [| b bytes]; [contradiction |].
  cbn [fread]. change (VM_MEMORY_SIZE <=? 0) with false. cbv iota.
  cbn [length]. rewrite Nat2Z.inj_succ.
  destruct (Z.eqb_spec (Z.succ (Z.of_nat (length (fread (VM_MEMORY_SIZE - 1)
                                                        bytes)))) 0)
    as [E | _]; [lia | reflexivity].
Qed.

Lemma load_program_nil vm :
  fst (load_program vm (Some [])) = VM_ERROR_INVALID_ADDRESS.
Proof. reflexivity. Qed.

(** C6, as the code has it.  Once the image is loaded, the exit status is
    0 for every outcome of the run: [HALT], host shutdown, and each of the
    error kinds alike.  The status is 1 only when the engine does not get
    to run: wrong argument count, no platform context, or a program file
    that cannot be opened or is empty. *)
Theorem exit_status_ignores_run_error (hw : host_t) (argc : Z)
    (platform_ok : bool) (file : option (list Z))
    (events : list (list sdl_event)) :
  (forall bytes outcome,
      argc = 2 -> platform_ok = true -> file = Some bytes -> bytes <> [] ->
      run_vm hw events (loaded bytes) platform_io_init = Some outcome ->
      Kxn.main hw argc platform_ok file events = Some 0) /\
  (argc <> 2 \/ platform_ok = false \/ file = None \/ file = Some [] ->
   Kxn.main hw argc platform_ok file events = Some 1).
Proof.
  split.
  - intros bytes outcome -> -> -> Hne Hrun. unfold Kxn.main.
    cbn [Z.eqb Pos.eqb negb init_vm vm_error_eqb].
    pose proof (load_program_ok bytes Hne) as Hload.
    unfold loaded in Hrun. cbn [init_vm snd] in Hrun, Hload.
    destruct (load_program _ (Some bytes)) as [err vm1].
    cbn [fst snd] in *. subst err. cbn [vm_error_eqb negb].
    now rewrite Hrun.
  - intros H. unfold Kxn.main.
    destruct (Z.eqb_spec argc 2) as [-> | Hne]; [| reflexivity].
    cbn [negb init_vm vm_error_eqb].
    destruct platform_ok; [| reflexivity]. cbn [negb].
    destruct H as [H | [H | [-> | ->]]];
      [contradiction | discriminate | reflexivity |].
    pose proof (load_program_nil (snd init_vm)) as Hload.
    cbn [init_vm snd] in Hload.
    destruct (load_program _ (Some [])) as [err vm1].
    cbn [fst] in Hload. subst err. reflexivity.
Qed.

Lemma exit_status_ignores_run_error_witness :
  Kxn.main x86_host 2 true (Some [1]) [[]] = Some 0 /\
  Kxn.main x86_host 2 true None [[]] = Some 1.
Proof.
  destruct (exit_status_ignores_run_error x86_host 2 true (Some [1]) [[]])
    as [H0 _].
  destruct (exit_status_ignores_run_error x86_host 2 true None [[]])
    as [_ H1].
  split.
  - apply (H0 [1] (VM_ERROR_HALT,
                   fst (exec_instr x86_host (loaded [1]) platform_io_init),
                   platform_io_init)); try reflexivity. discriminate.
  - apply H1. right. right. left. reflexivity.
Defined.

(** C6 as stated fails: [PUSH 5; PUSH 0; DIV; HALT] ends the run with
    [DIVISION_BY_ZERO], and an image holding the unknown opcode [0xFF]
    with [INVALID_OPCODE], and the exit status is 0 both times. *)
Lemma exit_status_zero_on_fault :
  (exists vm' ctx',
      run_vm x86_host [[]; []; []] (loaded [2; 5; 2; 0; 9; 1])
             platform_io_init
      = Some (VM_ERROR_DIVISION_BY_ZERO, vm', ctx')) /\
  Kxn.main x86_host 2 true (Some [2; 5; 2; 0; 9; 1]) [[]; []; []] = Some 0 /\
  (exists vm' ctx',
      run_vm x86_host [[]] (loaded [255]) platform_io_init
      = Some (VM_ERROR_INVALID_OPCODE, vm', ctx')) /\
  Kxn.main x86_host 2 true (Some [255]) [[]] = Some 0.
Proof.
  split; [eexists _, _; vm_compute; reflexivity |].
  split; [vm_compute; reflexivity |].
  split; [eexists _, _; vm_compute; reflexivity |].
  vm_compute; reflexivity.
Qed.

(** ** The assembler *)

Lemma patch_label_labels st ref : labels (patch_label st ref) = labels st.
Proof. unfold patch_label. now destruct (find_label (labels st) ref.1). Qed.

Lemma patch_label_keeps_messages st ref m :
  In m (printed st) -> In m (printed (patch_label st ref)).
Proof.
  intros H. unfold patch_label.
  destruct (find_label (labels st) ref.1); cbn; [exact H |].
  apply in_or_app. now left.
Qed.

Lemma patch_labels_keep_messages refs :
  forall st m, In m (printed st) ->
               In m (printed (fold_left patch_label refs st)).
Proof.
  induction refs as [| ref refs IH]; intros st m H; [exact H |].
  cbn [fold_left]. apply IH. now apply patch_label_keeps_messages.
Qed.

Lemma patch_labels_labels refs :
  forall st, labels (fold_left patch_label refs st) = labels st.
Proof.
  induction refs as [| ref refs IH]; intros st; [reflexivity |].
  cbn [fold_left]. now rewrite IH, patch_label_labels.
Qed.

(** Every reference without a label is reported. *)
Lemma patch_labels_report refs :
  forall st name pos,
    In (name, pos) refs -> find_label (labels st) name = None ->
    In (Undefined_label name) (printed (fold_left patch_label refs st)).
Proof.
  induction refs as [| ref refs IH]; intros st name pos Hin Hnone;
    [contradiction |].
  cbn [fold_left]. destruct Hin as [-> | Hin].
  - apply patch_labels_keep_messages. unfold patch_label. cbn [fst].
    rewrite Hnone. cbn. apply in_or_app. right. now left.
  - apply (IH _ name pos Hin). now rewrite patch_label_labels.
Qed.

(** The output after patching depends on the labels and on the output
    only, and a reference without a label changes neither. *)
Lemma patch_labels_output refs :
  forall st st',
    labels st = labels st' -> output st = output st' ->
    output (fold_left patch_label refs st)
    = output (fold_left patch_label (List.filter (resolved st') refs) st').
Proof.
  induction refs as [| ref refs IH]; intros st st' Hl Ho; [exact Ho |].
  cbn [fold_left List.filter]. unfold resolved at 1.
  destruct (find_label (labels st') ref.1) as [addr |] eqn:Hfind.
  - cbn [fold_left].
    rewrite (IH (patch_label st ref) (patch_label st' ref)).
    + f_equal. f_equal. apply filter_ext. intros r. unfold resolved.
      now rewrite patch_label_labels.
    + now rewrite !patch_label_labels.
    + unfold patch_label. rewrite Hl, Hfind. cbn. now rewrite Ho.
  - apply IH.
    + now rewrite patch_label_labels.
    + unfold patch_label. rewrite Hl, Hfind. exact Ho.
Qed.

(** *** C5: the exit status of the assembler *)

(** Patching moves neither the position nor a cell outside the two cells
    of each reference. *)
Lemma patch_labels_output_pos refs :
  forall st, output_pos (fold_left patch_label refs st) = output_pos st.
Proof.
  induction refs as [| ref refs IH]; intros st; [reflexivity |].
  cbn [fold_left]. rewrite IH. unfold patch_label.
  now destruct (find_label (labels st) ref.1).
Qed.

Lemma patch_labels_outside refs k :
  forall st,
    Forall (fun r => k <> snd r /\ k <> snd r + 1) refs ->
    output (fold_left patch_label refs st) !! k = output st !! k.
Proof.
  induction refs as [| r refs IH]; intros st H; [reflexivity |].
  apply Forall_cons in H as [[H0 H1] H]. cbn [fold_left].
  rewrite IH by exact H. unfold patch_label.
  destruct (find_label (labels st) r.1); [| reflexivity].
  cbn [output]. now rewrite !lookup_insert_ne by congruence.
Qed.

(** C5, as the code has it.  When both files can be opened the exit
    status is 0 whether or not every label is defined.  Each recorded
    reference to an undefined label is reported ([add_label_ref] records
    the first [MAX_LABELS] references and drops the others without a
    message).  Patching does not move the position: the bytes written are
    the [output_pos] bytes of pass one, with the two cells of each resolved
    reference patched and every other cell, placeholders included, as
    pass one left it.  The status is 1 only for a wrong argument count or
    a file that cannot be opened.  This holds whatever the library's
    [strcpy] makes of a labelled line.  (Stated for runs in which no store
    overran a C array, see [overrun].) *)
Theorem assembler_exit_status (lc : libc_t) (argc : Z)
    (source : option string) (can_create : bool) :
  let result := Kxasm.main lc argc source can_create in
  let status := fst (fst result) in
  let written := snd (fst result) in
  let final := snd result in
  (forall text,
      argc = 3 -> source = Some text -> can_create = true ->
      overrun final = false ->
      let pass1 := assemble_lines lc asm_init (source_lines text) 0 in
      status = 0 /\
      output_pos final = output_pos pass1 /\
      written
      = Some (map (mem_read (output final)) (seqZ 0 (output_pos pass1))) /\
      output final
      = output (fold_left patch_label
                          (List.filter (resolved pass1) (label_refs pass1))
                          pass1) /\
      (forall a,
          (forall name pos,
              In (name, pos) (label_refs pass1) ->
              resolved pass1 (name, pos) = true ->
              a <> pos /\ a <> pos + 1) ->
          output final !! a = output pass1 !! a) /\
      forall name pos,
        In (name, pos) (label_refs pass1) ->
        find_label (labels pass1) name = None ->
        In (Undefined_label name) (printed final)) /\
  (argc <> 3 \/ source = None \/ can_create = false ->
   status = 1 /\ written = None).
Proof.
  intros result status written final.
  subst status written final result. split.
  - intros text -> -> -> _ pass1. unfold Kxasm.main, assemble_file.
    cbn [Z.eqb Pos.eqb negb fst snd]. fold pass1.
    assert (Hpos : output_pos (patch_labels pass1) = output_pos pass1)
      by apply patch_labels_output_pos.
    assert (Hout : output (patch_labels pass1)
                   = output (fold_left patch_label
                               (List.filter (resolved pass1)
                                            (label_refs pass1)) pass1))
      by now apply patch_labels_output.
    split; [reflexivity |]. cbn [output output_pos say printed].
    split; [exact Hpos |].
    split; [unfold output_image; now rewrite Hpos |].
    split; [exact Hout |]. split.
    + intros a Ha. rewrite Hout. apply patch_labels_outside.
      apply Forall_forall. intros [name pos] Hin.
      apply list_elem_of_In, filter_In in Hin as [Hin Hres].
      cbn [snd]. now apply (Ha name pos).
    + intros name pos Hin Hnone.
      apply in_or_app. left. unfold patch_labels.
      now apply (patch_labels_report _ _ name pos).
  - intros H. unfold Kxasm.main.
    destruct (Z.eqb_spec argc 3) as [-> | Hne]; [| split; reflexivity].
    cbn [negb]. destruct H as [H | [-> | ->]]; [contradiction | |].
    + split; reflexivity.
    + destruct source; cbn; split; reflexivity.
Qed.

Lemma assembler_exit_status_witness :
  let result :=
    Kxasm.main bytewise_libc 3
      (Some ("PUSH 1" ++ newline ++ "top:" ++ newline ++ "PUSH 1" ++ newline
             ++ "JNZ top" ++ newline ++ "JMP end" ++ newline)%string) true in
  fst (fst result) = 0 /\
  snd (fst result) = Some [2; 1; 2; 1; 30; 2; 0; 28; 0; 0] /\
  In (Undefined_label "end") (printed (snd result)).
Proof.
  intros result.
  destruct (assembler_exit_status bytewise_libc 3
              (Some ("PUSH 1" ++ newline ++ "top:" ++ newline ++ "PUSH 1"
                     ++ newline ++ "JNZ top" ++ newline ++ "JMP end"
                     ++ newline)%string) true) as [H _].
  destruct (H ("PUSH 1" ++ newline ++ "top:" ++ newline ++ "PUSH 1"
               ++ newline ++ "JNZ top" ++ newline ++ "JMP end"
               ++ newline)%string)
    as (Hstatus & _ & Hwritten & _ & _ & Hreport); try reflexivity.
  split; [exact Hstatus | split; [exact Hwritten |]].
  apply (Hreport "end"%string 8); [| reflexivity].
  vm_compute. right. left. reflexivity.
Defined.

(** [add_label_ref] drops a reference without a message once the table
    holds [MAX_LABELS] of them: such a reference is neither patched nor
    reported. *)
Lemma reference_table_full st name pos :
  MAX_LABELS <= Z.of_nat (length (label_refs st)) ->
  add_label_ref st name pos = st.
Proof.
  intros H. unfold add_label_ref.
  destruct (Z.ltb_spec (Z.of_nat (length (label_refs st))) MAX_LABELS);
    [lia | reflexivity].
Qed.

(** The one-line source [JMP nowhere] refers to a label that is never
    defined: the assembler prints the error, writes the opcode and the two
    placeholder bytes, and exits with status 0, whatever the library. *)
Lemma undefined_label_exits_zero (lc : libc_t) :
  let result :=
    Kxasm.main lc 3 (Some ("JMP nowhere" ++ newline)%string) true in
  fst (fst result) = 0 /\
  fst (fst result) <> 1 /\
  snd (fst result) = Some [28; 0; 0] /\
  printed (snd result) = [Undefined_label "nowhere"; Assembly_complete 3] /\
  overrun (snd result) = false.
Proof. vm_compute. repeat split; congruence. Qed.

(** * Further properties of the engine *)

(** ** Sixteen-bit memory access *)

Lemma split_word x :
  u16 x = Z.land x 0xFF + 256 * Z.land (Z.shiftr x 8) 0xFF.
Proof.
  change 0xFF with (Z.ones 8). rewrite !Z.land_ones by lia.
  rewrite Z.shiftr_div_pow2 by lia. change (2 ^ 8) with 256.
  unfold u16. change 65536 with (256 * 256).
  rewrite Z.rem_mul_r by lia. reflexivity.
Qed.

Lemma lor_bytes lo hi :
  0 <= lo < 256 -> 0 <= hi < 256 ->
  Z.lor lo (Z.shiftl hi 8) = lo + 256 * hi.
Proof.
  intros Hlo Hhi.
  pose proof (split_return_address (lo + 256 * hi)) as H.
  assert (Hl : Z.land (lo + 256 * hi) 0xFF = lo).
  { change 0xFF with (Z.ones 8). rewrite Z.land_ones by lia.
    change (2 ^ 8) with 256.
    replace (lo + 256 * hi) with (lo + hi * 256) by lia.
    rewrite Z.mod_add by lia. apply Z.mod_small. lia. }
  assert (Hh : Z.land (Z.shiftr (lo + 256 * hi) 8) 0xFF = hi).
  { change 0xFF with (Z.ones 8). rewrite Z.land_ones by lia.
    rewrite Z.shiftr_div_pow2 by lia. change (2 ^ 8) with 256.
    replace (lo + 256 * hi) with (lo + hi * 256) by lia.
    rewrite Z.div_add by lia. rewrite (Z.div_small lo) by lia.
    apply Z.mod_small. lia. }
  rewrite Hl, Hh in H. rewrite Z.lor_comm. apply H. lia.
Qed.

(** X1.  [vm_write16] followed by [vm_read16] at the same address below
    [0xFFFF] gives back the low sixteen bits of the value, stored low
    byte first, without touching the error slot; at address [0xFFFF] and
    above both functions record [INVALID_ADDRESS] and leave memory as it
    is. *)
Theorem write16_read16 (vm : vm_t) (addr value : Z) :
  (0 <= addr < 0xFFFF ->
   let vm' := vm_write16 vm addr value in
   vm_read16 vm' addr = (u16 value, vm') /\
   mem_read (memory vm') addr = Z.land value 0xFF /\
   mem_read (memory vm') (addr + 1) = Z.land (Z.shiftr value 8) 0xFF /\
   error vm' = error vm) /\
  (0xFFFF <= addr ->
   vm_write16 vm addr value = set_error vm VM_ERROR_INVALID_ADDRESS /\
   vm_read16 vm addr = (0, set_error vm VM_ERROR_INVALID_ADDRESS)).
Proof.
  split.
  - intros Ha vm'. subst vm'. unfold vm_write16, vm_read16, VM_MEMORY_SIZE.
    destruct (Z.geb_spec addr (65536 - 1)) as [? | _]; [lia |].
    cbn [memory set_memory error].
    rewrite mem_read_insert_ne, !mem_read_insert by lia.
    pose proof (low_byte_range value) as Hlo.
    pose proof (low_byte_range (Z.shiftr value 8)) as Hhi.
    rewrite !u8_small by assumption.
    rewrite lor_bytes by assumption.
    rewrite <- split_word.
    rewrite (u16_small (u16 value)) by (apply Z.mod_pos_bound; lia).
    repeat split; reflexivity.
  - intros Ha. unfold vm_write16, vm_read16, VM_MEMORY_SIZE.
    destruct (Z.geb_spec addr (65536 - 1)) as [_ | ?]; [| lia].
    split; reflexivity.
Qed.

Lemma write16_read16_witness :
  fst (vm_read16 (vm_write16 (snd init_vm) 0x0100 0x1234) 0x0100) = 0x1234 /\
  error (vm_write16 (snd init_vm) 0xFFFF 0x1234) = VM_ERROR_INVALID_ADDRESS.
Proof.
  destruct (write16_read16 (snd init_vm) 0x0100 0x1234) as [H _].
  destruct (write16_read16 (snd init_vm) 0xFFFF 0x1234) as [_ H'].
  destruct (H ltac:(lia)) as (Hr & _).
  destruct (H' ltac:(lia)) as (Hw & _).
  split; [now rewrite Hr | now rewrite Hw].
Defined.

(** ** Loading an image *)

Lemma fread_lookup bytes :
  forall count n,
    fread count bytes !! n =
    if Z.of_nat n <? count then bytes !! n else None.
Proof.
  induction bytes as [| b bytes IH]; intros count n.
  - cbn. now destruct (Z.of_nat n <? count).
  - cbn [fread]. destruct (Z.leb_spec count 0) as [Hc | Hc].
    + destruct (Z.ltb_spec (Z.of_nat n) count); [lia | reflexivity].
    + destruct n as [| n]; cbn [lookup list_lookup].
      * destruct (Z.ltb_spec (Z.of_nat 0) count); [reflexivity | lia].
      * change (fread (count - 1) bytes !! n =
                if Z.of_nat (S n) <? count then bytes !! n else None).
        rewrite IH.
        destruct (Z.ltb_spec (Z.of_nat n) (count - 1));
          destruct (Z.ltb_spec (Z.of_nat (S n)) count); reflexivity || lia.
Qed.

Lemma fread_length bytes :
  forall count, 0 <= count -> Z.of_nat (length (fread count bytes)) <= count.
Proof.
  induction bytes as [| b bytes IH]; intros count Hc; [cbn; lia |].
  cbn [fread]. destruct (Z.leb_spec count 0); [cbn; lia |].
  cbn [length]. specialize (IH (count - 1)). lia.
Qed.

Lemma store_bytes_outside bytes :
  forall m a i,
    i < a \/ a + Z.of_nat (length bytes) <= i ->
    mem_read (store_bytes m a bytes) i = mem_read m i.
Proof.
  induction bytes as [| b bytes IH]; intros m a i Hi; [reflexivity |].
  cbn [store_bytes length] in *. rewrite IH by lia.
  apply mem_read_insert_ne. lia.
Qed.

Lemma store_bytes_inside bytes :
  forall m a n b,
    bytes !! n = Some b ->
    mem_read (store_bytes m a bytes) (a + Z.of_nat n) = u8 b.
Proof.
  induction bytes as [| b0 bytes IH]; intros m a n b Hn; [discriminate |].
  cbn [store_bytes]. destruct n as [| n].
  - injection Hn as ->. rewrite store_bytes_outside by lia.
    replace (a + Z.of_nat 0) with a by lia.
    now rewrite mem_read_insert, u8_u8.
  - replace (a + Z.of_nat (S n)) with (a + 1 + Z.of_nat n) by lia.
    now apply IH.
Qed.

(** X2.  After [init_vm] and [load_program] every byte of the file within
    the first 65 536 is read back at its offset, all memory past the end
    of the file reads 0, nothing is stored at an address of 65 536 or
    more, and the registers are those of [init_vm].  A file that cannot be
    opened or is empty gives [INVALID_ADDRESS]. *)
Theorem load_program_image (image : list Z) :
  let r := load_program (snd init_vm) (Some image) in
  (forall n b, image !! n = Some b -> Z.of_nat n < VM_MEMORY_SIZE ->
               fst r = VM_OK /\
               mem_read (memory (snd r)) (Z.of_nat n) = u8 b) /\
  (forall i, Z.of_nat (length image) <= i \/ VM_MEMORY_SIZE <= i \/ i < 0 ->
             mem_read (memory (snd r)) i = 0) /\
  (pc (snd r) = 0 /\ sp (snd r) = 0xFFFF /\ bp (snd r) = 0xFFFF /\
   running (snd r) = true /\ error (snd r) = VM_OK) /\
  fst (load_program (snd init_vm) None) = VM_ERROR_INVALID_ADDRESS /\
  fst (load_program (snd init_vm) (Some [])) = VM_ERROR_INVALID_ADDRESS.
Proof.
  intros r.
  assert (Hmem : memory (snd r)
                 = store_bytes ∅ 0 (fread VM_MEMORY_SIZE image)).
  { subst r. unfold load_program. cbv zeta.
    destruct (Z.of_nat (length (fread VM_MEMORY_SIZE image)) =? 0);
      reflexivity. }
  split; [| split; [| split; [| split; reflexivity]]].
  - intros n b Hn Hlt. split.
    + apply load_program_ok. intros ->. discriminate Hn.
    + rewrite Hmem.
      apply (store_bytes_inside _ ∅ 0 n b).
      rewrite fread_lookup.
      destruct (Z.ltb_spec (Z.of_nat n) VM_MEMORY_SIZE); [exact Hn | lia].
  - intros i Hi. rewrite Hmem.
    destruct (Z.lt_ge_cases i 0) as [Hneg | Hpos].
    { now rewrite store_bytes_outside by lia. }
    destruct (Z.le_gt_cases VM_MEMORY_SIZE i) as [Hbig | Hsmall].
    { rewrite store_bytes_outside; [reflexivity |].
      pose proof (fread_length image VM_MEMORY_SIZE). right.
      unfold VM_MEMORY_SIZE in *. lia. }
    assert (Hlen : Z.of_nat (length image) <= i) by lia.
    destruct (Z.lt_ge_cases i (Z.of_nat (length (fread VM_MEMORY_SIZE image))))
      as [Hin | Hout].
    + exfalso.
      assert (Hl : is_Some (fread VM_MEMORY_SIZE image !! Z.to_nat i)).
      { apply lookup_lt_is_Some. lia. }
      rewrite fread_lookup in Hl.
      destruct (Z.of_nat (Z.to_nat i) <? VM_MEMORY_SIZE);
        [| now destruct Hl].
      apply lookup_lt_is_Some in Hl. lia.
    + now rewrite store_bytes_outside by lia.
  - subst r. unfold load_program. cbv zeta.
    destruct (Z.of_nat (length (fread VM_MEMORY_SIZE image)) =? 0);
      repeat split; reflexivity.
Qed.

Lemma load_program_image_witness :
  mem_read (memory (loaded [2; 5; 2; 7; 6; 33; 0])) 4 = 6 /\
  mem_read (memory (loaded [2; 5; 2; 7; 6; 33; 0])) 7 = 0.
Proof.
  destruct (load_program_image [2; 5; 2; 7; 6; 33; 0]) as (Hin & Hout & _).
  split.
  - destruct (Hin 4%nat 6) as [_ H]; [reflexivity | reflexivity |]. exact H.
  - apply Hout. left. cbn. lia.
Defined.

(** ** The registers *)

Lemma u16_range x : 0 <= u16 x < 65536.
Proof. unfold u16. apply Z.mod_pos_bound. lia. Qed.

Section Frame.
Variable vm0 : vm_t.

Lemma push_keeps vm v : frame_kept vm0 vm -> frame_kept vm0 (vm_push vm v).
Proof.
  intros [[Hpc Hsp] Hbp]. unfold VM_STACK_TOP in Hsp. unfold vm_push.
  destruct (Z.eqb_spec (sp vm) 0) as [E | E].
  - unfold frame_kept, regs_ok, VM_STACK_TOP. vm_norm.
    repeat split; assumption || lia.
  - unfold frame_kept, regs_ok, VM_STACK_TOP. vm_norm.
    rewrite u16_small by lia. repeat split; assumption || lia.
Qed.

Lemma pop_keeps vm : frame_kept vm0 vm -> frame_kept vm0 (snd (vm_pop vm)).
Proof.
  intros [[Hpc Hsp] Hbp]. unfold VM_STACK_TOP in Hsp.
  unfold vm_pop, VM_STACK_TOP.
  destruct (Z.geb_spec (sp vm) 65535) as [E | E].
  - unfold frame_kept, regs_ok, VM_STACK_TOP. vm_norm.
    repeat split; assumption || lia.
  - unfold frame_kept, regs_ok, VM_STACK_TOP. vm_norm.
    rewrite u16_small by lia. repeat split; assumption || lia.
Qed.

Lemma read16_keeps vm a :
  frame_kept vm0 vm ->
  0 <= fst (vm_read16 vm a) < 65536 /\ frame_kept vm0 (snd (vm_read16 vm a)).
Proof.
  intros H. unfold vm_read16.
  destruct (a >=? VM_MEMORY_SIZE - 1); cbn [fst snd].
  - split; [lia | exact H].
  - split; [apply u16_range | exact H].
Qed.

Lemma pop_addr_keeps vm :
  frame_kept vm0 vm ->
  0 <= fst (pop_addr vm) < 65536 /\ frame_kept vm0 (snd (pop_addr vm)).
Proof.
  intros H. unfold pop_addr.
  pose proof (pop_keeps vm H) as H1. destruct (vm_pop vm) as [lo vm1].
  pose proof (pop_keeps vm1 H1) as H2. destruct (vm_pop vm1) as [hi vm2].
  cbn [fst snd] in *. split; [apply u16_range | exact H2].
Qed.

Lemma set_pc_keeps vm a :
  frame_kept vm0 vm -> 0 <= a < 65536 -> frame_kept vm0 (set_pc vm a).
Proof.
  intros [[Hpc Hsp] Hbp] Ha. unfold frame_kept, regs_ok. vm_norm.
  repeat split; assumption || lia.
Qed.

Lemma set_error_keeps vm e :
  frame_kept vm0 vm -> frame_kept vm0 (set_error vm e).
Proof. intros H. exact H. Qed.

Lemma set_running_keeps vm r :
  frame_kept vm0 vm -> frame_kept vm0 (set_running vm r).
Proof. intros H. exact H. Qed.

Lemma set_memory_keeps vm m :
  frame_kept vm0 vm -> frame_kept vm0 (set_memory vm m).
Proof. intros H. exact H. Qed.

End Frame.

Ltac frame_close :=
  cbn [fst snd];
  repeat match goal with
         | |- _ => assumption
         | |- 0 <= u16 _ < 65536 => apply u16_range
         | |- frame_kept _ (vm_push _ _) => apply push_keeps
         | |- frame_kept _ (set_pc _ _) => apply set_pc_keeps
         | |- frame_kept _ (set_error _ _) => apply set_error_keeps
         | |- frame_kept _ (set_running _ _) => apply set_running_keeps
         | |- frame_kept _ (set_memory _ _) => apply set_memory_keeps
         | |- frame_kept _ (snd (vm_pop _)) => apply pop_keeps
         end.

(** Name what the calls in front of the goal return, with the frame they
    keep. *)
Ltac frame_step vm0 :=
  match goal with
  | |- context [vm_pop ?v] =>
      let H := fresh "Hk" in
      assert (H : frame_kept vm0 (snd (vm_pop v)))
        by (apply pop_keeps; frame_close);
      destruct (vm_pop v) as [? ?]; cbn [fst snd] in H
  | |- context [vm_read16 ?v ?a] =>
      let H := fresh "Hk" in
      let Ha := fresh "Ha" in
      assert (Ha : 0 <= fst (vm_read16 v a) < 65536 /\
                   frame_kept vm0 (snd (vm_read16 v a)))
        by (apply read16_keeps; frame_close);
      destruct Ha as [Ha H];
      destruct (vm_read16 v a) as [? ?]; cbn [fst snd] in H, Ha
  | |- context [pop_addr ?v] =>
      let H := fresh "Hk" in
      let Ha := fresh "Ha" in
      assert (Ha : 0 <= fst (pop_addr v) < 65536 /\
                   frame_kept vm0 (snd (pop_addr v)))
        by (apply pop_addr_keeps; frame_close);
      destruct Ha as [Ha H];
      destruct (pop_addr v) as [? ?]; cbn [fst snd] in H, Ha
  | |- context [if ?c then _ else _] => destruct c
  end.

Lemma handle_platform_io_keeps vm0 vm ctx io_id :
  frame_kept vm0 vm ->
  frame_kept vm0 (snd (fst (handle_platform_io vm ctx io_id))).
Proof.
  intros H. unfold handle_platform_io.
  repeat frame_step vm0; frame_close.
Qed.

Lemma dispatch_keeps hw vm0 opcode vm ctx :
  frame_kept vm0 vm -> frame_kept vm0 (fst (dispatch hw opcode vm ctx)).
Proof.
  intros H. unfold dispatch, exec_binop, exec_divop, exec_unop. cbv zeta.
  repeat match goal with
         | |- context [if opcode =? ?c then _ else _] =>
             destruct (opcode =? c)
         end.
  all: try (repeat frame_step vm0; frame_close; fail).
  pose proof (handle_platform_io_keeps vm0
                (set_pc vm (u16 (pc vm + 1))) ctx
                (mem_read (memory vm) (pc vm))) as Hio.
  destruct (handle_platform_io (set_pc vm (u16 (pc vm + 1))) ctx
              (mem_read (memory vm) (pc vm))) as [[io_error vm2] ctx'].
  cbn [fst snd] in Hio.
  assert (Hvm2 : frame_kept vm0 vm2) by (apply Hio; frame_close).
  destruct io_error; frame_close.
Qed.

Lemma exec_instr_keeps hw vm ctx :
  regs_ok vm -> frame_kept vm (fst (exec_instr hw vm ctx)).
Proof.
  intros H. assert (H0 : frame_kept vm vm) by (split; [exact H | reflexivity]).
  unfold exec_instr. destruct (pc vm >=? VM_MEMORY_SIZE).
  - exact H0.
  - apply dispatch_keeps. unfold after_fetch.
    apply set_pc_keeps; [exact H0 | apply u16_range].
Qed.

(** X3.  No instruction takes [pc] or [sp] out of the 16-bit range, and no
    instruction, host operation included, changes [bp]. *)
Theorem exec_instr_keeps_registers (hw : host_t) (vm : vm_t)
    (ctx : platform_io_context_t) :
  regs_ok vm ->
  regs_ok (fst (exec_instr hw vm ctx)) /\
  bp (fst (exec_instr hw vm ctx)) = bp vm.
Proof. intros H. exact (exec_instr_keeps hw vm ctx H). Qed.

Lemma exec_instr_keeps_registers_witness :
  regs_ok (fst (exec_instr x86_host (loaded [32]) platform_io_init)) /\
  bp (fst (exec_instr x86_host (loaded [32]) platform_io_init)) = 0xFFFF.
Proof.
  apply (exec_instr_keeps_registers x86_host (loaded [32]) platform_io_init).
  vm_compute. repeat split; discriminate.
Defined.

(** ** The loop *)

Lemma is_fault_not_ok e : is_fault e = true -> vm_error_eqb e VM_OK = false.
Proof. now destruct e. Qed.

Lemma run_vm_returns_frame hw vm0 events :
  forall vm ctx e vm' ctx',
    frame_kept vm0 vm ->
    run_vm hw events vm ctx = Some (e, vm', ctx') ->
    e = error vm' /\
    running vm' && vm_error_eqb (error vm') VM_OK = false /\
    frame_kept vm0 vm'.
Proof.
  induction events as [| pending later IH]; intros vm ctx e vm' ctx' Hk Hrun.
  - cbn [run_vm] in Hrun.
    destruct (running vm && vm_error_eqb (error vm) VM_OK) eqn:Hloop;
      [discriminate |].
    injection Hrun as <- <- <-. repeat split; assumption || apply Hk.
  - cbn [run_vm] in Hrun.
    destruct (running vm && vm_error_eqb (error vm) VM_OK) eqn:Hloop.
    + destruct (platform_io_process_events pending ctx) as [go_on ctx1].
      destruct go_on; cbn [negb] in Hrun.
      * destruct (platform_io_is_waiting_for_input ctx1).
        { exact (IH vm ctx1 e vm' ctx' Hk Hrun). }
        pose proof (exec_instr_keeps hw vm ctx1 (proj1 Hk)) as [Hregs Hbp].
        destruct (exec_instr hw vm ctx1) as [vm1 ctx2]. cbn [fst] in *.
        assert (Hk1 : frame_kept vm0 vm1).
        { split; [exact Hregs | rewrite Hbp; apply Hk]. }
        destruct (is_fault (error vm1)) eqn:Hfault.
        -- injection Hrun as <- <- <-.
           rewrite (is_fault_not_ok _ Hfault), andb_false_r.
           repeat split; assumption || apply Hk1.
        -- exact (IH vm1 ctx2 e vm' ctx' Hk1 Hrun).
      * injection Hrun as <- <- <-. repeat split; apply Hk.
    + injection Hrun as <- <- <-. repeat split; assumption || apply Hk.
Qed.

(** X4.  When [run_vm] returns, the status it returns is the error slot of
    the machine, the loop condition [running && error == VM_OK] is false,
    the registers are 16-bit values and [bp] is what it was at the
    start. *)
Theorem run_vm_returns (hw : host_t) (events : list (list sdl_event))
    (vm vm' : vm_t) (ctx ctx' : platform_io_context_t) (e : vm_error_t) :
  regs_ok vm ->
  run_vm hw events vm ctx = Some (e, vm', ctx') ->
  e = error vm' /\
  (running vm' = false \/ error vm' <> VM_OK) /\
  regs_ok vm' /\ bp vm' = bp vm.
Proof.
  intros Hregs Hrun.
  destruct (run_vm_returns_frame hw vm events vm ctx e vm' ctx')
    as (He & Hloop & Hk); [split; [exact Hregs | reflexivity] | exact Hrun |].
  split; [exact He | split; [| exact Hk]].
  destruct (running vm'); [right | now left].
  intros Hok. rewrite Hok in Hloop. discriminate Hloop.
Qed.

Lemma run_vm_returns_witness :
  exists vm' ctx',
    run_vm x86_host [[]; []; []; []] (loaded [2; 5; 2; 7; 6; 1])
           platform_io_init = Some (VM_ERROR_HALT, vm', ctx') /\
    VM_ERROR_HALT = error vm' /\ regs_ok vm' /\ bp vm' = 0xFFFF.
Proof.
  eexists _, _. split; [vm_compute; reflexivity |].
  match goal with
  | |- _ /\ regs_ok ?v /\ _ =>
      destruct (run_vm_returns x86_host [[]; []; []; []]
                  (loaded [2; 5; 2; 7; 6; 1]) v platform_io_init
                  platform_io_init VM_ERROR_HALT)
        as (He & _ & Hregs & Hbp)
  end.
  - vm_compute. repeat split; discriminate.
  - vm_compute. reflexivity.
  - split; [exact He | split; [exact Hregs | exact Hbp]].
Defined.

(** The iteration of [run_vm] that executes a stopping instruction. *)
Lemma run_vm_last_iteration hw pending later vm ctx0 ctx vm1 ctx1 :
  running vm = true -> error vm = VM_OK ->
  platform_io_process_events pending ctx0 = (true, ctx) ->
  platform_io_is_waiting_for_input ctx = false ->
  exec_instr hw vm ctx = (vm1, ctx1) ->
  running vm1 && vm_error_eqb (error vm1) VM_OK = false ->
  run_vm hw (pending :: later) vm ctx0 = Some (error vm1, vm1, ctx1).
Proof.
  intros Hrun Herr Hev Hwait Hexec Hstop.
  rewrite (run_vm_iteration hw pending later vm ctx0 ctx Hrun Herr Hev Hwait).
  rewrite Hexec. destruct (is_fault (error vm1)); [reflexivity |].
  now apply run_vm_stopped.
Qed.

(** X5.  A byte above [0x21] in opcode position changes nothing but [pc]
    and the error slot, which becomes [INVALID_OPCODE], and the run
    returns with that error in the same iteration. *)
Theorem invalid_opcode_stops (hw : host_t) (vm : vm_t)
    (ctx : platform_io_context_t) :
  0 <= pc vm < 65536 ->
  OP_IO < mem_read (memory vm) (pc vm) ->
  exec_instr hw vm ctx
  = (set_error (after_fetch vm) VM_ERROR_INVALID_OPCODE, ctx) /\
  forall pending later ctx0,
    running vm = true -> error vm = VM_OK ->
    platform_io_process_events pending ctx0 = (true, ctx) ->
    platform_io_is_waiting_for_input ctx = false ->
    run_vm hw (pending :: later) vm ctx0
    = Some (VM_ERROR_INVALID_OPCODE,
            set_error (after_fetch vm) VM_ERROR_INVALID_OPCODE, ctx).
Proof.
  intros Hpc Hop.
  assert (Hexec : exec_instr hw vm ctx
                  = (set_error (after_fetch vm) VM_ERROR_INVALID_OPCODE, ctx)).
  { rewrite exec_instr_dispatch by assumption.
    unfold OP_IO in Hop. unfold dispatch.
    repeat match goal with
           | |- context [if ?o =? ?c then _ else _] =>
               destruct (Z.eqb_spec o c) as [E | _];
               [exfalso; revert E; unfold c; lia |]
           end.
    reflexivity. }
  split; [exact Hexec |].
  intros pending later ctx0 Hrun Herr Hev Hwait.
  apply (run_vm_last_iteration hw pending later vm ctx0 ctx _ _
           Hrun Herr Hev Hwait Hexec).
  cbn. apply andb_false_r.
Qed.

Lemma invalid_opcode_stops_witness :
  run_vm x86_host [[]; []] (loaded [34]) platform_io_init
  = Some (VM_ERROR_INVALID_OPCODE,
          set_error (after_fetch (loaded [34])) VM_ERROR_INVALID_OPCODE,
          platform_io_init).
Proof.
  destruct (invalid_opcode_stops x86_host (loaded [34]) platform_io_init)
    as [_ H].
  - vm_compute. split; [discriminate | reflexivity].
  - reflexivity.
  - apply H; reflexivity.
Defined.

(** X6.  [HALT] clears [running], records [HALT] and ends the run in the
    same iteration, with memory and stack as they were and [pc] one past
    the opcode. *)
Theorem halt_stops (hw : host_t) (vm : vm_t) (ctx : platform_io_context_t) :
  0 <= pc vm < 65536 ->
  mem_read (memory vm) (pc vm) = OP_HALT ->
  let vm' := set_error (set_running (after_fetch vm) false) VM_ERROR_HALT in
  (memory vm' = memory vm /\ sp vm' = sp vm /\ pc vm' = u16 (pc vm + 1)) /\
  forall pending later ctx0,
    running vm = true -> error vm = VM_OK ->
    platform_io_process_events pending ctx0 = (true, ctx) ->
    platform_io_is_waiting_for_input ctx = false ->
    run_vm hw (pending :: later) vm ctx0 = Some (VM_ERROR_HALT, vm', ctx).
Proof.
  intros Hpc Hop vm'. split; [repeat split; reflexivity |].
  intros pending later ctx0 Hrun Herr Hev Hwait.
  assert (Hexec : exec_instr hw vm ctx = (vm', ctx)).
  { rewrite exec_instr_dispatch by assumption. rewrite Hop. reflexivity. }
  apply (run_vm_last_iteration hw pending later vm ctx0 ctx _ _
           Hrun Herr Hev Hwait Hexec).
  reflexivity.
Qed.

Lemma halt_stops_witness :
  run_vm x86_host [[]; []] (loaded [1]) platform_io_init
  = Some (VM_ERROR_HALT,
          set_error (set_running (after_fetch (loaded [1])) false)
                    VM_ERROR_HALT, platform_io_init).
Proof.
  destruct (halt_stops x86_host (loaded [1]) platform_io_init) as [_ H].
  - vm_compute. split; [discriminate | reflexivity].
  - reflexivity.
  - apply H; reflexivity.
Defined.

(** X7.  [IO 0x00] clears [running] and ends the run with the error slot
    still [VM_OK]: [run_vm] returns [VM_OK], not [HALT], with [pc] past
    the two bytes of the instruction. *)
Theorem io_exit_stops (hw : host_t) (vm : vm_t)
    (ctx : platform_io_context_t) :
  0 <= pc vm < 0xFFFF - 1 ->
  mem_read (memory vm) (pc vm) = OP_IO ->
  mem_read (memory vm) (pc vm + 1) = IO_EXIT ->
  let vm' := set_running (set_pc vm (pc vm + 2)) false in
  forall pending later ctx0,
    running vm = true -> error vm = VM_OK ->
    platform_io_process_events pending ctx0 = (true, ctx) ->
    platform_io_is_waiting_for_input ctx = false ->
    run_vm hw (pending :: later) vm ctx0 = Some (VM_OK, vm', ctx) /\
    error vm' = VM_OK /\ running vm' = false.
Proof.
  intros Hpc Hop Hid vm' pending later ctx0 Hrun Herr Hev Hwait.
  assert (Hexec : exec_instr hw vm ctx = (vm', ctx)).
  { rewrite exec_IO by (lia || exact Hop). cbv zeta.
    subst vm'. destruct vm as [m p s bpv r e]. vm_simpl. vm_norm.
    rewrite (u16_small (p + 1)) by lia. rewrite Hid.
    rewrite (u16_small (p + 1 + 1)) by lia.
    replace (p + 1 + 1) with (p + 2) by lia. reflexivity. }
  assert (He : error vm' = VM_OK) by exact Herr.
  split; [| split; [exact He | reflexivity]].
  rewrite <- He at 1.
  apply (run_vm_last_iteration hw pending later vm ctx0 ctx _ _
           Hrun Herr Hev Hwait Hexec).
  reflexivity.
Qed.

Lemma io_exit_stops_witness :
  run_vm x86_host [[]; []] (loaded [33; 0; 1]) platform_io_init
  = Some (VM_OK, set_running (set_pc (loaded [33; 0; 1]) 2) false,
          platform_io_init).
Proof.
  assert (Hpc : 0 <= pc (loaded [33; 0; 1]) < 0xFFFF - 1)
    by (vm_compute; split; [discriminate | reflexivity]).
  destruct (io_exit_stops x86_host (loaded [33; 0; 1]) platform_io_init
              Hpc eq_refl eq_refl [] [[]] platform_io_init
              eq_refl eq_refl eq_refl eq_refl) as [H _].
  exact H.
Defined.

(** ** The host event pump *)

Lemma process_events_spec pending :
  forall ctx,
    let r := platform_io_process_events pending ctx in
    fst r = negb (existsb is_quit pending) /\
    waiting_for_input (snd r) = waiting_for_input ctx /\
    pixels (snd r) = pixels ctx /\ screen (snd r) = screen ctx /\
    stdout (snd r) = stdout ctx /\
    (key_available ctx = true -> key_available (snd r) = true) /\
    (forallb quiet pending = true ->
     key_available (snd r) = key_available ctx /\
     last_key (snd r) = last_key ctx) /\
    (fst r = true -> existsb (fun ev => negb (quiet ev)) pending = true ->
     key_available (snd r) = true).
Proof.
  induction pending as [| ev pending IH]; intros ctx.
  - cbn. repeat split; try reflexivity; try discriminate. now intros H.
  - destruct ev as [| sym | x y st |]; cbn [platform_io_process_events].
    + cbn. repeat split; try reflexivity; try discriminate. now intros H.
    + specialize (IH (set_key ctx (Z.land sym 255) true)).
      cbv zeta in IH. destruct IH as (H1 & H2 & H3 & H4 & H5 & H6 & H7 & H8).
      cbn [existsb is_quit orb forallb quiet andb negb].
      repeat split; try assumption; try discriminate.
      * intros _. now apply H6.
      * intros _ _. now apply H6.
    + specialize (IH (set_mouse ctx (Z.quot x 2) (Z.quot y 2) (u8 st) true)).
      cbv zeta in IH. destruct IH as (H1 & H2 & H3 & H4 & H5 & H6 & H7 & H8).
      cbn [existsb is_quit orb forallb quiet andb negb].
      repeat split; try assumption; now apply H7.
    + specialize (IH ctx).
      cbv zeta in IH. destruct IH as (H1 & H2 & H3 & H4 & H5 & H6 & H7 & H8).
      cbn [existsb is_quit orb forallb quiet andb negb].
      repeat split; try assumption; now apply H7.
Qed.

(** X8.  [platform_io_process_events] tells the engine to stop exactly
    when the window was closed.  It never changes the waiting flag, the
    pixel buffer or what was printed, never clears a latched key, leaves
    the key state alone when no event is a key press or a close, and has
    a key latched whenever it consumed a key press. *)
Theorem process_events_latches (pending : list sdl_event)
    (ctx : platform_io_context_t) :
  let r := platform_io_process_events pending ctx in
  fst r = negb (existsb is_quit pending) /\
  waiting_for_input (snd r) = waiting_for_input ctx /\
  pixels (snd r) = pixels ctx /\ screen (snd r) = screen ctx /\
  stdout (snd r) = stdout ctx /\
  (key_available ctx = true -> key_available (snd r) = true) /\
  (forallb quiet pending = true ->
   key_available (snd r) = key_available ctx /\
   last_key (snd r) = last_key ctx) /\
  (fst r = true -> existsb (fun ev => negb (quiet ev)) pending = true ->
   key_available (snd r) = true).
Proof. exact (process_events_spec pending ctx). Qed.

Lemma process_events_latches_witness :
  let r := platform_io_process_events
             [SDL_MOUSE 10 20 1; SDL_KEYDOWN 0x141; SDL_OTHER]
             platform_io_init in
  fst r = true /\ key_available (snd r) = true /\ last_key (snd r) = 0x41.
Proof.
  destruct (process_events_latches
              [SDL_MOUSE 10 20 1; SDL_KEYDOWN 0x141; SDL_OTHER]
              platform_io_init) as (Hgo & _ & _ & _ & _ & _ & _ & Hkey).
  cbv zeta. split; [exact Hgo | split; [| reflexivity]].
  apply Hkey; reflexivity.
Defined.

(** X9.  When the window is closed the run ends in that iteration without
    fetching: [running] is cleared and the machine is otherwise as it was,
    error slot included. *)
Theorem host_shutdown_stops (hw : host_t) (pending : list sdl_event)
    (later : list (list sdl_event)) (vm : vm_t)
    (ctx : platform_io_context_t) :
  In SDL_QUIT pending ->
  running vm = true -> error vm = VM_OK ->
  run_vm hw (pending :: later) vm ctx
  = Some (VM_OK, set_running vm false,
          snd (platform_io_process_events pending ctx)).
Proof.
  intros Hq Hrun Herr. cbn [run_vm]. rewrite Hrun, Herr.
  cbn [vm_error_eqb andb].
  destruct (process_events_spec pending ctx) as (Hgo & _).
  assert (Hex : existsb is_quit pending = true).
  { apply existsb_exists. exists SDL_QUIT. now split. }
  rewrite Hex in Hgo.
  destruct (platform_io_process_events pending ctx) as [go_on ctx1].
  cbn [fst snd] in *. subst go_on. cbn [negb].
  now rewrite <- Herr.
Qed.

Lemma host_shutdown_stops_witness :
  run_vm x86_host [[SDL_KEYDOWN 65; SDL_QUIT]; []] (loaded [1])
         platform_io_init
  = Some (VM_OK, set_running (loaded [1]) false,
          set_key platform_io_init 65 true).
Proof.
  apply (host_shutdown_stops x86_host [SDL_KEYDOWN 65; SDL_QUIT] [[]]
           (loaded [1]) platform_io_init).
  - right. left. reflexivity.
  - reflexivity.
  - reflexivity.
Defined.

(** The context after a run of iterations in which nothing is executed. *)
Lemma waiting_skips hw batches :
  forall later vm ctx,
    forallb (forallb quiet) batches = true ->
    running vm = true -> error vm = VM_OK ->
    waiting_for_input ctx = true -> key_available ctx = false ->
    exists ctx',
      run_vm hw (batches ++ later) vm ctx = run_vm hw later vm ctx' /\
      waiting_for_input ctx' = true /\ key_available ctx' = false /\
      last_key ctx' = last_key ctx /\ stdout ctx' = stdout ctx.
Proof.
  induction batches as [| pending batches IH];
    intros later vm ctx Hq Hrun Herr Hw Hk.
  - exists ctx. repeat split; assumption || reflexivity.
  - cbn [forallb] in Hq. apply andb_prop in Hq as [Hq1 Hq2].
    destruct (process_events_spec pending ctx)
      as (Hgo & Hwait & _ & _ & Hout & _ & Hquiet & _).
    destruct (Hquiet Hq1) as [Hkey Hlast].
    assert (Hnq : existsb is_quit pending = false).
    { clear -Hq1. induction pending as [| ev pending IHp]; [reflexivity |].
      cbn [forallb] in Hq1. apply andb_prop in Hq1 as [H1 H2].
      cbn [existsb]. rewrite (IHp H2). now destruct ev. }
    rewrite Hnq in Hgo.
    destruct (IH later vm (snd (platform_io_process_events pending ctx)))
      as (ctx' & Heq & Hw' & Hk' & Hl' & Ho'); try assumption; try congruence.
    exists ctx'. split; [| repeat split; congruence].
    rewrite <- Heq. cbn [app run_vm]. rewrite Hrun, Herr.
    cbn [vm_error_eqb andb].
    destruct (platform_io_process_events pending ctx) as [go_on ctx1].
    cbn [fst snd] in *. subst go_on. cbn [negb].
    unfold platform_io_is_waiting_for_input.
    rewrite Hwait, Hw, Hkey, Hk. reflexivity.
Qed.

(** X10.  While the host waits for input and the events bring neither a
    key press nor a close, [run_vm] fetches nothing: after any number of
    such iterations the machine is unchanged and the host still waits. *)
Theorem waiting_executes_nothing (hw : host_t)
    (batches later : list (list sdl_event)) (vm : vm_t)
    (ctx : platform_io_context_t) :
  forallb (forallb quiet) batches = true ->
  running vm = true -> error vm = VM_OK ->
  waiting_for_input ctx = true -> key_available ctx = false ->
  run_vm hw batches vm ctx = None /\
  exists ctx',
    run_vm hw (batches ++ later) vm ctx = run_vm hw later vm ctx' /\
    waiting_for_input ctx' = true /\ key_available ctx' = false.
Proof.
  intros Hq Hrun Herr Hw Hk. split.
  - destruct (waiting_skips hw batches [] vm ctx Hq Hrun Herr Hw Hk)
      as (ctx' & Heq & _).
    rewrite app_nil_r in Heq. rewrite Heq. cbn [run_vm].
    now rewrite Hrun, Herr.
  - destruct (waiting_skips hw batches later vm ctx Hq Hrun Herr Hw Hk)
      as (ctx' & Heq & Hw' & Hk' & _).
    exists ctx'. repeat split; assumption.
Qed.

Lemma waiting_executes_nothing_witness :
  run_vm x86_host [[]; [SDL_MOUSE 4 4 0]; [SDL_OTHER]] (loaded [1])
         (set_waiting platform_io_init true) = None.
Proof.
  apply (waiting_executes_nothing x86_host
           [[]; [SDL_MOUSE 4 4 0]; [SDL_OTHER]] [] (loaded [1])
           (set_waiting platform_io_init true)); reflexivity.
Defined.

(** ** Stack and arithmetic instructions *)

Lemma u8_mem_read m a : u8 (mem_read m a) = mem_read m a.
Proof. apply u8_u8. Qed.

Lemma exec_divop_nonzero f vm :
  0 <= sp vm < 0xFFFF -> mem_read (memory vm) (sp vm + 1) <> 0 ->
  exec_divop f vm = exec_binop f vm.
Proof.
  intros Hs Hnz. unfold exec_divop, exec_binop.
  rewrite vm_pop_ok by lia. destruct (vm_pop _) as [a vm2].
  destruct (Z.eqb_spec (mem_read (memory vm) (sp vm + 1)) 0);
    [contradiction | reflexivity].
Qed.

(** X11.  A two-operand instruction on a stack of two or more bytes pops
    [b], then [a], and pushes the low byte of its result in the cell [a]
    had; [sp] rises by one, and neither the error slot nor any other cell
    changes.  For [DIV] and [MOD] this needs [b <> 0]. *)
Theorem binary_op_result (hw : host_t) (vm : vm_t)
    (ctx : platform_io_context_t) (f : Z -> Z -> Z) :
  0 <= pc vm < 65536 -> 0 <= sp vm <= 0xFFFF - 2 ->
  binop_of hw (mem_read (memory vm) (pc vm)) = Some f ->
  (checks_divisor (mem_read (memory vm) (pc vm)) = true ->
   top_of_stack vm <> 0) ->
  let vm' := fst (exec_instr hw vm ctx) in
  top_of_stack vm' = u8 (f (second_of_stack vm) (top_of_stack vm)) /\
  sp vm' = sp vm + 1 /\ error vm' = error vm /\
  pc vm' = u16 (pc vm + 1) /\
  forall a, a <> sp vm + 2 -> mem_read (memory vm') a = mem_read (memory vm) a.
Proof.
  intros Hpc Hsp Hf Hdiv vm'. subst vm'.
  rewrite (exec_binary hw vm ctx Hpc f Hf).
  assert (Hexec : (if checks_divisor (mem_read (memory vm) (pc vm))
                   then exec_divop f (after_fetch vm)
                   else exec_binop f (after_fetch vm))
                  = exec_binop f (after_fetch vm)).
  { destruct (checks_divisor (mem_read (memory vm) (pc vm)));
      [| reflexivity].
    apply exec_divop_nonzero; [vm_simpl; lia |]. now apply Hdiv. }
  rewrite Hexec, exec_binop_two by (vm_simpl; lia).
  unfold top_of_stack, second_of_stack. vm_simpl.
  replace (sp vm + 1 + 1) with (sp vm + 2) by lia.
  rewrite mem_read_insert, u8_u8.
  repeat split; try reflexivity.
  intros a Ha. now apply mem_read_insert_ne.
Qed.

Lemma binary_op_result_witness :
  let vm := fst (exec_n x86_host 2 (loaded [2; 200; 2; 100; 6])
                        platform_io_init) in
  top_of_stack (fst (exec_instr x86_host vm platform_io_init)) = 44.
Proof.
  intros vm.
  destruct (binary_op_result x86_host vm platform_io_init
              (fun a b => a + b)) as (H & _).
  - vm_compute. split; [discriminate | reflexivity].
  - vm_compute. split; discriminate.
  - reflexivity.
  - vm_compute. discriminate.
  - exact H.
Defined.

Ltac fetch H :=
  rewrite exec_instr_dispatch by assumption; rewrite H; pick_branch.

(** X12.  [SWAP] on a stack of two or more bytes exchanges the two top
    bytes and changes nothing else but [pc]. *)
Theorem swap_exchanges (hw : host_t) (vm : vm_t)
    (ctx : platform_io_context_t) :
  0 <= pc vm < 65536 -> 0 <= sp vm <= 0xFFFF - 2 ->
  mem_read (memory vm) (pc vm) = OP_SWAP ->
  let vm' := fst (exec_instr hw vm ctx) in
  top_of_stack vm' = second_of_stack vm /\
  second_of_stack vm' = top_of_stack vm /\
  sp vm' = sp vm /\ error vm' = error vm /\
  forall a, a <> sp vm + 1 -> a <> sp vm + 2 ->
            mem_read (memory vm') a = mem_read (memory vm) a.
Proof.
  intros Hpc Hsp Hop vm'. subst vm'. fetch Hop.
  unfold top_of_stack, second_of_stack.
  destruct vm as [m p s bpv r e]. vm_simpl. run_stack.
  replace (s + 1 + 1) with (s + 2) by lia.
  replace (s + 2 - 1) with (s + 1) by lia.
  replace (s + 1 - 1 + 1) with (s + 1) by lia.
  replace (s + 1 - 1 + 2) with (s + 2) by lia.
  replace (s + 1 - 1) with s by lia.
  rewrite mem_read_insert, u8_u8.
  rewrite mem_read_insert_ne, mem_read_insert, u8_u8 by lia.
  rewrite !u8_mem_read.
  repeat split; try reflexivity.
  intros a H1 H2. now rewrite !mem_read_insert_ne by lia.
Qed.

Lemma swap_exchanges_witness :
  let vm := fst (exec_n x86_host 2 (loaded [2; 3; 2; 9; 5])
                        platform_io_init) in
  let vm' := fst (exec_instr x86_host vm platform_io_init) in
  top_of_stack vm' = 3 /\ second_of_stack vm' = 9.
Proof.
  intros vm vm'.
  destruct (swap_exchanges x86_host vm platform_io_init) as (H1 & H2 & _).
  - vm_compute. split; [discriminate | reflexivity].
  - vm_compute. split; discriminate.
  - reflexivity.
  - split; [exact H1 | exact H2].
Defined.

(** X13.  [DUP] on a stack that is neither empty nor full leaves the top
    byte where it is and pushes a copy of it; on a full stack of 65 535
    bytes it records [STACK_OVERFLOW] and the stack is as it was. *)
Theorem dup_copies_top (hw : host_t) (vm : vm_t)
    (ctx : platform_io_context_t) :
  0 <= pc vm < 65536 ->
  mem_read (memory vm) (pc vm) = OP_DUP ->
  let vm' := fst (exec_instr hw vm ctx) in
  (1 <= sp vm <= 0xFFFF - 1 ->
   top_of_stack vm' = top_of_stack vm /\
   second_of_stack vm' = top_of_stack vm /\
   sp vm' = sp vm - 1 /\ error vm' = error vm /\
   forall a, a <> sp vm -> mem_read (memory vm') a = mem_read (memory vm) a) /\
  (sp vm = 0 ->
   error vm' = VM_ERROR_STACK_OVERFLOW /\ sp vm' = 0 /\
   forall a, mem_read (memory vm') a = mem_read (memory vm) a).
Proof.
  intros Hpc Hop vm'. subst vm'. fetch Hop.
  unfold top_of_stack, second_of_stack.
  destruct vm as [m p s bpv r e]. vm_simpl. split.
  - intros Hsp. run_stack.
    replace (s + 1 - 1 - 1 + 1) with s by lia.
    replace (s + 1 - 1 - 1 + 2) with (s + 1) by lia.
    replace (s + 1 - 1) with s by lia.
    rewrite mem_read_insert, mem_read_insert_ne, mem_read_insert, !u8_u8
      by lia.
    rewrite !u8_mem_read.
    repeat split; try reflexivity; try lia.
    intros a Ha.
    destruct (Z.eq_dec a (s + 1)) as [-> | Hne].
    + now rewrite mem_read_insert_ne, mem_read_insert, u8_mem_read by lia.
    + now rewrite !mem_read_insert_ne by lia.
  - intros ->. run_stack. change (0 + 1) with 1.
    rewrite vm_push_full by reflexivity. vm_norm.
    split; [reflexivity | split; [reflexivity |]].
    intros a.
    destruct (Z.eq_dec a 1) as [-> | Hne].
    + now rewrite mem_read_insert, u8_u8, u8_mem_read.
    + now rewrite mem_read_insert_ne by lia.
Qed.

Lemma dup_copies_top_witness :
  let vm := fst (exec_instr x86_host (loaded [2; 3; 4]) platform_io_init) in
  let vm' := fst (exec_instr x86_host vm platform_io_init) in
  top_of_stack vm' = 3 /\ second_of_stack vm' = 3 /\ sp vm' = 0xFFFF - 2.
Proof.
  intros vm vm'.
  destruct (dup_copies_top x86_host vm platform_io_init) as [H _].
  - vm_compute. split; [discriminate | reflexivity].
  - reflexivity.
  - destruct H as (H1 & H2 & H3 & _).
    + vm_compute. split; discriminate.
    + split; [exact H1 | split; [exact H2 | exact H3]].
Defined.

(** ** Operands, jumps and memory instructions *)

Lemma read16_value vm a :
  0 <= a < 0xFFFF ->
  vm_read16 vm a
  = (mem_read (memory vm) a + 256 * mem_read (memory vm) (a + 1), vm).
Proof.
  intros Ha. unfold vm_read16, VM_MEMORY_SIZE.
  destruct (Z.geb_spec a (65536 - 1)) as [? | _]; [lia |].
  pose proof (mem_read_range (memory vm) a).
  pose proof (mem_read_range (memory vm) (a + 1)).
  rewrite lor_bytes by assumption. rewrite u16_small by lia. reflexivity.
Qed.

(** X14.  [JZ] and [JNZ] pop one byte whether or not they jump; with the
    operand [target] and a non-empty stack, [JZ] continues at [target]
    when the byte is 0 and after its three bytes (modulo 65 536)
    otherwise, and [JNZ] the other way round.  On the empty stack the
    failed pop counts as 0: [JZ] jumps, [JNZ] does not, and the error is
    [STACK_UNDERFLOW]. *)
Theorem conditional_jump (hw : host_t) (vm : vm_t)
    (ctx : platform_io_context_t) :
  let p := pc vm in
  let opcode := mem_read (memory vm) p in
  let target :=
    mem_read (memory vm) (p + 1) + 256 * mem_read (memory vm) (p + 2) in
  let vm' := fst (exec_instr hw vm ctx) in
  0 <= p < 0xFFFF - 1 -> opcode = OP_JZ \/ opcode = OP_JNZ ->
  memory vm' = memory vm /\
  (0 <= sp vm < 0xFFFF ->
   pc vm' = (if Bool.eqb (opcode =? OP_JZ) (top_of_stack vm =? 0)
             then target else u16 (p + 3)) /\
   sp vm' = sp vm + 1 /\ error vm' = error vm) /\
  (sp vm = 0xFFFF ->
   pc vm' = (if opcode =? OP_JZ then target else u16 (p + 3)) /\
   sp vm' = 0xFFFF /\ error vm' = VM_ERROR_STACK_UNDERFLOW).
Proof.
  intros p opcode target vm' Hp Hop. subst vm' opcode target p.
  assert (Hpc : 0 <= pc vm < 65536) by lia.
  unfold top_of_stack.
  destruct vm as [m p s bpv r e]. vm_simpl.
  rewrite exec_instr_dispatch by assumption. vm_simpl.
  assert (Hnext : u16 (p + 1 + 2) = u16 (p + 3)) by (f_equal; lia).
  destruct Hop as [Hop | Hop]; rewrite Hop; pick_branch; vm_norm;
    (rewrite (u16_small (p + 1)) by lia);
    (rewrite read16_value by lia); vm_norm;
    (replace (p + 1 + 1) with (p + 2) by lia);
    rewrite Hnext.
  - split; [| split].
    + unfold vm_pop. vm_norm. destruct (s >=? VM_STACK_TOP); vm_norm;
        repeat match goal with
               | |- context [match ?c with _ => _ end] => destruct c
               end; reflexivity.
    + intros Hs. run_stack.
      destruct (mem_read m (s + 1)) eqn:E; cbn; repeat split; reflexivity.
    + intros ->. run_stack. repeat split; reflexivity.
  - split; [| split].
    + unfold vm_pop. vm_norm. destruct (s >=? VM_STACK_TOP); vm_norm;
        repeat match goal with
               | |- context [match ?c with _ => _ end] => destruct c
               end; reflexivity.
    + intros Hs. run_stack.
      destruct (mem_read m (s + 1)) eqn:E; cbn; repeat split; reflexivity.
    + intros ->. run_stack. repeat split; reflexivity.
Qed.

Lemma conditional_jump_witness :
  let vm := fst (exec_instr x86_host (loaded [2; 0; 29; 7; 1])
                            platform_io_init) in
  pc (fst (exec_instr x86_host vm platform_io_init)) = 7 + 256 * 1.
Proof.
  intros vm.
  destruct (conditional_jump x86_host vm platform_io_init) as (_ & H & _).
  - vm_compute. split; [discriminate | reflexivity].
  - left. reflexivity.
  - destruct H as [H _].
    + vm_compute. split; [discriminate | reflexivity].
    + exact H.
Defined.

Lemma word_below lo hi :
  0 <= lo < 256 -> 0 <= hi < 256 -> (lo + 256 * hi <? VM_MEMORY_SIZE) = true.
Proof. intros Hlo Hhi. apply Z.ltb_lt. unfold VM_MEMORY_SIZE. lia. Qed.

Lemma exec_STORE hw vm ctx :
  0 <= pc vm < 0xFFFF - 1 -> 0 <= sp vm < 0xFFFF ->
  mem_read (memory vm) (pc vm) = OP_STORE ->
  exec_instr hw vm ctx =
  (mk_vm (<[mem_read (memory vm) (pc vm + 1)
            + 256 * mem_read (memory vm) (pc vm + 2) :=
              mem_read (memory vm) (sp vm + 1)]> (memory vm))
         (u16 (pc vm + 3)) (sp vm + 1) (bp vm) (running vm) (error vm), ctx).
Proof.
  intros Hp Hs Hop. rewrite exec_instr_dispatch by lia.
  destruct vm as [m p s bpv r e]. vm_simpl. rewrite Hop. pick_branch.
  vm_norm. rewrite (u16_small (p + 1)) by lia.
  rewrite read16_value by lia. vm_norm.
  rewrite (vm_pop_ok (mk_vm _ _ _ _ _ _)) by (vm_simpl; lia). vm_norm.
  rewrite word_below by apply mem_read_range.
  replace (p + 1 + 1) with (p + 2) by lia.
  replace (p + 1 + 2) with (p + 3) by lia. reflexivity.
Qed.

Lemma exec_LOAD hw vm ctx :
  0 <= pc vm < 0xFFFF - 1 -> 1 <= sp vm <= 0xFFFF ->
  mem_read (memory vm) (pc vm) = OP_LOAD ->
  exec_instr hw vm ctx =
  (mk_vm (<[sp vm :=
              u8 (mem_read (memory vm)
                    (mem_read (memory vm) (pc vm + 1)
                     + 256 * mem_read (memory vm) (pc vm + 2)))]>
            (memory vm))
         (u16 (pc vm + 3)) (sp vm - 1) (bp vm) (running vm) (error vm), ctx).
Proof.
  intros Hp Hs Hop. rewrite exec_instr_dispatch by lia.
  destruct vm as [m p s bpv r e]. vm_simpl. rewrite Hop. pick_branch.
  vm_norm. rewrite (u16_small (p + 1)) by lia.
  rewrite read16_value by lia. vm_norm.
  rewrite word_below by apply mem_read_range.
  rewrite (vm_push_ok (mk_vm _ _ _ _ _ _)) by (vm_simpl; lia). vm_norm.
  replace (p + 1 + 1) with (p + 2) by lia.
  replace (p + 1 + 2) with (p + 3) by lia. reflexivity.
Qed.

(** X15.  [STORE addr] followed by [LOAD addr] stores the top byte at
    [addr] and puts it back on the stack: top byte, [sp] and error slot
    are as before and [memory[addr]] is that byte.  ([addr] must not be
    one of the three cells holding the [LOAD] instruction.) *)
Theorem store_load_round_trip (hw : host_t) (vm : vm_t)
    (ctx : platform_io_context_t) (lo hi : Z) :
  let p := pc vm in
  let addr := lo + 256 * hi in
  let vm' := fst (exec_n hw 2 vm ctx) in
  0 <= p < 0xFFFF - 4 -> 0 <= sp vm < 0xFFFF ->
  code_at (memory vm) p [OP_STORE; lo; hi; OP_LOAD; lo; hi] ->
  addr < p + 3 \/ p + 5 < addr ->
  top_of_stack vm' = top_of_stack vm /\
  mem_read (memory vm') addr = top_of_stack vm /\
  sp vm' = sp vm /\ error vm' = error vm /\ pc vm' = u16 (p + 6).
Proof.
  intros p addr vm' Hp Hs (H0 & H1 & H2 & H3 & H4 & H5 & _) Haddr.
  subst vm' p addr. unfold top_of_stack.
  replace (pc vm + 1 + 1) with (pc vm + 2) in * by lia.
  replace (pc vm + 2 + 1) with (pc vm + 3) in * by lia.
  replace (pc vm + 3 + 1) with (pc vm + 4) in * by lia.
  replace (pc vm + 4 + 1) with (pc vm + 5) in * by lia.
  cbn [exec_n]. rewrite exec_STORE by (lia || assumption).
  rewrite H1, H2.
  destruct vm as [m p s bpv r e]. vm_simpl.
  rewrite (u16_small (p + 3)) by lia.
  rewrite exec_LOAD; vm_simpl; try lia.
  2: { rewrite mem_read_insert_ne by lia. exact H3. }
  replace (p + 3 + 1) with (p + 4) by lia.
  replace (p + 3 + 2) with (p + 5) by lia.
  rewrite !(mem_read_insert_ne _ _ (p + 4)) by lia.
  rewrite !(mem_read_insert_ne _ _ (p + 5)) by lia.
  rewrite H4, H5, mem_read_insert, u8_u8, !u8_mem_read.
  replace (s + 1 - 1 + 1) with (s + 1) by lia.
  rewrite mem_read_insert, u8_mem_read.
  replace (s + 1 - 1) with s by lia.
  replace (p + 3 + 3) with (p + 6) by lia.
  split; [reflexivity | split; [| repeat split; lia]].
  destruct (Z.eq_dec (s + 1) (lo + 256 * hi)) as [E | E].
  - rewrite <- E. now rewrite mem_read_insert, u8_mem_read.
  - now rewrite mem_read_insert_ne, mem_read_insert, u8_mem_read by lia.
Qed.

Lemma store_load_round_trip_witness :
  let vm := fst (exec_instr x86_host (loaded [2; 77; 25; 0; 2; 24; 0; 2])
                            platform_io_init) in
  let vm' := fst (exec_n x86_host 2 vm platform_io_init) in
  top_of_stack vm' = 77 /\ mem_read (memory vm') 0x200 = 77.
Proof.
  intros vm vm'.
  destruct (store_load_round_trip x86_host vm platform_io_init 0 2)
    as (H1 & H2 & _).
  - vm_compute. split; [discriminate | reflexivity].
  - vm_compute. split; [discriminate | reflexivity].
  - vm_compute. repeat split; reflexivity.
  - right. vm_compute. reflexivity.
  - split; [exact H1 | exact H2].
Defined.

Lemma pop_addr_two vm :
  0 <= sp vm <= 0xFFFF - 2 ->
  pop_addr vm =
  (mem_read (memory vm) (sp vm + 1) + 256 * mem_read (memory vm) (sp vm + 2),
   set_sp vm (sp vm + 2)).
Proof.
  intros Hs. unfold pop_addr. destruct vm as [m p s bpv r e]. vm_simpl.
  rewrite (vm_pop_ok (mk_vm _ _ _ _ _ _)) by (vm_simpl; lia). vm_norm.
  rewrite (vm_pop_ok (mk_vm _ _ _ _ _ _)) by (vm_simpl; lia). vm_norm.
  replace (s + 1 + 1) with (s + 2) by lia.
  pose proof (mem_read_range m (s + 1)). pose proof (mem_read_range m (s + 2)).
  rewrite lor_bytes by assumption. rewrite u16_small by lia. reflexivity.
Qed.

(** X16.  The indirect instructions take the low byte of the address from
    the top of the stack and the high byte from below it.  [LOAD_IND]
    replaces the two bytes by [memory[lo + 256 * hi]]; [STORE_IND] pops a
    third byte and stores it there.  Neither touches the error slot. *)
Theorem indirect_access (hw : host_t) (vm : vm_t)
    (ctx : platform_io_context_t) :
  let addr := top_of_stack vm + 256 * second_of_stack vm in
  let vm' := fst (exec_instr hw vm ctx) in
  0 <= pc vm < 65536 ->
  (mem_read (memory vm) (pc vm) = OP_LOAD_IND ->
   0 <= sp vm <= 0xFFFF - 2 ->
   top_of_stack vm' = mem_read (memory vm) addr /\
   sp vm' = sp vm + 1 /\ error vm' = error vm /\
   forall a, a <> sp vm + 2 ->
             mem_read (memory vm') a = mem_read (memory vm) a) /\
  (mem_read (memory vm) (pc vm) = OP_STORE_IND ->
   0 <= sp vm <= 0xFFFF - 3 ->
   mem_read (memory vm') addr = mem_read (memory vm) (sp vm + 3) /\
   sp vm' = sp vm + 3 /\ error vm' = error vm /\
   forall a, a <> addr -> mem_read (memory vm') a = mem_read (memory vm) a).
Proof.
  intros addr vm' Hpc. subst addr vm'. unfold top_of_stack, second_of_stack.
  split; intros Hop Hs; rewrite exec_instr_dispatch by assumption;
    rewrite Hop; pick_branch; unfold after_fetch;
    (rewrite pop_addr_two by (vm_simpl; lia));
    (rewrite word_below by apply mem_read_range);
    destruct vm as [m p s bpv r e]; vm_norm.
  - rewrite (vm_push_ok (mk_vm _ _ _ _ _ _)) by (vm_simpl; lia). vm_norm.
    replace (s + 2 - 1 + 1) with (s + 2) by lia.
    rewrite mem_read_insert, u8_u8, u8_mem_read.
    repeat split; try reflexivity; try lia.
    intros a Ha. now apply mem_read_insert_ne.
  - rewrite (vm_pop_ok (mk_vm _ _ _ _ _ _)) by (vm_simpl; lia). vm_norm.
    replace (s + 2 + 1) with (s + 3) by lia.
    rewrite mem_read_insert, u8_mem_read.
    repeat split; try reflexivity.
    intros a Ha. now apply mem_read_insert_ne.
Qed.

Lemma indirect_access_witness :
  let vm := fst (exec_n x86_host 2 (loaded [2; 0; 2; 5; 26; 99])
                        platform_io_init) in
  top_of_stack (fst (exec_instr x86_host vm platform_io_init)) = 99.
Proof.
  intros vm.
  destruct (indirect_access x86_host vm platform_io_init) as [H _].
  - vm_compute. split; [discriminate | reflexivity].
  - destruct H as [H _].
    + reflexivity.
    + vm_compute. split; discriminate.
    + exact H.
Defined.

Lemma neg_neg a : 0 <= a < 256 -> u8 (- u8 (- a)) = a.
Proof.
  intros Ha. unfold u8. destruct (Z.eq_dec a 0) as [-> | Hnz];
    [reflexivity |].
  rewrite (Z.mod_opp_l_nz a 256) by (rewrite ?Z.mod_small; lia).
  rewrite (Z.mod_small a) by lia.
  rewrite Z.mod_opp_l_nz by (rewrite ?Z.mod_small; lia).
  rewrite Z.mod_small by lia. lia.
Qed.

Lemma not_not a : 0 <= a < 256 -> u8 (Z.lnot (u8 (Z.lnot a))) = a.
Proof.
  intros Ha. unfold Z.lnot, u8.
  replace (Z.pred (- a)) with ((255 - a) + (-1) * 256) by lia.
  rewrite Z.mod_add by lia. rewrite (Z.mod_small (255 - a)) by lia.
  replace (Z.pred (- (255 - a))) with (a + (-1) * 256) by lia.
  rewrite Z.mod_add by lia. apply Z.mod_small. lia.
Qed.

Lemma exec_unop_one f vm :
  0 <= sp vm < 0xFFFF ->
  exec_unop f vm =
  set_memory vm (<[sp vm + 1 := u8 (f (mem_read (memory vm) (sp vm + 1)))]>
                   (memory vm)).
Proof.
  intros Hs. unfold exec_unop. destruct vm as [m p s bpv r e]. vm_simpl.
  rewrite (vm_pop_ok (mk_vm _ _ _ _ _ _)) by (vm_simpl; lia). vm_norm.
  rewrite (vm_push_ok (mk_vm _ _ _ _ _ _)) by (vm_simpl; lia). vm_norm.
  replace (s + 1 - 1) with s by lia. reflexivity.
Qed.

(** X17.  [NEG; NEG] and [NOT; NOT] give back the top byte: after the two
    instructions the stack, all of memory and the error slot are as
    before.  (The top stack cell must not be the cell of the second
    opcode.) *)
Theorem neg_not_involutive (hw : host_t) (vm : vm_t)
    (ctx : platform_io_context_t) (op : Z) :
  let vm' := fst (exec_n hw 2 vm ctx) in
  op = OP_NEG \/ op = OP_NOT ->
  0 <= pc vm < 0xFFFF -> 0 <= sp vm < 0xFFFF -> sp vm <> pc vm ->
  code_at (memory vm) (pc vm) [op; op] ->
  (forall a, mem_read (memory vm') a = mem_read (memory vm) a) /\
  sp vm' = sp vm /\ error vm' = error vm /\ pc vm' = u16 (pc vm + 2).
Proof.
  intros vm' Hop Hp Hs Hne (H0 & H1 & _). subst vm'.
  assert (Hf : exists f,
             (forall v c, 0 <= pc v < 65536 ->
                          mem_read (memory v) (pc v) = op ->
                          exec_instr hw v c = (exec_unop f (after_fetch v), c))
             /\ forall a, 0 <= a < 256 -> u8 (f (u8 (f a))) = a).
  { destruct Hop as [-> | ->].
    - exists (fun a => - a). split; [| exact neg_neg].
      intros v c Hv Hvop. rewrite exec_instr_dispatch by assumption.
      rewrite Hvop. reflexivity.
    - exists Z.lnot. split; [| exact not_not].
      intros v c Hv Hvop. rewrite exec_instr_dispatch by assumption.
      rewrite Hvop. reflexivity. }
  destruct Hf as (f & Hexec & Hinv).
  cbn [exec_n]. rewrite Hexec by (lia || assumption).
  rewrite exec_unop_one by (vm_simpl; lia).
  destruct vm as [m p s bpv r e]. vm_simpl. vm_norm.
  rewrite (u16_small (p + 1)) by lia.
  rewrite Hexec; vm_simpl; try lia.
  2: { rewrite mem_read_insert_ne by lia. exact H1. }
  rewrite exec_unop_one by (vm_simpl; lia). vm_simpl. vm_norm.
  rewrite mem_read_insert, u8_u8.
  rewrite Hinv by apply mem_read_range.
  replace (p + 1 + 1) with (p + 2) by lia.
  split; [| repeat split; lia].
  intros a. destruct (Z.eq_dec a (s + 1)) as [-> | Ha].
  - now rewrite mem_read_insert, u8_mem_read.
  - now rewrite !mem_read_insert_ne by lia.
Qed.

Lemma neg_not_involutive_witness :
  let vm := fst (exec_instr x86_host (loaded [2; 5; 11; 11])
                            platform_io_init) in
  let vm' := fst (exec_n x86_host 2 vm platform_io_init) in
  mem_read (memory vm') 0xFFFF = 5 /\ sp vm' = 0xFFFF - 1.
Proof.
  intros vm vm'.
  destruct (neg_not_involutive x86_host vm platform_io_init OP_NEG)
    as (Hm & Hs & _).
  - left. reflexivity.
  - vm_compute. split; [discriminate | reflexivity].
  - vm_compute. split; [discriminate | reflexivity].
  - vm_compute. discriminate.
  - vm_compute. repeat split; reflexivity.
  - split; [rewrite Hm; reflexivity | exact Hs].
Defined.

(** [JMP] changes [pc] only: it continues at its operand.  When the
    opcode is at [0xFFFE] the operand cannot be read: the error is
    [INVALID_ADDRESS] and [pc] is 0. *)
Theorem jmp_sets_pc (hw : host_t) (vm : vm_t) (ctx : platform_io_context_t) :
  0 <= pc vm < 0xFFFF ->
  mem_read (memory vm) (pc vm) = OP_JMP ->
  (pc vm < 0xFFFF - 1 ->
   exec_instr hw vm ctx
   = (set_pc vm (mem_read (memory vm) (pc vm + 1)
                 + 256 * mem_read (memory vm) (pc vm + 2)), ctx)) /\
  (pc vm = 0xFFFF - 1 ->
   exec_instr hw vm ctx
   = (set_error (set_pc vm 0) VM_ERROR_INVALID_ADDRESS, ctx)).
Proof.
  intros Hp Hop. split; intros Hp'; rewrite exec_instr_dispatch by lia;
    rewrite Hop; pick_branch; destruct vm as [m p s bpv r e]; vm_simpl;
    vm_norm; (rewrite (u16_small (p + 1)) by lia).
  - rewrite read16_value by lia. vm_norm.
    replace (p + 1 + 1) with (p + 2) by lia. reflexivity.
  - subst p. reflexivity.
Qed.

Lemma jmp_sets_pc_witness :
  pc (fst (exec_instr x86_host (loaded [28; 0; 3]) platform_io_init)) = 0x300.
Proof.
  destruct (jmp_sets_pc x86_host (loaded [28; 0; 3]) platform_io_init)
    as [H _].
  - vm_compute. split; [discriminate | reflexivity].
  - reflexivity.
  - rewrite H; [reflexivity | vm_compute; reflexivity].
Defined.

(** * Further properties of the host I/O *)

(** ** Operation IDs *)

Lemma handle_platform_io_status vm ctx io_id :
  if known_io io_id
  then fst (fst (handle_platform_io vm ctx io_id)) = PLATFORM_IO_OK
  else handle_platform_io vm ctx io_id
       = (PLATFORM_IO_ERROR_INVALID_OPERATION, vm, ctx) /\
       (io_id =? IO_EXIT) = false.
Proof.
  unfold known_io, handle_platform_io. cbn [existsb].
  repeat match goal with
         | |- context [io_id =? ?c] =>
             destruct (io_id =? c) eqn:?; cbn [orb]
         end;
  repeat match goal with
         | |- context [let '(_, _) := ?x in _] => destruct x
         | |- context [if ?c then _ else _] => destruct c
         end; try reflexivity.
  split; reflexivity.
Qed.

(** X18.  [handle_platform_io] succeeds for the thirteen operation IDs of
    [platform_io.h] and for no other; for any other ID it returns
    [INVALID_OPERATION] and leaves machine and context alone, and the [IO]
    instruction then records [PLATFORM_IO], which ends the run. *)
Theorem unknown_io_fails (hw : host_t) (vm : vm_t)
    (ctx : platform_io_context_t) (io_id : Z) :
  (known_io io_id = true ->
   fst (fst (handle_platform_io vm ctx io_id)) = PLATFORM_IO_OK) /\
  (known_io io_id = false ->
   handle_platform_io vm ctx io_id
   = (PLATFORM_IO_ERROR_INVALID_OPERATION, vm, ctx) /\
   (0 <= pc vm < 65536 ->
    mem_read (memory vm) (pc vm) = OP_IO ->
    mem_read (memory vm) (pc (after_fetch vm)) = io_id ->
    error (fst (exec_instr hw vm ctx)) = VM_ERROR_PLATFORM_IO /\
    is_fault (error (fst (exec_instr hw vm ctx))) = true)).
Proof.
  split; intros Hk.
  - pose proof (handle_platform_io_status vm ctx io_id) as H.
    now rewrite Hk in H.
  - pose proof (handle_platform_io_status vm ctx io_id) as H.
    rewrite Hk in H. split; [exact (proj1 H) |].
    intros Hpc Hop Hid. rewrite exec_IO by assumption. cbv zeta.
    rewrite Hid.
    pose proof (handle_platform_io_status
                  (set_pc (after_fetch vm) (u16 (pc (after_fetch vm) + 1)))
                  ctx io_id) as H'.
    rewrite Hk in H'. destruct H' as [-> ->]. split; reflexivity.
Qed.

Lemma unknown_io_fails_witness :
  error (fst (exec_instr x86_host (loaded [33; 3]) platform_io_init))
  = VM_ERROR_PLATFORM_IO.
Proof.
  destruct (unknown_io_fails x86_host (loaded [33; 3]) platform_io_init 3)
    as [_ H].
  destruct (H eq_refl) as [_ H'].
  apply H'; try reflexivity.
  vm_compute. split; [discriminate | reflexivity].
Defined.

(** ** The pixel buffer *)

Lemma insert_in_bounds px k v :
  pixels_in_bounds px ->
  0 <= k < VM_DISPLAY_WIDTH * VM_DISPLAY_HEIGHT ->
  pixels_in_bounds (<[k := v]> px).
Proof.
  intros Hpx Hk k' v' Hl. destruct (Z.eq_dec k k') as [<- | Hne].
  - exact Hk.
  - rewrite lookup_insert_ne in Hl by exact Hne. now apply (Hpx k' v').
Qed.

Lemma display_index x y :
  0 <= x < VM_DISPLAY_WIDTH -> 0 <= y < VM_DISPLAY_HEIGHT ->
  0 <= y * VM_DISPLAY_WIDTH + x < VM_DISPLAY_WIDTH * VM_DISPLAY_HEIGHT.
Proof. unfold VM_DISPLAY_WIDTH, VM_DISPLAY_HEIGHT. lia. Qed.

Lemma in_display_true x y :
  in_display x y = true ->
  0 <= x < VM_DISPLAY_WIDTH /\ 0 <= y < VM_DISPLAY_HEIGHT.
Proof.
  unfold in_display. intros H.
  apply andb_prop in H as [H Hy]. apply andb_prop in H as [H Hy0].
  apply andb_prop in H as [Hx0 Hx].
  apply Z.leb_le in Hx0, Hy0. apply Z.ltb_lt in Hx, Hy. lia.
Qed.

Lemma draw_line_loop_in_bounds fuel :
  forall px x0 y0 x1 y1 dx dy sx sy err color,
    pixels_in_bounds px ->
    pixels_in_bounds
      (draw_line_loop fuel px x0 y0 x1 y1 dx dy sx sy err color).
Proof.
  induction fuel as [| fuel IH]; intros px x0 y0 x1 y1 dx dy sx sy err color H;
    [exact H |].
  cbn [draw_line_loop].
  assert (H1 : pixels_in_bounds
                 (if in_display x0 y0
                  then <[y0 * VM_DISPLAY_WIDTH + x0 := color]> px else px)).
  { destruct (in_display x0 y0) eqn:E; [| exact H].
    apply insert_in_bounds; [exact H |].
    apply in_display_true in E. now apply display_index. }
  destruct ((x0 =? x1) && (y0 =? y1)); [exact H1 |].
  destruct (2 * err >? - dy); destruct (2 * err <? dx); now apply IH.
Qed.

Lemma fold_left_keeps {A B} (P : A -> Prop) (f : A -> B -> A) (l : list B) :
  forall acc,
    P acc -> (forall a b, In b l -> P a -> P (f a b)) ->
    P (fold_left f l acc).
Proof.
  induction l as [| b l IH]; intros acc Hacc Hf; [exact Hacc |].
  cbn [fold_left]. apply IH.
  - apply Hf; [now left | exact Hacc].
  - intros a b' Hb. apply Hf. now right.
Qed.

Lemma in_seqZ i m len : In i (seqZ m len) <-> m <= i < m + len.
Proof. rewrite <- list_elem_of_In. apply elem_of_seqZ. Qed.

Lemma fill_rect_in_bounds px x y w h color :
  pixels_in_bounds px -> pixels_in_bounds (fill_rect px x y w h color).
Proof.
  intros H. unfold fill_rect.
  apply (fold_left_keeps pixels_in_bounds); [exact H |].
  intros acc py Hpy Hacc.
  apply (fold_left_keeps pixels_in_bounds); [exact Hacc |].
  intros acc' pxl Hpxl Hacc'.
  apply in_seqZ in Hpy. apply in_seqZ in Hpxl.
  destruct (Z.geb_spec pxl 0); destruct (Z.geb_spec py 0); cbn [andb];
    try exact Hacc'.
  apply insert_in_bounds; [exact Hacc' |].
  apply display_index; lia.
Qed.

Lemma vm_pop_byte vm : 0 <= fst (vm_pop vm) < 256.
Proof.
  unfold vm_pop. destruct (sp vm >=? VM_STACK_TOP); cbn [fst];
    [lia | apply mem_read_range].
Qed.

Lemma handle_platform_io_in_bounds vm ctx io_id :
  pixels_in_bounds (pixels ctx) ->
  pixels_in_bounds (pixels (snd (handle_platform_io vm ctx io_id))).
Proof.
  intros H. unfold handle_platform_io, draw_line.
  repeat match goal with
         | |- context [io_id =? ?c] => destruct (io_id =? c)
         end;
  repeat match goal with
         | |- context [vm_pop ?v] =>
             let Hb := fresh "Hb" in
             pose proof (vm_pop_byte v) as Hb;
             destruct (vm_pop v) as [? ?]; cbn [fst] in Hb
         end;
  repeat match goal with
         | |- context [if ?c then _ else _] => destruct c eqn:?
         end;
  cbn [snd pixels set_pixels set_waiting set_key_available set_key
       set_screen set_mouse_event set_mouse put_char];
  try exact H;
  try (apply fill_rect_in_bounds, H);
  try (apply draw_line_loop_in_bounds, H).
  apply insert_in_bounds; [exact H |].
  match goal with
  | E : _ && _ = true |- _ => apply andb_prop in E as [Hx Hy]
  end.
  apply Z.ltb_lt in Hx, Hy. apply display_index; lia.
Qed.

Lemma exec_instr_in_bounds hw vm ctx :
  pixels_in_bounds (pixels ctx) ->
  pixels_in_bounds (pixels (snd (exec_instr hw vm ctx))).
Proof.
  intros H. unfold exec_instr. destruct (pc vm >=? VM_MEMORY_SIZE);
    [exact H |].
  unfold dispatch. cbv zeta.
  pose proof (handle_platform_io_in_bounds
                (set_pc (after_fetch vm) (u16 (pc (after_fetch vm) + 1))) ctx
                (mem_read (memory (after_fetch vm)) (pc (after_fetch vm))) H)
    as Hio.
  destruct (handle_platform_io _ ctx _) as [[io_error vm2] ctx'].
  cbn [snd] in Hio.
  repeat match goal with
         | |- context [if ?o =? ?c then _ else _] => destruct (o =? c)
         end;
  repeat match goal with
         | |- context [let '(_, _) := ?x in _] => destruct x
         | |- context [if ?c then _ else _] => destruct c
         end; try exact H; try exact Hio;
  destruct io_error; exact Hio.
Qed.

Lemma run_vm_in_bounds hw events :
  forall vm ctx e vm' ctx',
    pixels_in_bounds (pixels ctx) ->
    run_vm hw events vm ctx = Some (e, vm', ctx') ->
    pixels_in_bounds (pixels ctx').
Proof.
  induction events as [| pending later IH]; intros vm ctx e vm' ctx' H Hrun;
    cbn [run_vm] in Hrun;
    destruct (running vm && vm_error_eqb (error vm) VM_OK);
    try discriminate; try (injection Hrun as <- <- <-; exact H).
  destruct (process_events_spec pending ctx) as (_ & _ & Hpx & _).
  destruct (platform_io_process_events pending ctx) as [go_on ctx1].
  cbn [snd] in Hpx. rewrite <- Hpx in H.
  destruct go_on; cbn [negb] in Hrun;
    [| injection Hrun as <- <- <-; exact H].
  destruct (platform_io_is_waiting_for_input ctx1).
  { exact (IH vm ctx1 e vm' ctx' H Hrun). }
  pose proof (exec_instr_in_bounds hw vm ctx1 H) as H1.
  destruct (exec_instr hw vm ctx1) as [vm1 ctx2]. cbn [snd] in H1.
  destruct (is_fault (error vm1)).
  - injection Hrun as <- <- <-. exact H1.
  - exact (IH vm1 ctx2 e vm' ctx' H1 Hrun).
Qed.

(** X19.  The host never stores a pixel outside the 320 by 240 buffer:
    whatever the operation and the bytes on the stack, [DRAW_PIXEL],
    [DRAW_LINE] and [FILL_RECT] clip, and so the buffer is within bounds
    after any run that starts from [platform_io_init]. *)
Theorem pixel_buffer_never_overrun (hw : host_t) (vm : vm_t)
    (ctx : platform_io_context_t) (io_id : Z)
    (events : list (list sdl_event)) (image : list Z) :
  (pixels_in_bounds (pixels ctx) ->
   pixels_in_bounds (pixels (snd (handle_platform_io vm ctx io_id)))) /\
  (forall e vm' ctx',
      run_vm hw events (loaded image) platform_io_init = Some (e, vm', ctx') ->
      pixels_in_bounds (pixels ctx')).
Proof.
  split.
  - apply handle_platform_io_in_bounds.
  - intros e vm' ctx' Hrun.
    apply (run_vm_in_bounds hw events (loaded image) platform_io_init
             e vm' ctx'); [| exact Hrun].
    intros k v Hl. cbn in Hl. rewrite lookup_empty in Hl. discriminate Hl.
Qed.

Lemma pixel_buffer_never_overrun_witness :
  exists e vm' ctx',
    run_vm x86_host [[]; []; []; []; []; []; []]
           (loaded [2; 255; 2; 250; 2; 255; 33; 16; 1]) platform_io_init
    = Some (e, vm', ctx') /\ pixels_in_bounds (pixels ctx').
Proof.
  eexists _, _, _. split; [vm_compute; reflexivity |].
  destruct (pixel_buffer_never_overrun x86_host (loaded [1]) platform_io_init
              0 [[]; []; []; []; []; []; []]
              [2; 255; 2; 250; 2; 255; 33; 16; 1])
    as [_ H].
  eapply H. vm_compute. reflexivity.
Defined.

(** A loop that stores one value under the keys its guard lets through. *)
Lemma fold_insert_lookup {B} (g : B -> bool) (key : B -> Z) (c k : Z)
    (l : list B) :
  forall acc : gmap Z Z,
    fold_left (fun acc' i => if g i then <[key i := c]> acc' else acc') l acc
    !! k
    = if existsb (fun i => g i && (key i =? k)) l then Some c else acc !! k.
Proof.
  induction l as [| i l IH]; intros acc; [reflexivity |].
  cbn [fold_left existsb]. rewrite IH.
  destruct (existsb _ l); [now rewrite orb_true_r |].
  rewrite orb_false_r. destruct (g i); [| reflexivity]. cbn [andb].
  destruct (Z.eqb_spec (key i) k) as [-> | Hne].
  - apply lookup_insert_eq.
  - now apply lookup_insert_ne.
Qed.

Lemma fold_rows_lookup {B} (F : B -> gmap Z Z -> gmap Z Z) (hit : B -> bool)
    (c k : Z) (rows : list B) :
  (forall py acc, F py acc !! k = if hit py then Some c else acc !! k) ->
  forall acc,
    fold_left (fun acc' py => F py acc') rows acc !! k
    = if existsb hit rows then Some c else acc !! k.
Proof.
  intros HF. induction rows as [| py rows IH]; intros acc; [reflexivity |].
  cbn [fold_left existsb]. rewrite IH, HF.
  destruct (existsb hit rows); [now rewrite orb_true_r |].
  now rewrite orb_false_r.
Qed.

(** X20.  [FILL_RECT] paints exactly the pixels of the rectangle that lie
    on the display: the pixel in column [i] of row [j] takes the colour
    when [x <= i < x + w] and [y <= j < y + h] and the row is on the
    display, and keeps its value otherwise. *)
Theorem fill_rect_paints (px : gmap Z Z) (x y w h color i j : Z) :
  0 <= x -> 0 <= y -> 0 <= i < VM_DISPLAY_WIDTH -> 0 <= j ->
  fill_rect px x y w h color !! (j * VM_DISPLAY_WIDTH + i)
  = if (x <=? i) && (i <? x + w) && (y <=? j) && (j <? y + h)
       && (j <? VM_DISPLAY_HEIGHT)
    then Some color
    else px !! (j * VM_DISPLAY_WIDTH + i).
Proof.
  intros Hx Hy Hi Hj. unfold fill_rect.
  rewrite (fold_rows_lookup
             (fun py acc =>
                fold_left
                  (fun acc' pxl =>
                     if (pxl >=? 0) && (py >=? 0)
                     then <[py * VM_DISPLAY_WIDTH + pxl := color]> acc'
                     else acc')
                  (seqZ x (Z.min (x + w) VM_DISPLAY_WIDTH - x)) acc)
             (fun py =>
                existsb
                  (fun pxl => (pxl >=? 0) && (py >=? 0)
                              && (py * VM_DISPLAY_WIDTH + pxl
                                  =? j * VM_DISPLAY_WIDTH + i))
                  (seqZ x (Z.min (x + w) VM_DISPLAY_WIDTH - x)))
             color).
  2: { intros py acc.
       apply (fold_insert_lookup
                (fun pxl => (pxl >=? 0) && (py >=? 0))
                (fun pxl => py * VM_DISPLAY_WIDTH + pxl)). }
  match goal with
  | |- (if ?b1 then _ else _) = (if ?b2 then _ else _) =>
      replace b1 with b2; [reflexivity |]
  end.
  apply eq_true_iff_eq. rewrite existsb_exists.
  unfold VM_DISPLAY_WIDTH, VM_DISPLAY_HEIGHT in *. split.
  - intros H. exists j. split; [apply in_seqZ; lia |].
    apply existsb_exists. exists i. split; [apply in_seqZ; lia |]. lia.
  - intros (py & Hpy & H). apply existsb_exists in H as (pxl & Hpxl & H).
    apply in_seqZ in Hpy. apply in_seqZ in Hpxl. lia.
Qed.

Lemma fill_rect_paints_witness :
  fill_rect ∅ 250 230 200 200 7 !! (239 * VM_DISPLAY_WIDTH + 319) = Some 7 /\
  fill_rect ∅ 250 230 200 200 7 !! (240 * VM_DISPLAY_WIDTH + 0) = None.
Proof.
  split.
  - rewrite (fill_rect_paints ∅ 250 230 200 200 7 319 239);
      [reflexivity | lia | lia | unfold VM_DISPLAY_WIDTH; lia | lia].
  - rewrite (fill_rect_paints ∅ 250 230 200 200 7 0 240);
      [reflexivity | lia | lia | unfold VM_DISPLAY_WIDTH; lia | lia].
Defined.

(** ** Keyboard and mouse *)

Lemma process_events_app before after :
  forall ctx,
    existsb is_quit before = false ->
    platform_io_process_events (before ++ after) ctx
    = platform_io_process_events after
        (snd (platform_io_process_events before ctx)).
Proof.
  induction before as [| ev before IH]; intros ctx Hq; [reflexivity |].
  destruct ev; cbn [existsb is_quit orb] in Hq; try discriminate;
    cbn [app platform_io_process_events]; now apply IH.
Qed.

Lemma land_byte x : 0 <= Z.land x 0xFF < 256.
Proof.
  change 0xFF with (Z.ones 8). rewrite Z.land_ones by lia.
  apply Z.mod_pos_bound. lia.
Qed.

(** X21.  The key of the last key press of a poll is what [GET_KEY] pushes,
    reduced to its low byte; [GET_KEY] consumes it, so that a [POLL_KEY]
    that follows pushes 0. *)
Theorem key_press_round_trip (before after : list sdl_event) (sym : Z)
    (vm : vm_t) (ctx : platform_io_context_t) :
  existsb is_quit before = false -> forallb quiet after = true ->
  1 < sp vm <= 0xFFFF ->
  let r := platform_io_process_events
             (before ++ SDL_KEYDOWN sym :: after) ctx in
  let r1 := handle_platform_io vm (snd r) IO_GET_KEY in
  let r2 := handle_platform_io (snd (fst r1)) (snd r1) IO_POLL_KEY in
  fst r = true /\
  top_of_stack (snd (fst r1)) = Z.land sym 0xFF /\
  key_available (snd r1) = false /\
  top_of_stack (snd (fst r2)) = 0 /\
  second_of_stack (snd (fst r2)) = Z.land sym 0xFF.
Proof.
  intros Hb Ha Hsp r r1 r2. subst r r1 r2.
  rewrite process_events_app by exact Hb.
  cbn [platform_io_process_events].
  set (ctx0 := set_key _ _ true).
  destruct (process_events_spec after ctx0)
    as (Hgo & _ & _ & _ & _ & _ & Hk & _).
  destruct (Hk Ha) as [Hav Hlast].
  assert (Hq : existsb is_quit after = false).
  { clear - Ha. induction after as [| ev after IH]; [reflexivity |].
    cbn [forallb] in Ha. apply andb_prop in Ha as [Hev Ha].
    destruct ev; try discriminate; cbn [existsb is_quit orb]; now apply IH. }
  rewrite Hq in Hgo.
  destruct (platform_io_process_events after ctx0) as [go_on ctx1].
  cbn [fst snd] in *. subst go_on.
  unfold handle_platform_io.
  cbv delta [IO_GET_KEY IO_POLL_KEY IO_EXIT IO_PRINT_CHAR IO_READ_CHAR
             IO_DRAW_PIXEL IO_DRAW_LINE IO_FILL_RECT IO_REFRESH Z.eqb Pos.eqb]
      beta iota.
  cbn [fst snd]. rewrite Hlast. subst ctx0.
  cbn [last_key set_key key_available set_key_available].
  unfold top_of_stack, second_of_stack, b2z.
  destruct vm as [m p s bpv rn e]. cbn [sp] in Hsp.
  rewrite (vm_push_ok (mk_vm m p s bpv rn e)) by (cbn [sp]; lia).
  cbn [memory pc sp bp running error].
  rewrite (vm_push_ok (mk_vm _ p (s - 1) bpv rn e)) by (cbn [sp]; lia).
  cbn [memory pc sp bp running error].
  replace (s - 1 + 1) with s by lia.
  replace (s - 1 - 1 + 1) with (s - 1) by lia.
  replace (s - 1 - 1 + 2) with s by lia.
  rewrite !mem_read_insert.
  rewrite mem_read_insert_ne, mem_read_insert by lia.
  rewrite !u8_u8, (u8_small (Z.land sym 255)) by apply land_byte.
  repeat split; reflexivity.
Qed.

Lemma key_press_round_trip_witness :
  top_of_stack
    (snd (fst (handle_platform_io (loaded [0])
                 (snd (platform_io_process_events
                         ([SDL_OTHER] ++ SDL_KEYDOWN 353 :: [SDL_MOUSE 8 6 1])
                         platform_io_init))
                 IO_GET_KEY)))
  = 97.
Proof.
  apply (key_press_round_trip [SDL_OTHER] [SDL_MOUSE 8 6 1] 353 (loaded [0])
           platform_io_init); [reflexivity | reflexivity |].
  vm_compute. split; [reflexivity | discriminate].
Defined.

(** X22.  [GET_MOUSE_X] and [GET_MOUSE_Y] push the low byte and then the
    high byte of the coordinate, so that the two top bytes of the stack
    give the coordinate back modulo 65536; the context is left alone. *)
Theorem mouse_position_bytes (vm : vm_t) (ctx : platform_io_context_t) :
  1 < sp vm <= 0xFFFF ->
  let rx := handle_platform_io vm ctx IO_GET_MOUSE_X in
  let ry := handle_platform_io vm ctx IO_GET_MOUSE_Y in
  second_of_stack (snd (fst rx)) + 256 * top_of_stack (snd (fst rx))
  = u16 (mouse_x ctx) /\
  second_of_stack (snd (fst ry)) + 256 * top_of_stack (snd (fst ry))
  = u16 (mouse_y ctx) /\
  snd rx = ctx /\ snd ry = ctx /\
  sp (snd (fst rx)) = sp vm - 2 /\ sp (snd (fst ry)) = sp vm - 2.
Proof.
  intros Hsp rx ry. subst rx ry.
  unfold handle_platform_io.
  cbv delta [IO_GET_MOUSE_X IO_GET_MOUSE_Y IO_GET_MOUSE_B IO_POLL_MOUSE
             IO_GET_KEY IO_POLL_KEY IO_EXIT IO_PRINT_CHAR IO_READ_CHAR
             IO_DRAW_PIXEL IO_DRAW_LINE IO_FILL_RECT IO_REFRESH Z.eqb Pos.eqb]
      beta iota.
  cbn [fst snd]. unfold top_of_stack, second_of_stack.
  destruct vm as [m p s bpv rn e]. cbn [sp] in Hsp.
  rewrite !(vm_push_ok (mk_vm m p s bpv rn e)) by (cbn [sp]; lia).
  cbn [memory pc sp bp running error].
  rewrite !(vm_push_ok (mk_vm _ p (s - 1) bpv rn e)) by (cbn [sp]; lia).
  cbn [memory pc sp bp running error].
  replace (s - 1 - 1 + 1) with (s - 1) by lia.
  replace (s - 1 - 1 + 2) with s by lia.
  rewrite !mem_read_insert.
  rewrite !(mem_read_insert_ne _ (s - 1) s) by lia.
  rewrite !mem_read_insert, !u8_u8.
  rewrite !u8_small by apply land_byte.
  rewrite !split_word.
  repeat split; try reflexivity; lia.
Qed.

Lemma mouse_position_bytes_witness :
  let ctx := snd (platform_io_process_events [SDL_MOUSE 600 90 1]
                    platform_io_init) in
  let rx := handle_platform_io (loaded [0]) ctx IO_GET_MOUSE_X in
  second_of_stack (snd (fst rx)) + 256 * top_of_stack (snd (fst rx)) = 300.
Proof.
  intros ctx rx.
  destruct (mouse_position_bytes (loaded [0]) ctx) as [H _].
  - vm_compute. split; [reflexivity | discriminate].
  - exact H.
Defined.

(** ** Bresenham's line *)

Section Line.

Variables x1 y1 dx dy sx sy color : Z.
Hypothesis Hsx : sx = 1 \/ sx = -1.
Hypothesis Hsy : sy = 1 \/ sy = -1.

(** After [a] steps in [x] and [b] steps in [y] the loop stands [dx - a]
    and [dy - b] steps from the end point, and [err] is
    [dx - dy + b * dx - a * dy]; it then breaks within
    [dx - a + dy - b + 1] iterations, with the end point painted. *)
Lemma draw_line_loop_reaches fuel :
  forall px x0 y0 err a b,
    0 <= a <= dx -> 0 <= b <= dy ->
    x1 - x0 = sx * (dx - a) -> y1 - y0 = sy * (dy - b) ->
    err = dx - dy + b * dx - a * dy ->
    (dx - a) + (dy - b) < Z.of_nat fuel ->
    draw_line_breaks fuel x0 y0 x1 y1 dx dy sx sy err = true /\
    (in_display x1 y1 = true ->
     draw_line_loop fuel px x0 y0 x1 y1 dx dy sx sy err color
     !! (y1 * VM_DISPLAY_WIDTH + x1) = Some color) /\
    forall extra,
      draw_line_loop (fuel + extra) px x0 y0 x1 y1 dx dy sx sy err color
      = draw_line_loop fuel px x0 y0 x1 y1 dx dy sx sy err color.
Proof.
  induction fuel as [| fuel IH]; intros px x0 y0 err a b Ha Hb Hx Hy He Hf;
    [lia |].
  cbn [draw_line_breaks draw_line_loop Nat.add].
  destruct ((x0 =? x1) && (y0 =? y1)) eqn:Hend.
  { apply andb_prop in Hend as [Ex Ey].
    apply Z.eqb_eq in Ex, Ey. subst x0 y0.
    split; [reflexivity |]. split; [| reflexivity].
    intros Hd. rewrite Hd. apply lookup_insert_eq. }
  assert (Hfar : 0 < (dx - a) + (dy - b)).
  { apply andb_false_iff in Hend. destruct Hend as [E | E];
      apply Z.eqb_neq in E; nia. }
  cbv zeta.
  destruct (Z.gtb_spec (2 * err) (- dy)) as [Gx | Gx];
    destruct (Z.ltb_spec (2 * err) dx) as [Gy | Gy].
  - assert (a < dx) by nia. assert (b < dy) by nia.
    apply (IH _ _ _ _ (a + 1) (b + 1)); nia.
  - assert (a < dx) by nia.
    apply (IH _ _ _ _ (a + 1) b); nia.
  - assert (b < dy) by nia.
    apply (IH _ _ _ _ a (b + 1)); nia.
  - nia.
Qed.

(** A pixel of the line's colour keeps it through the loop. *)
Lemma draw_line_loop_keeps_painted fuel k :
  forall px x0 y0 err,
    px !! k = Some color ->
    draw_line_loop fuel px x0 y0 x1 y1 dx dy sx sy err color !! k
    = Some color.
Proof.
  induction fuel as [| fuel IH]; intros px x0 y0 err H; [exact H |].
  cbn [draw_line_loop].
  assert (H1 : (if in_display x0 y0
                then <[y0 * VM_DISPLAY_WIDTH + x0 := color]> px else px) !! k
               = Some color).
  { destruct (in_display x0 y0); [| exact H].
    destruct (Z.eq_dec (y0 * VM_DISPLAY_WIDTH + x0) k) as [<- | Hne].
    - apply lookup_insert_eq.
    - now rewrite lookup_insert_ne. }
  destruct ((x0 =? x1) && (y0 =? y1)); [exact H1 |].
  destruct (2 * err >? - dy); destruct (2 * err <? dx); now apply IH.
Qed.

End Line.

(** X23.  The loop of [draw_line] ends: it breaks within
    [dx + dy + 1] iterations whatever the end points, so further iterations
    change nothing.  The line paints both end points when they are on the
    display. *)
Theorem draw_line_terminates (px : gmap Z Z) (x0 y0 x1 y1 color : Z) :
  let dx := Z.abs (x1 - x0) in
  let dy := Z.abs (y1 - y0) in
  let sx := if x0 <? x1 then 1 else -1 in
  let sy := if y0 <? y1 then 1 else -1 in
  draw_line_breaks (Z.to_nat (dx + dy + 1)) x0 y0 x1 y1 dx dy sx sy (dx - dy)
  = true /\
  (forall extra,
      draw_line_loop (Z.to_nat (dx + dy + 1) + extra) px x0 y0 x1 y1
                     dx dy sx sy (dx - dy) color
      = draw_line px x0 y0 x1 y1 color) /\
  (in_display x1 y1 = true ->
   draw_line px x0 y0 x1 y1 color !! (y1 * VM_DISPLAY_WIDTH + x1)
   = Some color) /\
  (in_display x0 y0 = true ->
   draw_line px x0 y0 x1 y1 color !! (y0 * VM_DISPLAY_WIDTH + x0)
   = Some color).
Proof.
  intros dx dy sx sy.
  assert (Hsx : sx = 1 \/ sx = -1) by (subst sx; destruct (x0 <? x1); auto).
  assert (Hsy : sy = 1 \/ sy = -1) by (subst sy; destruct (y0 <? y1); auto).
  destruct (draw_line_loop_reaches x1 y1 dx dy sx sy color Hsx Hsy
              (Z.to_nat (dx + dy + 1)) px x0 y0 (dx - dy) 0 0)
    as (Hends & Hlast & Hmore);
    try (subst dx dy sx sy; destruct (Z.ltb_spec x0 x1);
         destruct (Z.ltb_spec y0 y1); lia).
  fold (draw_line px x0 y0 x1 y1 color) in Hlast, Hmore.
  repeat split; [exact Hends | exact Hmore | exact Hlast |].
  intros Hd. unfold draw_line. fold dx dy sx sy.
  replace (Z.to_nat (dx + dy + 1)) with (S (Z.to_nat (dx + dy)))
    by (subst dx dy; lia).
  cbn [draw_line_loop]. rewrite Hd.
  destruct ((x0 =? x1) && (y0 =? y1)); [apply lookup_insert_eq |].
  destruct (2 * (dx - dy) >? - dy); destruct (2 * (dx - dy) <? dx);
    apply draw_line_loop_keeps_painted, lookup_insert_eq.
Qed.

Lemma draw_line_terminates_witness :
  draw_line ∅ 250 10 3 200 7 !! (200 * VM_DISPLAY_WIDTH + 3) = Some 7 /\
  draw_line ∅ 250 10 3 200 7 !! (10 * VM_DISPLAY_WIDTH + 250) = Some 7.
Proof.
  destruct (draw_line_terminates ∅ 250 10 3 200 7) as (_ & _ & H1 & H0).
  split; [apply H1 | apply H0]; reflexivity.
Defined.

(** * Further properties of the assembler *)

(** ** Emitting bytes and words *)

Lemma emit_byte_ok st byte :
  0 <= output_pos st < 65536 ->
  emit_byte st byte
  = mk_asm (labels st) (label_refs st)
           (<[output_pos st := u8 byte]> (output st))
           (u16 (output_pos st + 1)) (printed st) (overrun st).
Proof.
  intros H. unfold emit_byte, VM_MEMORY_SIZE.
  destruct (Z.ltb_spec (output_pos st) 65536); [reflexivity | lia].
Qed.

(** X24.  [emit_word] lays a word down low byte first, which is the layout
    [vm_read16] of the engine decodes: reading the image at the position of
    the word gives the word back modulo 65536.  The position is a 16-bit
    counter: a word emitted at position [0xFFFF] puts its high byte at
    position 0 and leaves the counter at 1. *)
Theorem emit_word_read16 (st : asm_t) (word : Z) (vm : vm_t) :
  let st' := emit_word st word in
  (0 <= output_pos st < 0xFFFF ->
   vm_read16 (set_memory vm (output st')) (output_pos st)
   = (u16 word, set_memory vm (output st')) /\
   output_pos st' = u16 (output_pos st + 2) /\
   forall a, a <> output_pos st -> a <> output_pos st + 1 ->
             output st' !! a = output st !! a) /\
  (output_pos st = 0xFFFF ->
   mem_read (output st') 0xFFFF = Z.land (u16 word) 0xFF /\
   mem_read (output st') 0 = Z.land (Z.shiftr (u16 word) 8) 0xFF /\
   output_pos st' = 1).
Proof.
  intros st'. subst st'. unfold emit_word. split.
  - intros Hpos.
    rewrite (emit_byte_ok st) by lia.
    rewrite emit_byte_ok by (cbn [output_pos]; rewrite u16_small; lia).
    cbn [output output_pos]. rewrite (u16_small (output_pos st + 1)) by lia.
    split; [| split].
    + rewrite read16_value by lia. cbn [memory set_memory].
      rewrite mem_read_insert_ne, !mem_read_insert, !u8_u8 by lia.
      rewrite !u8_small by apply land_byte.
      rewrite <- split_word.
      now rewrite (u16_small (u16 word)) by apply u16_range.
    + f_equal. lia.
    + intros a H0 H1. now rewrite !lookup_insert_ne by lia.
  - intros Hpos.
    rewrite (emit_byte_ok st) by lia.
    rewrite emit_byte_ok by (cbn [output_pos]; rewrite Hpos; vm_compute;
                             split; [discriminate | reflexivity]).
    cbn [output output_pos]. rewrite Hpos.
    change (u16 (65535 + 1)) with 0. change (u16 (0 + 1)) with 1.
    rewrite mem_read_insert_ne, !mem_read_insert, !u8_u8 by lia.
    rewrite !u8_small by apply land_byte. repeat split; reflexivity.
Qed.

Lemma emit_word_read16_witness :
  fst (vm_read16
         (set_memory (loaded [])
            (output (emit_word (emit_byte asm_init OP_JMP) 0x1234)))
         1)
  = 0x1234.
Proof.
  destruct (emit_word_read16 (emit_byte asm_init OP_JMP) 0x1234 (loaded []))
    as [H _].
  destruct H as (H & _ & _).
  - vm_compute. split; [discriminate | reflexivity].
  - change (output_pos (emit_byte asm_init OP_JMP)) with 1 in H.
    now rewrite H.
Defined.

(** ** The tables and the position stay within their arrays *)

Lemma emit_byte_asm_ok st byte : asm_ok st -> asm_ok (emit_byte st byte).
Proof.
  intros (Hl & Hr & Hp0 & Hp1). unfold emit_byte.
  destruct (output_pos st <? VM_MEMORY_SIZE); [| now repeat split].
  repeat split; cbn [labels label_refs output_pos]; try assumption;
    apply u16_range.
Qed.

Lemma emit_word_asm_ok st word : asm_ok st -> asm_ok (emit_word st word).
Proof. intros H. unfold emit_word. now do 2 apply emit_byte_asm_ok. Qed.

Lemma add_label_asm_ok st name address :
  asm_ok st -> asm_ok (add_label st name address).
Proof.
  intros (Hl & Hr & Hp0 & Hp1). unfold add_label.
  destruct (Z.ltb_spec (Z.of_nat (length (labels st))) MAX_LABELS);
    [| now repeat split].
  repeat split; cbn [labels label_refs output_pos]; try assumption.
  rewrite length_app. cbn [length]. lia.
Qed.

Lemma add_label_ref_asm_ok st name pos :
  asm_ok st -> asm_ok (add_label_ref st name pos).
Proof.
  intros (Hl & Hr & Hp0 & Hp1). unfold add_label_ref.
  destruct (Z.ltb_spec (Z.of_nat (length (label_refs st))) MAX_LABELS);
    [| now repeat split].
  repeat split; cbn [labels label_refs output_pos]; try assumption.
  rewrite length_app. cbn [length]. lia.
Qed.

Lemma say_asm_ok st m : asm_ok st -> asm_ok (say st m).
Proof. intros H. exact H. Qed.

Lemma patch_label_asm_ok st ref : asm_ok st -> asm_ok (patch_label st ref).
Proof.
  intros H. unfold patch_label.
  destruct (find_label (labels st) ref.1); exact H.
Qed.

Lemma patch_labels_asm_ok refs :
  forall st, asm_ok st -> asm_ok (fold_left patch_label refs st).
Proof.
  induction refs as [| ref refs IH]; intros st H; [exact H |].
  cbn [fold_left]. now apply IH, patch_label_asm_ok.
Qed.

Lemma assemble_instruction_asm_ok st line line_num :
  asm_ok st -> asm_ok (assemble_instruction st line line_num).
Proof.
  intros H. unfold assemble_instruction, emit_imm8, emit_addr16.
  destruct (strtok line) as [[token after] |]; [| exact H].
  destruct (opcode_of plain_mnemonics (upcase token));
    [now apply emit_byte_asm_ok |].
  destruct (opcode_of imm8_mnemonics (upcase token)).
  { cbv zeta. destruct (strtok after) as [[operand rest] |];
      repeat apply emit_byte_asm_ok; exact H. }
  destruct (opcode_of addr16_mnemonics (upcase token)); [| exact H].
  cbv zeta. destruct (strtok after) as [[operand rest] |];
    [| now apply emit_byte_asm_ok].
  destruct operand as [| c operand]; [| destruct (isalpha c)];
    apply emit_word_asm_ok; try apply add_label_ref_asm_ok;
    now apply emit_byte_asm_ok.
Qed.

Lemma assemble_line_asm_ok lc st raw line_num :
  asm_ok st -> asm_ok (assemble_line lc st raw line_num).
Proof.
  intros H. unfold assemble_line. cbv zeta.
  destruct (starts_comment_or_empty (trim_whitespace raw)); [exact H |].
  destruct (split_colon (trim_whitespace raw)) as [[before after] |];
    [| now apply assemble_instruction_asm_ok].
  destruct (starts_comment_or_empty (trim_whitespace after));
    [| apply assemble_instruction_asm_ok]; now apply add_label_asm_ok.
Qed.

Lemma assemble_lines_asm_ok lc lines :
  forall st line_num,
    asm_ok st -> asm_ok (assemble_lines lc st lines line_num).
Proof.
  induction lines as [| raw lines IH]; intros st line_num H; [exact H |].
  cbn [assemble_lines]. now apply IH, assemble_line_asm_ok.
Qed.

Lemma asm_init_asm_ok : asm_ok asm_init.
Proof. repeat split; cbn; unfold MAX_LABELS, VM_MEMORY_SIZE; lia. Qed.

(** X25.  When no store overran a C array, the assembler ends with at
    most [MAX_LABELS] labels and [MAX_LABELS] references and with a
    position inside the output array, and the image it writes has exactly
    [output_pos] bytes, fewer than 65536.  This holds whatever the
    library's [strcpy] makes of a labelled line. *)
Theorem assemble_file_in_bounds (lc : libc_t) (source : option string) :
  let st := snd (assemble_file lc source) in
  overrun st = false ->
  asm_ok st /\
  Z.of_nat (length (output_image st)) = output_pos st /\
  output_pos st < 65536.
Proof.
  intros st _.
  assert (H : asm_ok st).
  { subst st. destruct source as [text |]; cbn [assemble_file snd].
    - apply patch_labels_asm_ok, assemble_lines_asm_ok, asm_init_asm_ok.
    - apply asm_init_asm_ok. }
  split; [exact H |].
  destruct H as (_ & _ & Hp). unfold VM_MEMORY_SIZE in Hp.
  unfold output_image. rewrite length_map, length_seqZ. lia.
Qed.

Lemma assemble_file_in_bounds_witness :
  let st := snd (assemble_file bytewise_libc
                   (Some ("loop: NOP" ++ newline ++ "JMP loop" ++ newline)
                         %string)) in
  asm_ok st /\ Z.of_nat (length (output_image st)) = 4.
Proof.
  intros st.
  destruct (assemble_file_in_bounds bytewise_libc
              (Some ("loop: NOP" ++ newline ++ "JMP loop" ++ newline)
                    %string)) as (Hok & Hlen & _); [reflexivity |].
  split; [exact Hok | exact Hlen].
Defined.

(** ** Labels *)

Lemma find_label_app tbl tbl' name :
  find_label (tbl ++ tbl') name
  = match find_label tbl name with
    | Some address => Some address
    | None => find_label tbl' name
    end.
Proof.
  induction tbl as [| [n address] tbl IH]; [reflexivity |].
  cbn [app find_label]. now destruct (String.eqb n name).
Qed.

(** X26.  A label defined twice keeps its first address: [add_label] appends
    and [find_label] returns the first match.  The definition is dropped
    without a message once the table holds [MAX_LABELS] entries, and the
    lookup of any other name is not affected.  (For a name that fits its
    64-byte field, in a run in which no store overran a C array.) *)
Theorem first_label_wins (st : asm_t) (name other : string) (address : Z) :
  overrun st = false -> name_overruns name = false ->
  let st' := add_label st name address in
  find_label (labels st') name
  = match find_label (labels st) name with
    | Some first => Some first
    | None => if Z.of_nat (length (labels st)) <? MAX_LABELS
              then Some address else None
    end /\
  (other <> name ->
   find_label (labels st') other = find_label (labels st) other) /\
  printed st' = printed st /\ output st' = output st /\
  overrun st' = false.
Proof.
  intros Hst Hname st'. subst st'. unfold add_label.
  destruct (Z.of_nat (length (labels st)) <? MAX_LABELS);
    cbn [labels printed output overrun].
  - rewrite !find_label_app. cbn [find_label].
    rewrite String.eqb_refl, Hst, Hname. repeat split.
    intros Hne. destruct (String.eqb_spec name other) as [E | _];
      [now subst | now destruct (find_label (labels st) other)].
  - repeat split; [| exact Hst]. now destruct (find_label (labels st) name).
Qed.

Lemma first_label_wins_witness :
  find_label
    (labels (add_label (add_label asm_init "loop" 3) "end" 9)) "loop"
  = Some 3.
Proof.
  destruct (first_label_wins (add_label asm_init "loop" 3) "end" "loop" 9)
    as (_ & H & _); [reflexivity | reflexivity |].
  rewrite H; [reflexivity | discriminate].
Defined.

Lemma mem_read_lookup m m' a : m !! a = m' !! a -> mem_read m a = mem_read m' a.
Proof. unfold mem_read. now intros ->. Qed.

Lemma patch_labels_resolved refs :
  forall st name pos address,
    In (name, pos) refs -> separated refs = true ->
    find_label (labels st) name = Some address ->
    let out := output (fold_left patch_label refs st) in
    mem_read out pos = Z.land address 0xFF /\
    mem_read out (pos + 1) = Z.land (Z.shiftr address 8) 0xFF.
Proof.
  induction refs as [| r refs IH]; intros st name pos address Hin Hsep Hfind;
    [contradiction |].
  cbn [separated] in Hsep. apply andb_prop in Hsep as [Hfar Hsep].
  cbn [fold_left]. destruct Hin as [-> | Hin].
  - cbn zeta.
    assert (Hout : Forall (fun r => pos <> snd r /\ pos <> snd r + 1) refs /\
                   Forall (fun r => pos + 1 <> snd r /\ pos + 1 <> snd r + 1)
                          refs).
    { rewrite forallb_forall in Hfar. split; apply Forall_forall;
        intros r' Hr'; apply list_elem_of_In in Hr';
        specialize (Hfar r' Hr'); cbn [snd] in Hfar; lia. }
    destruct Hout as [Hout0 Hout1].
    rewrite (mem_read_lookup _ _ _ (patch_labels_outside refs pos _ Hout0)).
    rewrite (mem_read_lookup _ _ _
               (patch_labels_outside refs (pos + 1) _ Hout1)).
    unfold patch_label. cbn [fst snd]. rewrite Hfind. cbn [output].
    rewrite mem_read_insert_ne, !mem_read_insert by lia.
    now rewrite !u8_small by apply land_byte.
  - apply (IH (patch_label st r) name pos address Hin Hsep).
    now rewrite patch_label_labels.
Qed.

(** X27.  When no two references overlap and no patch ran past the
    output array, [patch_labels] makes every reference to a defined label
    read back as the address of the label: the two bytes at the patch
    position are its low and high byte, and [vm_read16] of the engine
    returns the address there. *)
Theorem patched_reference_reads_label (st : asm_t) (name : string)
    (pos address : Z) (vm : vm_t) :
  overrun (patch_labels st) = false ->
  In (name, pos) (label_refs st) -> separated (label_refs st) = true ->
  find_label (labels st) name = Some address ->
  0 <= address < 65536 -> 0 <= pos < 0xFFFF ->
  vm_read16 (set_memory vm (output (patch_labels st))) pos
  = (address, set_memory vm (output (patch_labels st))).
Proof.
  intros _ Hin Hsep Hfind Haddr Hpos.
  destruct (patch_labels_resolved (label_refs st) st name pos address
              Hin Hsep Hfind) as [Hlo Hhi].
  fold (patch_labels st) in Hlo, Hhi.
  rewrite read16_value by lia. cbn [memory set_memory].
  rewrite Hlo, Hhi, <- split_word. now rewrite u16_small.
Qed.

Lemma patched_reference_reads_label_witness :
  let st := snd (assemble_file bytewise_libc
                   (Some ("JMP end" ++ newline ++ "NOP" ++ newline
                          ++ "end:" ++ newline ++ "HALT" ++ newline)
                         %string)) in
  fst (vm_read16 (set_memory (loaded []) (output st)) 1) = 4.
Proof.
  intros st.
  set (st0 := assemble_lines bytewise_libc asm_init
                (source_lines
                   ("JMP end" ++ newline ++ "NOP" ++ newline
                    ++ "end:" ++ newline ++ "HALT" ++ newline)%string) 0).
  change st with (patch_labels st0).
  rewrite (patched_reference_reads_label st0 "end" 1 4 (loaded []));
    [reflexivity | | | | | lia | lia].
  - vm_compute. reflexivity.
  - vm_compute. now left.
  - vm_compute. reflexivity.
  - vm_compute. reflexivity.
Defined.

(** ** Reading the source text *)












(** A NUL byte ends the line: of [NOP], a NUL byte and [HALT] on one
    line, only [NOP] is assembled. *)
Lemma nul_byte_ends_the_line (lc : libc_t) :
  let text := ("NOP" ++ String (ascii_of_N 0) ("HALT" ++ newline))%string in
  source_lines text = ["NOP"%string] /\
  output_image (snd (assemble_file lc (Some text))) = [OP_NOP].
Proof. vm_compute. split; reflexivity. Qed.

(** ** Trimming *)

Lemma drop_trailing_space_idem s :
  drop_trailing_space (drop_trailing_space s) = drop_trailing_space s.
Proof.
  induction s as [| c rest IH]; [reflexivity |].
  cbn [drop_trailing_space].
  destruct (drop_trailing_space rest) as [| k kept] eqn:E.
  - destruct (isspace c) eqn:Hc; [reflexivity |].
    cbn [drop_trailing_space]. now rewrite Hc.
  - change (match drop_trailing_space (String k kept) with
            | EmptyString =>
                if isspace c then EmptyString else String c EmptyString
            | String a s0 => String c (String a s0)
            end = String c (String k kept)).
    now rewrite IH.
Qed.

Lemma skip_space_head s c rest :
  skip_space s = String c rest -> isspace c = false.
Proof.
  induction s as [| a s IH]; [discriminate |].
  cbn [skip_space]. destruct (isspace a) eqn:Ha; [exact IH |].
  intros [= <- _]. exact Ha.
Qed.

Lemma drop_trailing_space_head c rest :
  isspace c = false ->
  exists kept, drop_trailing_space (String c rest) = String c kept.
Proof.
  intros Hc. cbn [drop_trailing_space]. rewrite Hc.
  destruct (drop_trailing_space rest) as [| k kept]; eauto.
Qed.

(** X29.  [trim_whitespace] leaves a string that does not start with white
    space, and trimming it again changes nothing. *)
Theorem trim_whitespace_idempotent (s : string) :
  trim_whitespace (trim_whitespace s) = trim_whitespace s /\
  match trim_whitespace s with
  | String c _ => isspace c = false
  | EmptyString => True
  end.
Proof.
  unfold trim_whitespace.
  destruct (skip_space s) as [| c rest] eqn:E; [now split |].
  pose proof (skip_space_head s c rest E) as Hc.
  destruct (drop_trailing_space_head c rest Hc) as [kept Hk].
  rewrite Hk. split; [| exact Hc].
  cbn [skip_space]. rewrite Hc, <- Hk. apply drop_trailing_space_idem.
Qed.

(** ** Operands *)

Lemma parse_number_alpha c rest :
  isalpha c = true -> parse_number (String c rest) = 0.
Proof.
  intros Hc.
  assert (H10 : to_int (strtol (String c rest) 10) = 0).
  { destruct c as [[] [] [] [] [] [] [] []]; try discriminate Hc;
      reflexivity. }
  unfold parse_number. destruct rest as [| c1 rest']; [exact H10 |].
  destruct ((code c =? 48) && (code c1 =? 120)) eqn:E; [| exact H10].
  apply andb_prop in E as [E _].
  destruct c as [[] [] [] [] [] [] [] []]; discriminate.
Qed.

Lemma emit_byte_label_refs st byte :
  label_refs (emit_byte st byte) = label_refs st.
Proof.
  unfold emit_byte. now destruct (output_pos st <? VM_MEMORY_SIZE).
Qed.

(** X30.  Only the address instructions take a label.  An operand of [PUSH]
    or [SYS] that starts with a letter is read as a number, which gives 0:
    the assembler emits the byte 0, records no reference and prints
    nothing. *)
Theorem label_operand_of_push_is_zero (st : asm_t) (opcode : Z)
    (after rest more : string) (c : ascii) :
  isalpha c = true -> strtok after = Some (String c rest, more) ->
  emit_imm8 st opcode after = emit_byte (emit_byte st opcode) 0 /\
  label_refs (emit_imm8 st opcode after) = label_refs st /\
  printed (emit_imm8 st opcode after) = printed st.
Proof.
  intros Hc Htok. unfold emit_imm8. cbv zeta. rewrite Htok.
  rewrite (parse_number_alpha c rest Hc).
  split; [reflexivity |]. rewrite !emit_byte_label_refs.
  split; [reflexivity |].
  unfold emit_byte.
  repeat match goal with
         | |- context [if ?b then _ else _] => destruct b; cbn [printed]
         end; reflexivity.
Qed.

Lemma label_operand_of_push_is_zero_witness :
  output_image (assemble_instruction asm_init "PUSH count" 1) = [OP_PUSH; 0].
Proof.
  change (assemble_instruction asm_init "PUSH count" 1)
    with (emit_imm8 asm_init OP_PUSH "count").
  destruct (label_operand_of_push_is_zero asm_init OP_PUSH "count" "ount" ""
              "c"%char eq_refl eq_refl) as [-> _].
  reflexivity.
Defined.

(** ** Labelled lines *)

(** An instruction that follows its label on the same line is moved to the
    front of [line] by [strcpy].  When it is shorter than the label and
    its colon the copy is defined and the instruction is assembled as
    written; otherwise what is assembled is what the library's [strcpy]
    left in [line]. *)
Lemma labelled_line_strcpy (lc : libc_t) :
  output_image (assemble_line lc asm_init "loop: NOP" 1) = [OP_NOP] /\
  assemble_line lc asm_init "a: HALT" 1
  = assemble_instruction (add_label asm_init "a" 0)
      (c_str (strcpy_overlapping lc 2 "HALT")) 1.
Proof. split; reflexivity. Qed.
